(** * cqube-csv-parser-service: the CSV-to-ingest-folder utilities

    A shallow embedding of [src/utils/csv_parser_utils.py] and the
    properties of it that the specification states.

    Conventions of the embedding.
    - Python text is [string]; a character is a code point below 256.
      [clean_column_name], the one function whose result depends on
      what the characters are, is modelled a second time on texts of
      arbitrary code points (module [Unicode]), with [str.lower] as a
      parameter; on texts of code points below 256 the two models
      agree.
    - A pandas [DataFrame] is kept row-major: the column labels and the
      list of rows.  Labels may repeat, as they may in pandas.
    - The effects on the file system are a log of events, one per folder
      created and per file written; the files as they stand afterwards
      are computed from the log.  A document that the code hands to a
      library serialiser ([DataFrame.to_csv], [json.dumps]) is stored
      as the document.
    - Python exceptions are the [Err] results of an error monad; what
      was written before an exception stays written. *)

From Stdlib Require Import ZArith NArith Ascii String List Bool Lia.
From stdpp Require Import base option list strings gmap.

Local Open Scope bool_scope.
Set Warnings "-register-all".

(** ** Characters and text *)

Module Text.

Definition code (c : ascii) : nat := nat_of_ascii c.

Definition in_range (lo hi : nat) (c : ascii) : bool :=
  (lo <=? code c)%nat && (code c <=? hi)%nat.

Definition is_upper (c : ascii) : bool := in_range 65 90 c.
Definition is_lower (c : ascii) : bool := in_range 97 122 c.
Definition is_digit (c : ascii) : bool := in_range 48 57 c.

(** The character class [[a-zA-Z0-9]]. *)
Definition is_alnum (c : ascii) : bool :=
  is_lower c || is_upper c || is_digit c.

(** The character class [[a-z0-9]]. *)
Definition is_word (c : ascii) : bool := is_lower c || is_digit c.

Definition is_blank (c : ascii) : bool := bool_decide (c = " "%char).
Definition is_underscore (c : ascii) : bool := bool_decide (c = "_"%char).

(** [str.isspace] on one code point below 256: TAB..CR, FS..US, the
    space, NEL and the no-break space. *)
Definition is_pyspace (c : ascii) : bool :=
  in_range 9 13 c || in_range 28 32 c
  || (code c =? 133)%nat || (code c =? 160)%nat.

(** [str.lower] on one code point below 256: the ASCII capitals and the
    Latin-1 capitals (all of U+00C0..U+00DE but the multiplication
    sign U+00D7) move up by 32, everything else stays. *)
Definition lower_char (c : ascii) : ascii :=
  if is_upper c || (in_range 192 222 c && negb (code c =? 215)%nat)
  then ascii_of_nat (code c + 32)
  else c.

Fixpoint smap (f : ascii → ascii) (s : string) : string :=
  match s with
  | EmptyString => EmptyString
  | String c s' => String (f c) (smap f s')
  end.

Fixpoint sall (p : ascii → bool) (s : string) : bool :=
  match s with
  | EmptyString => true
  | String c s' => p c && sall p s'
  end.

Definition is_empty (s : string) : bool :=
  match s with EmptyString => true | _ => false end.

(** [s.lower()] *)
Definition lower (s : string) : string := smap lower_char s.

(** [s.replace(a, b)] for single characters [a] and [b]. *)
Definition replace_char (a b : ascii) (s : string) : string :=
  smap (λ c, if bool_decide (c = a) then b else c) s.

Fixpoint lstrip (s : string) : string :=
  match s with
  | EmptyString => EmptyString
  | String c s' => if is_pyspace c then lstrip s' else s
  end.

Fixpoint rstrip (s : string) : string :=
  match s with
  | EmptyString => EmptyString
  | String c s' =>
      let r := rstrip s' in
      if is_pyspace c && is_empty r then EmptyString else String c r
  end.

(** [s.strip()] *)
Definition strip (s : string) : string := rstrip (lstrip s).

Definition starts_with_blank (s : string) : bool :=
  match s with String c _ => is_blank c | EmptyString => false end.

(** [s.startswith(p)] and [s.endswith(p)] *)
Fixpoint startswith (p s : string) : bool :=
  match p, s with
  | EmptyString, _ => true
  | String a p', String b s' => bool_decide (a = b) && startswith p' s'
  | String _ _, EmptyString => false
  end.

Fixpoint endswith_go (p s : string) : bool :=
  bool_decide (s = p) ||
  match s with
  | EmptyString => false
  | String _ s' => endswith_go p s'
  end.

Definition endswith (s p : string) : bool := endswith_go p s.

(** [sep.join(parts)] *)
Fixpoint join (sep : string) (parts : list string) : string :=
  match parts with
  | [] => ""
  | [p] => p
  | p :: rest => p +:+ sep +:+ join sep rest
  end.

(** [s * n] *)
Fixpoint repeat_str (s : string) (n : nat) : string :=
  match n with
  | O => ""
  | S n' => s +:+ repeat_str s n'
  end.

(** [s.split("\n")], used to count the lines of a text file. *)
Fixpoint lines_go (cur : string) (s : string) : list string :=
  match s with
  | EmptyString => [String.rev cur]
  | String c s' =>
      if bool_decide (c = "010"%char)
      then String.rev cur :: lines_go "" s'
      else lines_go (String c cur) s'
  end.

Definition lines (s : string) : list string := lines_go "" s.

(** The characters of a text, as a list. *)
Abbreviation chars := list_ascii_of_string.

End Text.

(** ** Column-name canonicalisation ([clean_column_name]) *)

Module Canon.
Import Text.

(** [re.sub(r"[^a-zA-Z0-9]", " ", s)] *)
Definition sub_non_alnum (s : string) : string :=
  smap (λ c, if is_alnum c then c else " "%char) s.

(** [re.sub(r" {2,}", " ", s)]: every maximal run of two or more
    blanks is replaced by one blank, and a lone blank stays, so of
    each run of blanks exactly the last one is kept. *)
Fixpoint sub_blank_runs (s : string) : string :=
  match s with
  | EmptyString => EmptyString
  | String c s' =>
      if is_blank c && starts_with_blank s'
      then sub_blank_runs s'
      else String c (sub_blank_runs s')
  end.

Definition clean_column_name (column_name : string) : string :=
  let column_name := lower column_name in
  let column_name := sub_non_alnum column_name in
  let column_name := strip column_name in
  let column_name := sub_blank_runs column_name in
  let column_name := replace_char " " "_" column_name in
  column_name.

(** The language of [^[a-z0-9]+(_[a-z0-9]+)*$], as a grammar ... *)
Inductive word : string → Prop :=
| word_last c : is_word c = true → word (String c "")
| word_more c w : is_word c = true → word w → word (String c w).

Inductive canonical : string → Prop :=
| canonical_word w : word w → canonical w
| canonical_sep w s :
    word w → canonical s → canonical (w +:+ "_" +:+ s).

(** ... and as a matcher that runs: [need] says that the next
    character has to be a word character. *)
Fixpoint canon_from (need : bool) (s : string) : bool :=
  match s with
  | EmptyString => negb need
  | String c s' =>
      if is_word c then canon_from false s'
      else is_underscore c && negb need && canon_from true s'
  end.

Definition is_canonical (s : string) : bool := canon_from true s.

(** What is left after the lowering and the first substitution. *)
Definition blank_or_word (c : ascii) : bool := is_word c || is_blank c.

End Canon.

(** ** Column names of any text

    [clean_column_name] once more, on a Python [str] of arbitrary code
    points. *)

Module Unicode.
Import Text.

(** A Python [str]: the list of its code points. *)
Definition text := list N.

(** The text that a [string] stands for. *)
Definition codes (s : string) : text := N_of_ascii <$> chars s.

Definition in_range (lo hi c : N) : bool := (lo <=? c)%N && (c <=? hi)%N.

Definition is_upper (c : N) : bool := in_range 65 90 c.
Definition is_lower (c : N) : bool := in_range 97 122 c.
Definition is_digit (c : N) : bool := in_range 48 57 c.

(** The character class [[a-zA-Z0-9]]. *)
Definition is_alnum (c : N) : bool := is_lower c || is_upper c || is_digit c.

(** The character class [[a-z0-9]]. *)
Definition is_word (c : N) : bool := is_lower c || is_digit c.

Definition is_blank (c : N) : bool := (c =? 32)%N.
Definition is_underscore (c : N) : bool := (c =? 95)%N.

(** [str.isspace] on one code point, which is what [str.strip]
    removes: TAB..CR, FS..US, the space, NEL, the no-break space,
    U+1680, U+2000..U+200A, U+2028, U+2029, U+202F, U+205F and
    U+3000. *)
Definition is_space (c : N) : bool :=
  in_range 9 13 c || in_range 28 32 c || (c =? 133)%N || (c =? 160)%N
  || (c =? 5760)%N || in_range 8192 8202 c || (c =? 8232)%N
  || (c =? 8233)%N || (c =? 8239)%N || (c =? 8287)%N || (c =? 12288)%N.

(** [re.sub(r"[^a-zA-Z0-9]", " ", s)] *)
Definition sub_non_alnum (s : text) : text :=
  (λ c, if is_alnum c then c else 32%N) <$> s.

Fixpoint lstrip (s : text) : text :=
  match s with
  | [] => []
  | c :: s' => if is_space c then lstrip s' else s
  end.

Fixpoint rstrip (s : text) : text :=
  match s with
  | [] => []
  | c :: s' =>
      let r := rstrip s' in
      if is_space c && bool_decide (r = []) then [] else c :: r
  end.

(** [s.strip()] *)
Definition strip (s : text) : text := rstrip (lstrip s).

Definition starts_with_blank (s : text) : bool :=
  match s with c :: _ => is_blank c | [] => false end.

(** [re.sub(r" {2,}", " ", s)]: of each run of blanks the last one
    is kept. *)
Fixpoint sub_blank_runs (s : text) : text :=
  match s with
  | [] => []
  | c :: s' =>
      if is_blank c && starts_with_blank s'
      then sub_blank_runs s'
      else c :: sub_blank_runs s'
  end.

(** [s.replace(a, b)] for single characters [a] and [b]. *)
Definition replace_char (a b : N) (s : text) : text :=
  (λ c, if (c =? a)%N then b else c) <$> s.

Section clean.

(** [str.lower] follows the Unicode character database, which is no
    part of the sources: it is a parameter here. *)
Variable str_lower : text → text.

Definition clean_column_name (column_name : text) : text :=
  let column_name := str_lower column_name in
  let column_name := sub_non_alnum column_name in
  let column_name := strip column_name in
  let column_name := sub_blank_runs column_name in
  let column_name := replace_char 32 95 column_name in
  column_name.

End clean.

(** What is used of [str.lower]: its result has no ASCII capital, and
    it leaves a text of small ASCII letters, digits and underscores as
    it is. *)
Record lowers (str_lower : text → text) : Prop := {
  lower_no_capital : ∀ s c, c ∈ str_lower s → is_upper c = false;
  lower_plain :
    ∀ s, Forall (λ c, is_word c || is_underscore c = true) s →
         str_lower s = s;
}.

(** The language of [^[a-z0-9]+(_[a-z0-9]+)*$]. *)
Inductive word : text → Prop :=
| word_last c : is_word c = true → word [c]
| word_more c w : is_word c = true → word w → word (c :: w).

Inductive canonical : text → Prop :=
| canonical_word w : word w → canonical w
| canonical_sep w s : word w → canonical s → canonical (w ++ 95%N :: s).

(** The lowering of one code point below 256 (see [Text.lower_char]),
    of the Kelvin sign U+212A and of the capital I with a dot U+0130;
    every other code point is left as it is, which [str.lower] does
    not do. *)
Definition lower_point (c : N) : text :=
  if is_upper c || (in_range 192 222 c && negb (c =? 215)%N) then [(c + 32)%N]
  else if (c =? 8490)%N then [107%N]
  else if (c =? 304)%N then [105%N; 775%N]
  else [c].

(** A lowering to try the properties on. *)
Definition sample_lower (s : text) : text := flat_map lower_point s.

(** A text with every code point from 256 on replaced by [#]: the five
    steps treat those code points like any other character outside
    [[a-zA-Z0-9]]. *)
Definition squash (c : N) : ascii :=
  if (c <? 256)%N then ascii_of_N c else "#"%char.

Fixpoint squash_text (s : text) : string :=
  match s with
  | [] => EmptyString
  | c :: s' => String (squash c) (squash_text s')
  end.

End Unicode.

(** ** Exceptions, results and paths *)

Module Py.
Import Text.

(** The exceptions that the code lets through.  [KeyError key] is the
    error of a lookup with the key [key] ([d[key]], [df[key]]).  The
    [KeyError] that pandas raises for [df[labels]], a list of labels,
    has a message for its argument: [None of [Index(labels)] are in the
    [columns]] when no label names a column ([KeyErrorNoneIn labels]),
    and [[missing] not in index] when some do
    ([KeyErrorNotInIndex missing], [missing] being the labels that name
    no column). *)
Inductive exn :=
| KeyError (key : string)
| KeyErrorNoneIn (labels : list string)
| KeyErrorNotInIndex (missing : list string)
| ValueError (msg : string)
| IndexError
| FileNotFoundError (path : string).

Inductive result (A : Type) :=
| Ok (a : A)
| Err (e : exn).
Global Arguments Ok {A} a.
Global Arguments Err {A} e.

(** [os.path.join(path, b)] on POSIX. *)
Definition path_join2 (path b : string) : string :=
  if startswith "/" b then b
  else if is_empty path || endswith path "/" then path +:+ b
  else path +:+ "/" +:+ b.

(** [os.path.join(a, *p)] *)
Definition path_join (a : string) (p : list string) : string :=
  fold_left path_join2 p a.

(** The directory part that [os.path.join] puts before a relative name. *)
Definition join_prefix (base : string) : string :=
  if is_empty base || endswith base "/" then base else base +:+ "/".

(** [xs[0]] *)
Definition first_item {A} (xs : list A) : result A :=
  match xs with
  | x :: _ => Ok x
  | [] => Err IndexError
  end.

(** A Python [dict] as its items in insertion order; [d[k] = v] keeps
    the position of a key that is already there. *)
Fixpoint dict_set {A} (k : string) (v : A) (d : list (string * A))
  : list (string * A) :=
  match d with
  | [] => [(k, v)]
  | (k', v') :: d' =>
      if bool_decide (k' = k) then (k, v) :: d'
      else (k', v') :: dict_set k v d'
  end.

Fixpoint dict_get {A} (k : string) (d : list (string * A)) : option A :=
  match d with
  | [] => None
  | (k', v') :: d' => if bool_decide (k' = k) then Some v' else dict_get k d'
  end.

End Py.

(** ** Data frames *)

(** The scalars a frame holds.  Equality is the sameness that
    [drop_duplicates] uses; [of_int] and [of_str] are the integers of a
    [range] and a Python [str] as cell values. *)
Class Scalar (V : Type) := {
  scalar_eq_dec :: EqDecision V;
  of_int : Z → V;
  of_str : string → V;
}.

(** The scalars of the examples: integers and text. *)
Inductive pyvalue :=
| PyInt (z : Z)
| PyStr (s : string).

Global Instance pyvalue_eq_dec : EqDecision pyvalue.
Proof. solve_decision. Defined.

Global Instance pyvalue_scalar : Scalar pyvalue :=
  {| of_int := PyInt; of_str := PyStr |}.

Module Frame.
Import Text Py.

Record DataFrame (V : Type) := {
  columns : list string;
  rows : list (list V);
}.
Global Arguments columns {V} _.
Global Arguments rows {V} _.

Section ops.
Context {V : Type} `{Scalar V}.

(** The cells of one row that stand under [label]. *)
Fixpoint pick (label : string) (cols : list string) (row : list V)
  : list V :=
  match cols, row with
  | c :: cols', v :: row' =>
      if bool_decide (c = label) then v :: pick label cols' row'
      else pick label cols' row'
  | _, _ => []
  end.

(** The first cell of a row under [label]: [row[label]] where the
    label names one column. *)
Definition cell (cols : list string) (row : list V) (label : string)
  : option V :=
  head (pick label cols row).

(** The values of the column [label], top to bottom. *)
Definition column (df : DataFrame V) (label : string) : list V :=
  omap (λ r, cell (columns df) r label) (rows df).

(** A frame is rectangular: every row has a cell for every column. *)
Definition rectangular (df : DataFrame V) : Prop :=
  Forall (λ r, length r = length (columns df)) (rows df).

(** [label] names exactly one column. *)
Definition names_one_column (df : DataFrame V) (label : string) : Prop :=
  length (filter (λ c, c = label) (columns df)) = 1%nat.

(** [duplicated(keep="first")] followed by the selection of the
    rows not marked: a row stays unless an equal row came before. *)
Fixpoint drop_duplicates_from {A} `{EqDecision A}
    (seen : list A) (l : list A) : list A :=
  match l with
  | [] => []
  | x :: l' =>
      if bool_decide (x ∈ seen) then drop_duplicates_from seen l'
      else x :: drop_duplicates_from (x :: seen) l'
  end.

(** The [KeyError] of [df[labels]] where [missing] are the labels, one
    per place in [labels], that name no column: all of them missing
    gives the message that quotes [labels], and otherwise the message
    lists the missing labels, each once ([Index.unique]), in the order
    of their first occurrences. *)
Definition not_found (labels missing : list string) : exn :=
  if bool_decide (length missing = length labels)
  then KeyErrorNoneIn labels
  else KeyErrorNotInIndex (drop_duplicates_from [] missing).

(** [df[labels]] for a list of labels: for each label in turn every
    column that carries it; [KeyError] when a label names no column. *)
Definition getitem_list (df : DataFrame V) (labels : list string)
  : result (DataFrame V) :=
  match filter (λ l, l ∉ columns df) labels with
  | [] =>
      Ok {| columns :=
              flat_map (λ l, filter (λ c, c = l) (columns df)) labels;
            rows :=
              map (λ r, flat_map (λ l, pick l (columns df) r) labels)
                  (rows df) |}
  | missing => Err (not_found labels missing)
  end.

(** [pd.DataFrame(df[label])] for one label: the one column called
    [label] as a frame (a Series when the label is unique, and the
    frame of all such columns when it is not); [KeyError(label)] when no
    column is called [label]. *)
Definition getitem (df : DataFrame V) (label : string)
  : result (DataFrame V) :=
  if bool_decide (label ∈ columns df) then getitem_list df [label]
  else Err (KeyError label).

Definition drop_duplicates (df : DataFrame V) : DataFrame V :=
  {| columns := columns df;
     rows := drop_duplicates_from [] (rows df) |}.

(** [len(df)] *)
Definition len (df : DataFrame V) : nat := length (rows df).

(** [range(lo, hi)] as cell values. *)
Definition range (lo hi : Z) : list V :=
  of_int <$> seqZ lo (hi - lo).

Definition insert_exists (column : string) : exn :=
  ValueError ("cannot insert " +:+ column +:+ ", already exists").

(** [df.insert(loc=0, column=column, value=value)] for a sequence
    [value]: refused when the label is taken ([allow_duplicates] is
    off) or the lengths differ. *)
Definition insert_front (column : string) (value : list V)
    (df : DataFrame V) : result (DataFrame V) :=
  if bool_decide (column ∈ columns df) then Err (insert_exists column)
  else if negb (bool_decide (length value = len df)) then
    Err (ValueError "Length of values does not match length of index")
  else Ok {| columns := column :: columns df;
             rows := zip_with cons value (rows df) |}.

(** The same for a scalar [value], which fills the column. *)
Definition insert_front_scalar (column : string) (value : V)
    (df : DataFrame V) : result (DataFrame V) :=
  if bool_decide (column ∈ columns df) then Err (insert_exists column)
  else Ok {| columns := column :: columns df;
             rows := map (cons value) (rows df) |}.

(** [df.rename(columns=mapping)] *)
Definition rename (mapping : list (string * string)) (df : DataFrame V)
  : DataFrame V :=
  {| columns := map (λ c, default c (dict_get c mapping)) (columns df);
     rows := rows df |}.

(** [df.head()] *)
Definition head5 (df : DataFrame V) : DataFrame V :=
  {| columns := columns df; rows := take 5 (rows df) |}.

(** [df.to_json(orient="records")], as the records themselves: one
    list of field name and value per row.  Refused when two columns
    share a label. *)
Definition to_records (df : DataFrame V)
  : result (list (list (string * V))) :=
  if bool_decide (NoDup (columns df))
  then Ok (map (λ r, zip (columns df) r) (rows df))
  else Err (ValueError
              "DataFrame columns must be unique for orient='records'.").

End ops.
End Frame.

(** ** The world: the effects on the file system and the clock *)

Module World.
Import Text Py Frame.

(** A calendar date as [datetime] holds it. *)
Record date := { year : nat; month : nat; day : nat }.

(** The ranges of the month and the day of a [datetime]. *)
Definition valid_date (d : date) : Prop :=
  (1 ≤ month d ≤ 12 ∧ 1 ≤ day d ≤ 31)%nat.

Definition digit_char (n : nat) : ascii := ascii_of_nat (48 + n).

(** A number below 100 on two digits: [%d], [%m] and [%y]. *)
Definition pad2 (n : nat) : string :=
  String (digit_char (n / 10)) (String (digit_char (n mod 10)) "").

(** [d.strftime("%d/%m/%y")] *)
Definition strftime_dmy (d : date) : string :=
  pad2 (day d) +:+ "/" +:+ pad2 (month d) +:+ "/" +:+ pad2 (year d mod 100).

(** The shape [DD/MM/YY]. *)
Definition is_ddmmyy (s : string) : bool :=
  match s with
  | String d1 (String d2 (String s1 (String m1 (String m2
      (String s2 (String y1 (String y2 EmptyString))))))) =>
      is_digit d1 && is_digit d2 && bool_decide (s1 = "/"%char)
      && is_digit m1 && is_digit m2 && bool_decide (s2 = "/"%char)
      && is_digit y1 && is_digit y2
  | _ => false
  end.

(** A JSON document, as [json.dumps] receives it. *)
Inductive json :=
| JStr (s : string)
| JList (items : list json)
| JObj (fields : list (string * json)).

(** [j[key]] and [j[k1][k2]...] on a document. *)
Definition json_get (key : string) (j : json) : option json :=
  match j with
  | JObj fields => dict_get key fields
  | _ => None
  end.

Fixpoint json_path (keys : list string) (j : json) : option json :=
  match keys with
  | [] => Some j
  | key :: keys' =>
      match json_get key j with
      | Some j' => json_path keys' j'
      | None => None
      end
  end.

Section world.
Context {V : Type}.

(** What a file holds: text written with [f.write], a frame written
    with [to_csv(path, index=False)] (the header line and the rows),
    or a document written through [json.dumps]. *)
Inductive content :=
| Text (s : string)
| Csv (df : DataFrame V)
| Json (j : json).

(** What the code does to the file system, in order. *)
Inductive event :=
| CreateFolder (path : string)
| WriteFile (path : string) (c : content).

(** [now k] is the date at the [k]-th reading of the clock from
    here on. *)
Record world := {
  log : list event;
  now : nat → date;
}.

(** A computation changes the world and returns or raises; what was
    done before an exception stays done. *)
Definition M (A : Type) : Type := world → result A * world.

Definition ret {A} (a : A) : M A := λ w, (Ok a, w).

Definition bind {A B} (m : M A) (k : A → M B) : M B :=
  λ w, match m w with
       | (Ok a, w') => k a w'
       | (Err e, w') => (Err e, w')
       end.

Definition lift {A} (r : result A) : M A := λ w, (r, w).

Definition emit (e : event) : M unit :=
  λ w, (Ok tt, {| log := log w ++ [e]; now := now w |}).

(** Modelled from the spec: [create_folder_if_not] of [.utils], which is
    not among the sources.  The spec has the directories [dimensions/]
    and [programs/<program_name>/] of the layout exist after a run, so
    the call is recorded as the creation of the folder. *)
Definition create_folder_if_not (path : string) : M unit :=
  emit (CreateFolder path).

(** [with open(path, "w") as f: f.write(text)] *)
Definition write_text (path text : string) : M unit :=
  emit (WriteFile path (Text text)).

(** [df.to_csv(path, index=False)] *)
Definition to_csv (df : DataFrame V) (path : string) : M unit :=
  emit (WriteFile path (Csv df)).

(** [datetime.today()], one reading of the clock. *)
Definition today : M date :=
  λ w, (Ok (now w 0), {| log := log w; now := λ k, now w (S k) |}).

(** [for x in xs: body(x)] *)
Fixpoint for_each {A} (xs : list A) (body : A → M unit) : M unit :=
  match xs with
  | [] => ret tt
  | x :: xs' => bind (body x) (λ _, for_each xs' body)
  end.

(** The files as they stand after a sequence of events: the last
    write to a path wins. *)
Definition apply_event (fs : gmap string content) (e : event)
  : gmap string content :=
  match e with
  | CreateFolder _ => fs
  | WriteFile p c => <[p := c]> fs
  end.

Definition files_of (evs : list event) : gmap string content :=
  fold_left apply_event evs ∅.

End world.
Global Arguments content : clear implicits.
Global Arguments event : clear implicits.
Global Arguments world : clear implicits.
Global Arguments M : clear implicits.

(** The notations [x ← m; k] and [m;; k] of stdpp. *)
Global Instance M_ret {V} : MRet (M V) := λ A, ret.
Global Instance M_bind {V} : MBind (M V) := λ A B k m, bind m k.

(** What the file system shows to the code that reads it.  [listdir]
    is [None] where there is no such directory; [read_csv] is what
    [pd.read_csv] makes of the file at a path, and [read_fields] is
    the same file as the parser tokenises it: every column label with
    the text fields below it. *)
Record Env (V : Type) := {
  listdir : string → option (list string);
  path_exists : string → bool;
  read_csv : string → result (DataFrame V);
  read_fields : string → result (list (string * list string));
}.
Global Arguments listdir {V} _ _.
Global Arguments path_exists {V} _ _.
Global Arguments read_csv {V} _ _.
Global Arguments read_fields {V} _ _.

(** [os.listdir(path)] *)
Definition os_listdir {V} (env : Env V) (path : string)
  : result (list string) :=
  match listdir env path with
  | Some names => Ok names
  | None => Err (FileNotFoundError path)
  end.

End World.

(** ** How [pd.read_csv] types a column

    pandas is a library and not part of the repository.  What the
    classifier needs of it is when a column of a parsed file has the
    dtype [int64]: the C parser tries [int64] first, on every field of
    the column with [str_to_int64] of its tokenizer, and moves on to the
    other dtypes when a field fails (a missing value is such a field).
    A file without data rows gives columns of dtype [object]. *)

Module Infer.
Import Text.

Inductive dtype := int64 | uint64 | float64 | bool_ | object_.

Inductive parsed :=
| Parsed (number : Z)
| ERROR_NO_DIGITS
| ERROR_OVERFLOW
| ERROR_INVALID_CHARS.

Definition INT64_MIN : Z := (- 2 ^ 63)%Z.
Definition INT64_MAX : Z := (2 ^ 63 - 1)%Z.

(** [isspace_ascii]: the space and TAB..CR. *)
Definition isspace_ascii (c : ascii) : bool :=
  is_blank c || in_range 9 13 c.

(** [d - '0'] *)
Definition digit_value (d : ascii) : Z := (Z.of_nat (code d) - 48)%Z.

Fixpoint skip_spaces (p : string) : string :=
  match p with
  | String c p' => if isspace_ascii c then skip_spaces p' else p
  | EmptyString => EmptyString
  end.

(** The digit loop of a negative number: the digits read so far are
    in [number]; the rest of the text is returned. *)
Fixpoint digits_neg (number : Z) (p : string) : option (Z * string) :=
  match p with
  | String d p' =>
      if is_digit d then
        let pre_min := Z.quot INT64_MIN 10 in
        let dig_pre_min := (- Z.rem INT64_MIN 10)%Z in
        if (pre_min <? number)%Z
           || ((number =? pre_min)%Z && (digit_value d <=? dig_pre_min)%Z)
        then digits_neg (number * 10 - digit_value d) p'
        else None
      else Some (number, p)
  | EmptyString => Some (number, p)
  end.

(** The digit loop of a number without a minus sign. *)
Fixpoint digits_pos (number : Z) (p : string) : option (Z * string) :=
  match p with
  | String d p' =>
      if is_digit d then
        let pre_max := Z.quot INT64_MAX 10 in
        let dig_pre_max := Z.rem INT64_MAX 10 in
        if (number <? pre_max)%Z
           || ((number =? pre_max)%Z && (digit_value d <=? dig_pre_max)%Z)
        then digits_pos (number * 10 + digit_value d) p'
        else None
      else Some (number, p)
  | EmptyString => Some (number, p)
  end.

(** [str_to_int64] from the check for a first digit on: the digits,
    the blanks after them, and the end of the field. *)
Definition parse_digits (isneg : bool) (p : string) : parsed :=
  match p with
  | String d _ =>
      if negb (is_digit d) then ERROR_NO_DIGITS
      else
        match (if isneg then digits_neg 0 p else digits_pos 0 p) with
        | None => ERROR_OVERFLOW
        | Some (number, p) =>
            match skip_spaces p with
            | EmptyString => Parsed number
            | String _ _ => ERROR_INVALID_CHARS
            end
        end
  | EmptyString => ERROR_NO_DIGITS
  end.

(** [str_to_int64(p_item, INT64_MIN, INT64_MAX, &error, '\0')]: the
    blanks before the number and its sign, then the rest. *)
Definition str_to_int64 (p_item : string) : parsed :=
  let p := skip_spaces p_item in
  let isneg := startswith "-" p in
  let p := if isneg || startswith "+" p
           then match p with String _ p' => p' | EmptyString => p end
           else p in
  parse_digits isneg p.

Definition is_parsed (r : parsed) : bool :=
  match r with Parsed _ => true | _ => false end.

(** The value of a run of decimal digits that continues [acc]. *)
Fixpoint decimal_value (acc : Z) (ds : string) : Z :=
  match ds with
  | EmptyString => acc
  | String d ds' => decimal_value (acc * 10 + digit_value d)%Z ds'
  end.

(** A field is the literal of the [int64] number [z]: blanks, an
    optional sign, one digit or more, blanks. *)
Definition int64_literal (f : string) (z : Z) : Prop :=
  ∃ ws1 sign ds ws2 : string,
    f = ws1 +:+ sign +:+ ds +:+ ws2
    ∧ sall isspace_ascii ws1 = true
    ∧ sall isspace_ascii ws2 = true
    ∧ (sign = "" ∨ sign = "+" ∨ sign = "-")
    ∧ ds ≠ ""
    ∧ sall is_digit ds = true
    ∧ z = (if bool_decide (sign = "-") then - decimal_value 0 ds
           else decimal_value 0 ds)%Z
    ∧ (INT64_MIN ≤ z ≤ INT64_MAX)%Z.

Definition starts_with_digit (s : string) : bool :=
  match s with String c _ => is_digit c | EmptyString => false end.

(** The characters a literal is made of. *)
Definition literal_char (c : ascii) : bool :=
  isspace_ascii c || is_digit c
  || bool_decide (c = "+"%char) || bool_decide (c = "-"%char).

(** Every field of the column converts to an [int64]. *)
Definition try_int64 (fields : list string) : bool :=
  forallb (λ f, is_parsed (str_to_int64 f)) fields.

Section dtype.
(** The dtype of a column that is not [int64]: the later attempts of
    the parser ([uint64], [float64], [bool], [object]), left open. *)
Variable infer_non_int : list string → dtype.

(** The dtype of a column of [pd.read_csv(path)] with these fields. *)
Definition read_csv_dtype (fields : list string) : dtype :=
  match fields with
  | [] => object_
  | _ => if try_int64 fields then int64 else infer_non_int fields
  end.
End dtype.

(** [dtype == "int"]: numpy reads ["int"] as [int64] on the 64-bit
    Linux the service runs on. *)
Definition dtype_is_int (d : dtype) : bool :=
  match d with int64 => true | _ => false end.

End Infer.

(** ** The functions of [csv_parser_utils.py] *)

Module Ingest.
Import Text Py Frame World Canon Infer.

(** One entry of the column metadata. *)
Record ColumnMeta := {
  updated_col_name : string;
  metric : bool;
  dimension : bool;
}.

(** The same entry with another [dimension] flag. *)
Definition with_dimension (flag : bool) (entry : ColumnMeta) : ColumnMeta :=
  {| updated_col_name := updated_col_name entry;
     metric := metric entry;
     dimension := flag |}.

(** The metadata with other [dimension] flags. *)
Definition reflag (flags : string → ColumnMeta → bool)
    (column_metadata : list (string * ColumnMeta))
  : list (string * ColumnMeta) :=
  map (λ '(cols, entry), (cols, with_dimension (flags cols entry) entry))
      column_metadata.

Definition nl : string := String "010"%char "".

Section ingest.
Context {V : Type} `{Scalar V}.

(** The setting [TMP_BASE_PATH] of [..settings]. *)
Variable TMP_BASE_PATH : string.

(** *** [format_df_columns] *)

Definition format_df_columns (df : DataFrame V)
    (column_metadata : list (string * ColumnMeta))
  : DataFrame V * gmap string string :=
  let user_specified_column_name :=
    map (λ '(old_column, mapping), (old_column, updated_col_name mapping))
        column_metadata in
  let df := rename user_specified_column_name df in
  let old_column_mapping : gmap string string :=
    list_to_map (map (λ col, (col, clean_column_name col)) (columns df)) in
  let df := {| columns := map clean_column_name (columns df);
               rows := rows df |} in
  (df, old_column_mapping).

(** *** [guess_metrics_and_columns] *)

Variable infer_non_int : list string → dtype.

Definition classify_column (column_type_dict : list (string * ColumnMeta))
    (column : string * dtype) : list (string * ColumnMeta) :=
  let '(name, dt) := column in
  if dtype_is_int dt then
    dict_set name {| updated_col_name := name;
                     metric := true;
                     dimension := false |} column_type_dict
  else
    dict_set name {| updated_col_name := name;
                     metric := false;
                     dimension := true |} column_type_dict.

Definition guess_metrics_and_columns (env : Env V)
    (token filename : string) : result (list (string * ColumnMeta)) :=
  let file_path := path_join TMP_BASE_PATH [token; filename] in
  match read_fields env file_path with
  | Err e => Err e
  | Ok table =>
      let df := map (λ '(name, fields),
                       (name, read_csv_dtype infer_non_int fields)) table in
      Ok (fold_left classify_column df [])
  end.

(** The entry that the classifier makes for a column of the file. *)
Definition classified (column : string * list string)
  : string * ColumnMeta :=
  let is_int := dtype_is_int (read_csv_dtype infer_non_int column.2) in
  (column.1, {| updated_col_name := column.1;
                metric := is_int;
                dimension := negb is_int |}).

(** *** [write_dimensions_to_ingest_folder] *)

Definition dimension_grammar_data (dimension : string) : string :=
  "PK,Index" +:+ nl +:+ "string,string" +:+ nl
  +:+ dimension +:+ "_id," +:+ dimension.

Definition dimension_grammar_path (base dimension : string) : string :=
  path_join base [dimension +:+ "-dimension.grammar.csv"].

Definition dimension_data_path (base dimension : string) : string :=
  path_join base [dimension +:+ "-dimension.data.csv"].

Definition write_dimension (df : DataFrame V) (dimensions_base_path : string)
    (dimension : string) : M V unit :=
  write_text (dimension_grammar_path dimensions_base_path dimension)
             (dimension_grammar_data dimension);;
  column_df ← lift (getitem df dimension);
  let column_df := drop_duplicates column_df in
  column_df ← lift (insert_front (dimension +:+ "_id")
                      (range 1 (Z.of_nat (len column_df) + 1))
                      column_df);
  to_csv column_df (dimension_data_path dimensions_base_path dimension).

Definition write_dimensions_to_ingest_folder (df : DataFrame V)
    (dimensions : list string) (ingest_folder_path : string) : M V unit :=
  let dimensions_base_path := path_join ingest_folder_path ["dimensions"] in
  create_folder_if_not dimensions_base_path;;
  for_each dimensions (write_dimension df dimensions_base_path).

(** The distinct values of a column, in the order of their first
    occurrences. *)
Definition distinct_values (df : DataFrame V) (dimension : string)
  : list V :=
  drop_duplicates_from [] (column df dimension).

(** The frame that ends up in the data file of a dimension. *)
Definition dimension_table (df : DataFrame V) (dimension : string)
  : DataFrame V :=
  let values := distinct_values df dimension in
  {| columns := [dimension +:+ "_id"; dimension];
     rows := zip_with (λ i v, [of_int i; v])
               (seqZ 1 (Z.of_nat (length values))) values |}.

(** What the loop does for one dimension. *)
Definition dimension_events (df : DataFrame V) (base dimension : string)
  : list (event V) :=
  [ WriteFile (dimension_grammar_path base dimension)
      (Text (dimension_grammar_data dimension));
    WriteFile (dimension_data_path base dimension)
      (Csv (dimension_table df dimension)) ].

(** *** [write_events_to_ingest_folder] *)

Definition event_grammar_data (dimensions : list string) (metric : string)
  : string :=
  ("," +:+ join "," dimensions +:+ "," +:+ nl)
  +:+ ("," +:+ join "," dimensions +:+ "," +:+ nl)
  +:+ ("date," +:+ repeat_str "string," (length dimensions)
       +:+ "integer" +:+ nl)
  +:+ ("date," +:+ join "," dimensions +:+ "," +:+ metric +:+ nl)
  +:+ ("timeDimension," +:+ repeat_str "dimension," (length dimensions)
       +:+ "metric" +:+ nl).

Definition event_grammar_path (base metric : string) : string :=
  path_join base [metric +:+ "-event.grammar.csv"].

Definition event_data_path (base metric : string) : string :=
  path_join base [metric +:+ "-event.data.csv"].

Definition write_event (df : DataFrame V) (dimensions : list string)
    (events_base_path : string) (metric : string) : M V unit :=
  write_text (event_grammar_path events_base_path metric)
             (event_grammar_data dimensions metric);;
  let headers := dimensions ++ [metric] in
  event_df ← lift (getitem_list df headers);
  d ← today;
  event_df ← lift (insert_front_scalar "date"
                     (of_str (strftime_dmy d)) event_df);
  to_csv event_df (event_data_path events_base_path metric).

Definition write_events_to_ingest_folder (df : DataFrame V)
    (dimensions metrics : list string) (program_name : string)
    (ingest_folder_path : string) : M V unit :=
  let events_base_path :=
    path_join ingest_folder_path ["programs"; program_name] in
  create_folder_if_not events_base_path;;
  for_each metrics (write_event df dimensions events_base_path).

(** The frame that ends up in the data file of a metric. *)
Definition event_table (df : DataFrame V) (dimensions : list string)
    (metric date : string) : DataFrame V :=
  {| columns := "date" :: dimensions ++ [metric];
     rows := map (λ r, of_str date
                       :: flat_map (λ l, pick l (columns df) r)
                            (dimensions ++ [metric]))
                 (rows df) |}.

(** What the loop does for one metric on the date [d]. *)
Definition event_events (df : DataFrame V) (dimensions : list string)
    (base metric : string) (d : date) : list (event V) :=
  [ WriteFile (event_grammar_path base metric)
      (Text (event_grammar_data dimensions metric));
    WriteFile (event_data_path base metric)
      (Csv (event_table df dimensions metric (strftime_dmy d))) ].

(** What the loop over the metrics does: the [k]-th metric is dated
    by the [k]-th reading of the clock. *)
Fixpoint events_from (df : DataFrame V) (dimensions : list string)
    (base : string) (now : nat → date) (metrics : list string)
  : list (event V) :=
  match metrics with
  | [] => []
  | metric :: metrics' =>
      event_events df dimensions base metric (now 0%nat)
      ++ events_from df dimensions base (λ k, now (S k)) metrics'
  end.

(** *** [write_config_to_ingest_folder] *)

Definition config_template (program_name program_description : string)
  : json :=
  JObj [
    ("globals", JObj [("onlyCreateWhitelisted", JStr "true")]);
    ("dimensions", JObj [
       ("namespace", JStr "dimensions");
       ("fileNameFormat",
          JStr "${dimensionName}.${index}.dimensions.data.csv");
       ("input", JObj [("files", JStr "./ingest/dimensions")])]);
    ("programs", JList [
       JObj [
         ("name", JStr program_name);
         ("namespace", JStr program_name);
         ("description", JStr program_description);
         ("shouldIngestToDB", JStr "true");
         ("input", JObj [
            ("files", JStr ("./ingest/programs/" +:+ program_name))]);
         ("./output", JObj [
            ("location", JStr ("./output/programs/" +:+ program_name))]);
         ("dimensions", JObj [
            ("whitelisted", JList []);
            ("blacklisted", JList [])])]])].

Definition config_path (ingest_folder_path : string) : string :=
  path_join ingest_folder_path ["config.json"].

Definition write_config_to_ingest_folder
    (program_name program_description ingest_folder_path : string)
  : M V unit :=
  let config_json := Json (config_template program_name program_description) in
  emit (WriteFile (config_path ingest_folder_path) config_json).

(** *** [generate_ingest_files] *)

(** [column_mapping[key]] *)
Definition mapping_item (column_mapping : gmap string string) (key : string)
  : result string :=
  match column_mapping !! key with
  | Some name => Ok name
  | None => Err (KeyError key)
  end.

(** The loop that sorts the columns into metrics and dimensions.  An
    entry of the metadata is visited with its key, so
    [column_metadata[cols]] is the entry itself. *)
Fixpoint split_columns (column_metadata : list (string * ColumnMeta))
    (column_mapping : gmap string string)
    (metrics dimensions : list string)
  : result (list string * list string) :=
  match column_metadata with
  | [] => Ok (metrics, dimensions)
  | (cols, entry) :: rest =>
      let updated_col_name := updated_col_name entry in
      if metric entry then
        match mapping_item column_mapping updated_col_name with
        | Err e => Err e
        | Ok name =>
            split_columns rest column_mapping (metrics ++ [name]) dimensions
        end
      else
        match mapping_item column_mapping updated_col_name with
        | Err e => Err e
        | Ok name =>
            split_columns rest column_mapping metrics (dimensions ++ [name])
        end
  end.

Definition generate_ingest_files (env : Env V) (token : string)
    (column_metadata : list (string * ColumnMeta))
    (program_name program_desc : string)
  : M V (list (string * list string)) :=
  let folder_path := path_join TMP_BASE_PATH [token] in
  names ← lift (os_listdir env folder_path);
  file ← lift (first_item (filter (λ f, endswith f ".csv") names));
  let file_path := path_join folder_path [file] in
  df ← lift (read_csv env file_path);
  let '(df, column_mapping) := format_df_columns df column_metadata in
  '(metrics, dimensions) ←
    lift (split_columns column_metadata column_mapping [] []);
  let ingest_folder_path := path_join folder_path ["ingest"] in
  write_dimensions_to_ingest_folder df dimensions ingest_folder_path;;
  write_events_to_ingest_folder df dimensions metrics program_name
    ingest_folder_path;;
  write_config_to_ingest_folder program_name program_desc
    ingest_folder_path;;
  ret [("dimension", dimensions); ("metrics", metrics)].

(** *** [get_ingest_folder_path] and [fetch_file_content] *)

Definition program_folder_path (token : string) : string :=
  path_join TMP_BASE_PATH [token; "ingest/programs"].

Definition get_ingest_folder_path (env : Env V) (token : string)
  : result string :=
  match os_listdir env (program_folder_path token) with
  | Err e => Err e
  | Ok names =>
      match first_item names with
      | Err e => Err e
      | Ok program_name =>
          Ok (path_join (program_folder_path token) [program_name])
      end
  end.

Definition is_event_file (filename : string) : bool :=
  endswith filename "event.data.csv"
  || endswith filename "event.grammar.csv".

Definition is_dimension_file (filename : string) : bool :=
  endswith filename "dimension.data.csv"
  || endswith filename "dimension.grammar.csv".

(** The rest of [fetch_file_content] once [file_path] is set. *)
Definition fetch_at (env : Env V) (file_path : string)
  : result (option (list (list (string * V)))) :=
  if negb (path_exists env file_path) then Ok None
  else
    match read_csv env file_path with
    | Err e => Err e
    | Ok df =>
        match to_records (head5 df) with
        | Err e => Err e
        | Ok json_response => Ok (Some json_response)
        end
    end.

Definition fetch_file_content (env : Env V) (token filename : string)
  : result (option (list (list (string * V)))) :=
  if is_event_file filename then
    match get_ingest_folder_path env token with
    | Err e => Err e
    | Ok folder => fetch_at env (path_join folder [filename])
    end
  else if is_dimension_file filename then
    fetch_at env
      (path_join TMP_BASE_PATH [token; "ingest"; "dimensions"; filename])
  else Ok None.

End ingest.
End Ingest.

(** ** The words of the specification *)

Module SpecWords.
Import Text.

(** Follows the words of the specification: a value "parses as an
    integer", and is "representable as an integer without loss", when
    it is a run of digits with an optional minus sign before it and an
    optional [.0] after it. *)
Definition spec_parses_as_integer (value : string) : bool :=
  let value := match value with
               | String "-" rest => rest
               | _ => value
               end in
  let digits := if endswith value ".0"
                then String.substring 0 (String.length value - 2) value
                else value in
  negb (is_empty digits) && sall is_digit digits.

End SpecWords.

(** ** Tables, clocks and directories to run the code on *)

Module Examples.
Import Text Py Frame World Infer Ingest.

(** The table of the scenario of the specification. *)
Definition scores : DataFrame pyvalue :=
  {| columns := ["name"; "score"];
     rows := [ [PyStr "Ada"; PyInt 10];
               [PyStr "Grace"; PyInt 10];
               [PyStr "Ada"; PyInt 7] ] |}.

(** A table with two metrics. *)
Definition tallies : DataFrame pyvalue :=
  {| columns := ["name"; "score"; "bonus"];
     rows := [ [PyStr "Ada"; PyInt 10; PyInt 1];
               [PyStr "Grace"; PyInt 10; PyInt 0] ] |}.

(** A table one of whose columns is called [date]. *)
Definition dated_scores : DataFrame pyvalue :=
  {| columns := ["date"; "score"];
     rows := [ [PyStr "2024-01-05"; PyInt 10];
               [PyStr "2024-01-06"; PyInt 7] ] |}.

Definition new_years_eve : date := {| year := 2024; month := 12; day := 31 |}.
Definition new_years_day : date := {| year := 2025; month := 1; day := 1 |}.

(** A world with nothing written, at a fixed date. *)
Definition still_world (d : date) : world pyvalue :=
  {| log := []; now := λ _, d |}.

(** A world with nothing written whose clock passes midnight after the
    first reading. *)
Definition midnight_world : world pyvalue :=
  {| log := [];
     now := λ k, match k with O => new_years_eve | _ => new_years_day end |}.

(** Metadata whose [dimension] flags say nothing about the routing. *)
Definition neither : list (string * ColumnMeta) :=
  [ ("name", {| updated_col_name := "Name"; metric := false;
                dimension := false |});
    ("score", {| updated_col_name := "Score"; metric := true;
                 dimension := true |}) ].

(** The dtype of the columns that are not [int64], for the examples. *)
Definition as_object (fields : list string) : dtype := object_.

(** A file system that holds one tokenised table and nothing else. *)
Definition env_of_table (table : list (string * list string)) : Env pyvalue :=
  {| listdir := λ _, None;
     path_exists := λ _, false;
     read_csv := λ path, Err (FileNotFoundError path);
     read_fields := λ _, Ok table |}.

Definition boundary_table : list (string * list string) :=
  [ ("zero", ["0"; "0"]);
    ("debit", ["-5"; "-12"; "0"]);
    ("ratio", ["1.0"; "2.0"]);
    ("name", ["Ada"; "Grace"]) ].

Definition unparsed_table : list (string * list string) :=
  [ ("big", ["9223372036854775808"]);
    ("none", []);
    ("ratio", ["1.0"; "2.0"]) ].

(** A file system in which every directory lists [programs], or does
    not exist when that is [None], and no file exists. *)
Definition env_of_programs (programs : option (list string)) : Env pyvalue :=
  {| listdir := λ _, programs;
     path_exists := λ _, false;
     read_csv := λ path, Err (FileNotFoundError path);
     read_fields := λ path, Err (FileNotFoundError path) |}.

(** The upload of the scenario: a folder with the file [in.csv]. *)
Definition scenario_env : Env pyvalue :=
  {| listdir := λ path,
       if bool_decide (path = "/tmp/t") then Some ["notes.txt"; "in.csv"]
       else None;
     path_exists := λ _, false;
     read_csv := λ path,
       if bool_decide (path = "/tmp/t/in.csv") then Ok scores
       else Err (FileNotFoundError path);
     read_fields := λ path,
       if bool_decide (path = "/tmp/t/in.csv")
       then Ok [ ("name", ["Ada"; "Grace"; "Ada"]);
                 ("score", ["10"; "10"; "7"]) ]
       else Err (FileNotFoundError path) |}.

End Examples.

(** ** Words, endings and field counts

    The notions in which the properties of the second part are
    stated. *)

Module Shape.
Import Text Canon.

Definition starts_with_alnum (s : string) : bool :=
  match s with String c _ => is_alnum c | EmptyString => false end.

(** The maximal runs of ASCII letters and digits of a text, in lower
    case and in their order. *)
Fixpoint name_words (s : string) : list string :=
  match s with
  | EmptyString => []
  | String c s' =>
      if is_alnum c then
        if starts_with_alnum s' then
          match name_words s' with
          | w :: ws => String (lower_char c) w :: ws
          | [] => [String (lower_char c) ""]
          end
        else String (lower_char c) "" :: name_words s'
      else name_words s'
  end.

(** The text after the lowering and the first substitution of
    [clean_column_name]. *)
Definition blanked (s : string) : string := sub_non_alnum (lower s).

(** What the last three steps of [clean_column_name] make of a text
    that follows a word character. *)
Definition tail_name (t : string) : string :=
  replace_char " " "_" (sub_blank_runs (rstrip t)).



(** Two lists differ at a place that both have. *)
Fixpoint mismatch (l1 l2 : list ascii) : bool :=
  match l1, l2 with
  | x :: l1', y :: l2' => negb (bool_decide (x = y)) || mismatch l1' l2'
  | _, _ => false
  end.

(** Two endings of which neither is an ending of the other. *)
Definition endings_clash (s1 s2 : string) : bool :=
  mismatch (rev (chars s1)) (rev (chars s2)).

(** [path.split("/")]: the components of a path. *)
Fixpoint components (path : string) : list string :=
  match path with
  | EmptyString => [""]
  | String c path' =>
      if bool_decide (c = "/"%char) then "" :: components path'
      else
        match components path' with
        | name :: names => String c name :: names
        | [] => [String c ""]
        end
  end.

Definition not_slash (c : ascii) : bool := negb (bool_decide (c = "/"%char)).

(** [path] lies below the folder [folder], as far as the text of the
    path tells: it is [folder], a slash and a remainder none of whose
    components is [..], so that no step of the path leads up again. *)
Definition below (folder path : string) : Prop :=
  ∃ rest, path = folder +:+ "/" +:+ rest ∧ ".." ∉ components rest.

End Shape.

(** ** A whole run, as one list of events *)

Module Run.
Import Text Canon Py Frame World Infer Ingest Shape.

(** The name the user gave to the column [c], or [c] itself: what
    [df.rename] makes of the header [c]. *)
Definition user_name (md : list (string * ColumnMeta)) (c : string)
  : string :=
  default c (updated_col_name <$> dict_get c md).

(** The normalised name of an entry of the metadata. *)
Definition clean_name (entry : ColumnMeta) : string :=
  clean_column_name (updated_col_name entry).


(** The path that an event touches. *)
Definition event_path {V} (e : event V) : string :=
  match e with
  | CreateFolder path => path
  | WriteFile path _ => path
  end.

Section run.
Context {V : Type} `{Scalar V}.
Variable TMP_BASE_PATH : string.
Implicit Types (df : DataFrame V) (md : list (string * ColumnMeta)).

(** What the three writers of [generate_ingest_files] do to the file
    system, one after the other. *)
Definition generate_events df (dimensions metrics : list string)
    (ingest_folder_path program_name program_desc : string)
    (now : nat → date) : list (event V) :=
  let dimensions_base_path := path_join ingest_folder_path ["dimensions"] in
  let events_base_path :=
    path_join ingest_folder_path ["programs"; program_name] in
  CreateFolder dimensions_base_path
  :: concat (dimension_events df dimensions_base_path <$> dimensions)
  ++ CreateFolder events_base_path
  :: events_from df dimensions events_base_path now metrics
  ++ [WriteFile (config_path ingest_folder_path)
        (Json (config_template program_name program_desc))].

(** The conditions of a run that goes through: the upload holds a CSV
    file that parses to a rectangular table, the metadata has distinct
    keys that are columns of the table, and the cleaned headers are
    distinct and none of them is [date]. *)
Record good_upload (env : Env V) (token : string) md df0 : Prop := {
  upload_listed :
    ∃ names file,
      listdir env (path_join TMP_BASE_PATH [token]) = Some names
      ∧ head (filter (λ f, endswith f ".csv") names) = Some file
      ∧ read_csv env (path_join (path_join TMP_BASE_PATH [token]) [file])
        = Ok df0;
  upload_rectangular : rectangular df0;
  upload_keys : NoDup md.*1;
  upload_columns : ∀ cols entry, (cols, entry) ∈ md → cols ∈ columns df0;
  upload_headers : NoDup (columns (format_df_columns df0 md).1);
  upload_no_date : "date" ∉ columns (format_df_columns df0 md).1;
}.

End run.

Section guessed.
Variable infer_non_int : list string → dtype.

(** The columns that [pd.read_csv] types [int64], and the others. *)
Definition int_columns (table : list (string * list string)) : list string :=
  (filter (λ col, dtype_is_int (read_csv_dtype infer_non_int col.2) = true)
          table).*1.

Definition other_columns (table : list (string * list string))
  : list string :=
  (filter (λ col, dtype_is_int (read_csv_dtype infer_non_int col.2) = false)
          table).*1.

End guessed.
End Run.

(** ** More uploads *)

Module Uploads.
Import Ingest.

(** Metadata that renames both columns of the scenario. *)
Definition score_metadata : list (string * ColumnMeta) :=
  [ ("name", {| updated_col_name := "Player Name"; metric := false;
                dimension := true |});
    ("score", {| updated_col_name := "Score (pts)"; metric := true;
                 dimension := false |}) ].

(** Metadata with an entry for a column that the table does not have. *)
Definition city_metadata : list (string * ColumnMeta) :=
  [ ("name", {| updated_col_name := "Name"; metric := false;
                dimension := true |});
    ("city", {| updated_col_name := "City"; metric := false;
                dimension := true |}) ].

End Uploads.

(** * Properties *)

Import Text Canon Py Frame World Infer Ingest SpecWords Examples.
Import Shape Run Uploads.

(** ** Facts about characters *)

Ltac by_cases_on_char c :=
  destruct c as [[] [] [] [] [] [] [] []]; vm_compute; intuition congruence.

Lemma word_is_alnum c : is_word c = true → is_alnum c = true.
Proof. by_cases_on_char c. Qed.

Lemma word_lower c : is_word c = true → lower_char c = c.
Proof. by_cases_on_char c. Qed.

Lemma word_not_pyspace c : is_word c = true → is_pyspace c = false.
Proof. by_cases_on_char c. Qed.

Lemma word_not_blank c : is_word c = true → is_blank c = false.
Proof. by_cases_on_char c. Qed.

Lemma word_not_underscore c : is_word c = true → is_underscore c = false.
Proof. by_cases_on_char c. Qed.

Lemma lowered_alnum_is_word c :
  is_alnum (lower_char c) = true → is_word (lower_char c) = true.
Proof. by_cases_on_char c. Qed.

Lemma pyspace_not_word c : is_pyspace c = true → is_word c = false.
Proof. by_cases_on_char c. Qed.

Lemma blank_is_pyspace c : is_blank c = true → is_pyspace c = true.
Proof. by_cases_on_char c. Qed.

Lemma underscore_lower c : is_underscore c = true → lower_char c = c.
Proof. by_cases_on_char c. Qed.

Lemma underscore_not_alnum c : is_underscore c = true → is_alnum c = false.
Proof. by_cases_on_char c. Qed.

Lemma blank_not_word c : is_blank c = true → is_word c = false.
Proof. by_cases_on_char c. Qed.

(** ** Canonical names *)

Lemma sub_lower_blank_or_word s :
  sall blank_or_word (sub_non_alnum (lower s)) = true.
Proof.
  induction s as [|c s IH]; [done|].
  change (blank_or_word (if is_alnum (lower_char c) then lower_char c else " "%char)
          && sall blank_or_word (sub_non_alnum (lower s)) = true).
  rewrite IH, andb_true_r.
  unfold blank_or_word.
  destruct (is_alnum (lower_char c)) eqn:E.
  - by rewrite (lowered_alnum_is_word _ E).
  - apply orb_true_r.
Qed.

Lemma sall_cons p c s : sall p (String c s) = true ↔ p c = true ∧ sall p s = true.
Proof. cbn. apply andb_true_iff. Qed.

Lemma sall_lstrip p s : sall p s = true → sall p (lstrip s) = true.
Proof.
  induction s as [|c s IH]; [done|]. intros Hs. cbn.
  destruct (is_pyspace c); [|done]. apply IH. by apply sall_cons in Hs as [_ ?].
Qed.

Lemma sall_rstrip p s : sall p s = true → sall p (rstrip s) = true.
Proof.
  induction s as [|c s IH]; [done|]. intros [Hc Hs]%sall_cons. cbn.
  destruct (is_pyspace c && is_empty (rstrip s)); [done|].
  apply sall_cons. auto.
Qed.

Lemma rstrip_rstrip s : rstrip (rstrip s) = rstrip s.
Proof.
  induction s as [|c s IH]; [done|]. cbn.
  destruct (is_pyspace c && is_empty (rstrip s)) eqn:E; [done|].
  cbn. by rewrite IH, E.
Qed.

Lemma lstrip_head s :
  match lstrip s with
  | EmptyString => True
  | String c _ => is_pyspace c = false
  end.
Proof.
  induction s as [|c s IH]; [done|]. cbn.
  by destruct (is_pyspace c) eqn:E.
Qed.

Lemma rstrip_cons c s :
  rstrip (String c s) =
  if is_pyspace c && is_empty (rstrip s) then EmptyString
  else String c (rstrip s).
Proof. done. Qed.

Lemma sub_blank_runs_cons c s :
  sub_blank_runs (String c s) =
  if is_blank c && starts_with_blank s then sub_blank_runs s
  else String c (sub_blank_runs s).
Proof. done. Qed.

Lemma replace_char_cons a b c s :
  replace_char a b (String c s) =
  String (if bool_decide (c = a) then b else c) (replace_char a b s).
Proof. done. Qed.

Lemma canon_from_cons need c s :
  canon_from need (String c s) =
  if is_word c then canon_from false s
  else is_underscore c && negb need && canon_from true s.
Proof. done. Qed.

(** A run of blanks before a character that is no blank, or before the
    end, becomes one blank. *)
Lemma sub_blank_runs_run n s :
  starts_with_blank s = false →
  sub_blank_runs (repeat_str " " (S n) +:+ s) = String " " (sub_blank_runs s).
Proof.
  intros Hs. induction n as [|n IH].
  - change (repeat_str " " 1 +:+ s) with (String " " s).
    rewrite sub_blank_runs_cons, Hs. by rewrite andb_false_r.
  - change (repeat_str " " (S (S n)) +:+ s)
      with (String " " (repeat_str " " (S n) +:+ s)).
    by rewrite sub_blank_runs_cons, IH.
Qed.

Lemma blank_eq c : is_blank c = true ↔ c = " "%char.
Proof. unfold is_blank. apply bool_decide_eq_true. Qed.

Lemma not_blank_neq c : is_blank c = false ↔ c ≠ " "%char.
Proof. unfold is_blank. apply bool_decide_eq_false. Qed.

(** A word character stays as it is, and is accepted with whatever
    follows a word character. *)
Lemma canon_keep_word need c s :
  is_word c = true →
  canon_from need (replace_char " " "_" (String c s))
  = canon_from false (replace_char " " "_" s).
Proof.
  intros Hw. rewrite replace_char_cons.
  rewrite bool_decide_eq_false_2.
  - by rewrite canon_from_cons, Hw.
  - apply not_blank_neq. by apply word_not_blank.
Qed.

(** After a word character, a text of word characters and blanks that
    does not end in a blank is canonical once its runs of blanks are
    underscores. *)
Lemma tight_canon s :
  sall blank_or_word s = true → rstrip s = s →
  canon_from false (replace_char " " "_" (sub_blank_runs s)) = true.
Proof.
  induction s as [|c s IH]; [done|].
  intros [Hc Hs]%sall_cons Hr. rewrite rstrip_cons in Hr.
  destruct (is_pyspace c && is_empty (rstrip s)) eqn:E; [done|].
  injection Hr as Hr. specialize (IH Hs Hr).
  rewrite sub_blank_runs_cons.
  unfold blank_or_word in Hc. destruct (is_word c) eqn:Hw.
  - rewrite (word_not_blank _ Hw), andb_false_l.
    by rewrite canon_keep_word.
  - rewrite orb_false_l in Hc. rewrite Hc, andb_true_l.
    destruct s as [|d s].
    { by rewrite (blank_is_pyspace _ Hc) in E. }
    unfold starts_with_blank.
    destruct (is_blank d) eqn:Hd; [done|].
    apply sall_cons in Hs as [Hd' _]. unfold blank_or_word in Hd'.
    rewrite Hd, orb_false_r in Hd'.
    rewrite sub_blank_runs_cons, Hd, andb_false_l in IH |- *.
    rewrite canon_keep_word in IH by done.
    rewrite replace_char_cons.
    apply blank_eq in Hc as ->. rewrite bool_decide_eq_true_2 by done.
    rewrite canon_from_cons. change (is_word "_") with false. cbv iota.
    change (is_underscore "_") with true.
    rewrite canon_keep_word by done. by rewrite IH.
Qed.

Lemma clean_empty_or_canonical_bool x :
  clean_column_name x = "" ∨ is_canonical (clean_column_name x) = true.
Proof.
  unfold clean_column_name, strip.
  pose proof (sub_lower_blank_or_word x) as Hall.
  apply sall_lstrip in Hall.
  pose proof (lstrip_head (sub_non_alnum (lower x))) as Hhd.
  destruct (lstrip (sub_non_alnum (lower x))) as [|c l]; [by left|].
  right. apply sall_cons in Hall as [Hc Hl].
  unfold blank_or_word in Hc.
  destruct (is_blank c) eqn:Hb.
  { by rewrite (blank_is_pyspace _ Hb) in Hhd. }
  rewrite orb_false_r in Hc.
  rewrite rstrip_cons, Hhd, andb_false_l.
  rewrite sub_blank_runs_cons, Hb, andb_false_l.
  unfold is_canonical. rewrite canon_keep_word by done.
  apply tight_canon; [by apply sall_rstrip | apply rstrip_rstrip].
Qed.

(** *** The matcher and the grammar agree *)

Lemma word_canon_from w : word w → ∀ need, canon_from need w = true.
Proof.
  induction 1 as [c Hc|c w Hc _ IH]; intros need;
    rewrite canon_from_cons, Hc; [done | apply IH].
Qed.

Lemma word_sep_canon_from w s :
  word w → canon_from true s = true →
  ∀ need, canon_from need (w +:+ "_" +:+ s) = true.
Proof.
  intros Hw Hs. induction Hw as [c Hc|c w Hc _ IH]; intros need.
  - change (canon_from need (String c (String "_" s)) = true).
    rewrite canon_from_cons, Hc, canon_from_cons.
    change (is_word "_") with false. cbv iota.
    by change (is_underscore "_") with true.
  - change (canon_from need (String c (w +:+ "_" +:+ s)) = true).
    rewrite canon_from_cons, Hc. apply IH.
Qed.

Lemma canonical_canon_from s : canonical s → is_canonical s = true.
Proof.
  unfold is_canonical. induction 1 as [w Hw|w s Hw _ IH].
  - by apply word_canon_from.
  - by apply word_sep_canon_from.
Qed.

Lemma canonical_cons c s :
  is_word c = true → canonical s → canonical (String c s).
Proof.
  intros Hc [w Hw|w t Hw Ht].
  - apply canonical_word. by apply word_more.
  - change (canonical (String c w +:+ "_" +:+ t)).
    apply canonical_sep; [by apply word_more | done].
Qed.

Lemma canon_from_canonical s need :
  canon_from need s = true →
  if need then canonical s
  else s = "" ∨ canonical s ∨ ∃ t, s = String "_" t ∧ canonical t.
Proof.
  revert need. induction s as [|c s IH]; intros need.
  - destruct need; [done | by left].
  - rewrite canon_from_cons. destruct (is_word c) eqn:Hc.
    + intros Hs. assert (canonical (String c s)) as Hcan.
      { destruct (IH false Hs) as [-> | [Hcan | (t & -> & Ht)]].
        * apply canonical_word. by apply word_last.
        * by apply canonical_cons.
        * change (canonical (String c "" +:+ "_" +:+ t)).
          apply canonical_sep; [by apply word_last | done]. }
      destruct need; auto.
    + intros [[Hu Hn]%andb_true_iff Hs]%andb_true_iff.
      destruct need; [done|]. right; right.
      apply bool_decide_eq_true in Hu as ->.
      eexists; split; [done|]. apply (IH true Hs).
Qed.

Lemma is_canonical_spec s : is_canonical s = true ↔ canonical s.
Proof.
  split; [apply (canon_from_canonical s true) | apply canonical_canon_from].
Qed.

(** *** A canonical name is a fixed point *)

Lemma smap_cons f c s : smap f (String c s) = String (f c) (smap f s).
Proof. done. Qed.

Lemma canon_lower need s : canon_from need s = true → lower s = s.
Proof.
  revert need. induction s as [|c s IH]; intros need; [done|].
  rewrite canon_from_cons. unfold lower. rewrite smap_cons. fold (lower s).
  destruct (is_word c) eqn:Hc.
  - intros Hs. by rewrite (word_lower _ Hc), (IH _ Hs).
  - intros [[Hu _]%andb_true_iff Hs]%andb_true_iff.
    by rewrite (underscore_lower _ Hu), (IH _ Hs).
Qed.

Lemma canon_sub need s :
  canon_from need s = true → sub_non_alnum s = replace_char "_" " " s.
Proof.
  revert need. induction s as [|c s IH]; intros need; [done|].
  rewrite canon_from_cons, replace_char_cons.
  unfold sub_non_alnum. rewrite smap_cons. fold (sub_non_alnum s).
  destruct (is_word c) eqn:Hc.
  - intros Hs. rewrite (word_is_alnum _ Hc), (IH _ Hs).
    rewrite bool_decide_eq_false_2; [done|].
    apply word_not_underscore in Hc. by apply bool_decide_eq_false in Hc.
  - intros [[Hu _]%andb_true_iff Hs]%andb_true_iff.
    rewrite (underscore_not_alnum _ Hu), (IH _ Hs).
    apply bool_decide_eq_true in Hu as ->. by rewrite bool_decide_eq_true_2.
Qed.

Lemma canon_nonempty s : canon_from true s = true → is_empty s = false.
Proof. by destruct s. Qed.

Lemma is_empty_replace a b s : is_empty (replace_char a b s) = is_empty s.
Proof. by destruct s. Qed.

Lemma canon_rstrip need s :
  canon_from need s = true →
  rstrip (replace_char "_" " " s) = replace_char "_" " " s.
Proof.
  revert need. induction s as [|c s IH]; intros need; [done|].
  rewrite canon_from_cons, replace_char_cons, rstrip_cons.
  destruct (is_word c) eqn:Hc.
  - intros Hs. rewrite (IH _ Hs).
    rewrite bool_decide_eq_false_2.
    2:{ apply word_not_underscore in Hc. by apply bool_decide_eq_false in Hc. }
    by rewrite (word_not_pyspace _ Hc).
  - intros [[Hu _]%andb_true_iff Hs]%andb_true_iff.
    rewrite (IH _ Hs), is_empty_replace, (canon_nonempty _ Hs).
    by rewrite andb_false_r.
Qed.

Lemma canon_blank_runs need s :
  canon_from need s = true →
  sub_blank_runs (replace_char "_" " " s) = replace_char "_" " " s.
Proof.
  revert need. induction s as [|c s IH]; intros need; [done|].
  rewrite canon_from_cons, replace_char_cons, sub_blank_runs_cons.
  destruct (is_word c) eqn:Hc.
  - intros Hs. rewrite (IH _ Hs).
    rewrite bool_decide_eq_false_2.
    2:{ apply word_not_underscore in Hc. by apply bool_decide_eq_false in Hc. }
    by rewrite (word_not_blank _ Hc).
  - intros [[Hu _]%andb_true_iff Hs]%andb_true_iff.
    rewrite (IH _ Hs).
    destruct s as [|d s]; [done|].
    rewrite canon_from_cons in Hs. destruct (is_word d) eqn:Hd.
    2:{ cbn [negb] in Hs. by rewrite andb_false_r in Hs. }
    rewrite replace_char_cons. unfold starts_with_blank.
    rewrite (bool_decide_eq_false_2 (d = "_"%char)).
    2:{ apply word_not_underscore in Hd. by apply bool_decide_eq_false in Hd. }
    by rewrite (word_not_blank _ Hd), andb_false_r.
Qed.

Lemma canon_replace_back need s :
  canon_from need s = true →
  replace_char " " "_" (replace_char "_" " " s) = s.
Proof.
  revert need. induction s as [|c s IH]; intros need; [done|].
  rewrite canon_from_cons, !replace_char_cons.
  destruct (is_word c) eqn:Hc.
  - intros Hs. rewrite (IH _ Hs).
    rewrite (bool_decide_eq_false_2 (c = "_"%char)).
    2:{ apply word_not_underscore in Hc. by apply bool_decide_eq_false in Hc. }
    rewrite bool_decide_eq_false_2; [done|].
    apply not_blank_neq. by apply word_not_blank.
  - intros [[Hu _]%andb_true_iff Hs]%andb_true_iff.
    rewrite (IH _ Hs). apply bool_decide_eq_true in Hu as ->.
    by rewrite bool_decide_eq_true_2.
Qed.

Lemma canon_lstrip s :
  canon_from true s = true →
  lstrip (replace_char "_" " " s) = replace_char "_" " " s.
Proof.
  destruct s as [|c s]; [done|]. rewrite canon_from_cons.
  destruct (is_word c) eqn:Hc.
  2:{ cbn [negb]. by rewrite andb_false_r. }
  intros _. rewrite replace_char_cons.
  rewrite bool_decide_eq_false_2.
  2:{ apply word_not_underscore in Hc. by apply bool_decide_eq_false in Hc. }
  cbn [lstrip]. by rewrite (word_not_pyspace _ Hc).
Qed.

Lemma clean_canonical_fixed s :
  is_canonical s = true → clean_column_name s = s.
Proof.
  unfold is_canonical, clean_column_name, strip. intros Hs.
  rewrite (canon_lower _ _ Hs), (canon_sub _ _ Hs), (canon_lstrip _ Hs).
  rewrite (canon_rstrip _ _ Hs), (canon_blank_runs _ _ Hs).
  apply (canon_replace_back _ _ Hs).
Qed.

(** ** Names of texts of any code points *)

Lemma alnum_code a : Unicode.is_alnum (N_of_ascii a) = is_alnum a.
Proof. by_cases_on_char a. Qed.

Lemma upper_code a : Unicode.is_upper (N_of_ascii a) = is_upper a.
Proof. by_cases_on_char a. Qed.

Lemma word_code a : Unicode.is_word (N_of_ascii a) = is_word a.
Proof. by_cases_on_char a. Qed.

Lemma space_code a : Unicode.is_space (N_of_ascii a) = is_pyspace a.
Proof. by_cases_on_char a. Qed.

Lemma blank_code a : Unicode.is_blank (N_of_ascii a) = is_blank a.
Proof. by_cases_on_char a. Qed.

Lemma underscore_code a : Unicode.is_underscore (N_of_ascii a) = is_underscore a.
Proof. by_cases_on_char a. Qed.

Lemma squash_code a : Unicode.squash (N_of_ascii a) = a.
Proof. by_cases_on_char a. Qed.

Lemma unlowered_sub a :
  is_upper a = false →
  (if is_alnum (lower_char a) then lower_char a else " "%char)
  = (if is_alnum a then a else " "%char).
Proof. by_cases_on_char a. Qed.

Lemma codes_cons a s :
  Unicode.codes (String a s) = N_of_ascii a :: Unicode.codes s.
Proof. done. Qed.

Lemma codes_app (a b : string) :
  Unicode.codes (a +:+ b) = Unicode.codes a ++ Unicode.codes b.
Proof.
  induction a as [|c a IH]; [done|].
  change (Unicode.codes (String c (a +:+ b))
          = Unicode.codes (String c a) ++ Unicode.codes b).
  by rewrite !codes_cons, IH.
Qed.

Lemma codes_nil s : Unicode.codes s = [] ↔ s = "".
Proof. by destruct s. Qed.

Lemma squash_codes s : Unicode.squash_text (Unicode.codes s) = s.
Proof.
  induction s as [|a s IH]; [done|].
  rewrite codes_cons. cbn [Unicode.squash_text]. by rewrite squash_code, IH.
Qed.

Lemma squash_small c : (c < 256)%N → N_of_ascii (Unicode.squash c) = c.
Proof.
  intros Hc. unfold Unicode.squash.
  rewrite (proj2 (N.ltb_lt _ _) Hc). by apply N_ascii_embedding.
Qed.

(** The class of a code point and of the character that stands for it. *)
Lemma alnum_squash c : is_alnum (Unicode.squash c) = Unicode.is_alnum c.
Proof.
  destruct (N.ltb_spec c 256) as [Hc | Hc].
  - by rewrite <- alnum_code, squash_small.
  - unfold Unicode.squash. rewrite (proj2 (N.ltb_ge _ _) Hc).
    unfold Unicode.is_alnum, Unicode.is_lower, Unicode.is_upper,
      Unicode.is_digit, Unicode.in_range.
    repeat match goal with
           | |- context [(?a <=? ?b)%N] => destruct (N.leb_spec a b)
           end; try done; lia.
Qed.

Lemma upper_squash c : is_upper (Unicode.squash c) = Unicode.is_upper c.
Proof.
  destruct (N.ltb_spec c 256) as [Hc | Hc].
  - by rewrite <- upper_code, squash_small.
  - unfold Unicode.squash. rewrite (proj2 (N.ltb_ge _ _) Hc).
    unfold Unicode.is_upper, Unicode.in_range.
    repeat match goal with
           | |- context [(?a <=? ?b)%N] => destruct (N.leb_spec a b)
           end; try done; lia.
Qed.

(** *** The steps on a text and on the string that stands for it *)

Lemma sub_non_alnum_squash (v : Unicode.text) :
  Unicode.sub_non_alnum v
  = Unicode.codes (sub_non_alnum (Unicode.squash_text v)).
Proof.
  induction v as [|c v IH]; [done|].
  cbn [Unicode.squash_text]. unfold sub_non_alnum. rewrite smap_cons.
  fold (sub_non_alnum (Unicode.squash_text v)).
  rewrite codes_cons, <- IH. unfold Unicode.sub_non_alnum at 1.
  rewrite fmap_cons. f_equal. rewrite alnum_squash.
  destruct (Unicode.is_alnum c) eqn:Hc; [|done].
  symmetry. apply squash_small.
  unfold Unicode.is_alnum, Unicode.is_lower, Unicode.is_upper,
    Unicode.is_digit, Unicode.in_range in Hc.
  apply orb_true_iff in Hc as [[Hc | Hc]%orb_true_iff | Hc];
    apply andb_true_iff in Hc as [_ Hc%N.leb_le]; lia.
Qed.

Lemma lstrip_codes s :
  Unicode.lstrip (Unicode.codes s) = Unicode.codes (lstrip s).
Proof.
  induction s as [|a s IH]; [done|].
  rewrite codes_cons. cbn [Unicode.lstrip lstrip]. rewrite space_code.
  destruct (is_pyspace a); [exact IH | done].
Qed.

Lemma rstrip_codes s :
  Unicode.rstrip (Unicode.codes s) = Unicode.codes (rstrip s).
Proof.
  induction s as [|a s IH]; [done|].
  rewrite codes_cons, rstrip_cons. cbn [Unicode.rstrip].
  rewrite space_code, IH.
  assert (bool_decide (Unicode.codes (rstrip s) = []) = is_empty (rstrip s))
    as -> by by destruct (rstrip s).
  by destruct (is_pyspace a && is_empty (rstrip s)).
Qed.

Lemma sub_blank_runs_codes s :
  Unicode.sub_blank_runs (Unicode.codes s) = Unicode.codes (sub_blank_runs s).
Proof.
  induction s as [|a s IH]; [done|].
  rewrite codes_cons, sub_blank_runs_cons. cbn [Unicode.sub_blank_runs].
  rewrite blank_code, IH.
  assert (Unicode.starts_with_blank (Unicode.codes s) = starts_with_blank s)
    as ->.
  { destruct s as [|b s]; [done|]. apply blank_code. }
  by destruct (is_blank a && starts_with_blank s).
Qed.

Lemma replace_codes s :
  Unicode.replace_char 32 95 (Unicode.codes s)
  = Unicode.codes (replace_char " " "_" s).
Proof.
  induction s as [|a s IH]; [done|].
  rewrite replace_char_cons, !codes_cons. unfold Unicode.replace_char.
  rewrite fmap_cons. fold (Unicode.replace_char 32 95 (Unicode.codes s)).
  rewrite IH. f_equal.
  pose proof (blank_code a) as Hb. unfold Unicode.is_blank, is_blank in Hb.
  rewrite Hb. by case_bool_decide.
Qed.

Lemma sub_unlowered s :
  sall (λ a, negb (is_upper a)) s = true →
  sub_non_alnum (lower s) = sub_non_alnum s.
Proof.
  induction s as [|a s IH]; [done|]. intros [Ha Hs]%sall_cons.
  unfold sub_non_alnum, lower. rewrite !smap_cons.
  fold (lower s). fold (sub_non_alnum (lower s)). fold (sub_non_alnum s).
  rewrite (IH Hs), unlowered_sub; [done|]. by apply negb_true_iff.
Qed.

Lemma squash_no_capital (v : Unicode.text) :
  (∀ c, c ∈ v → Unicode.is_upper c = false) →
  sall (λ a, negb (is_upper a)) (Unicode.squash_text v) = true.
Proof.
  induction v as [|c v IH]; [done|]. intros Hv.
  cbn [Unicode.squash_text]. apply sall_cons. split.
  - rewrite upper_squash, Hv; [done | left].
  - apply IH. intros c' Hc'. apply Hv. by right.
Qed.

(** The name of a text is the name of the string that stands for its
    lowering. *)
Lemma clean_column_name_squash str_lower x :
  Unicode.lowers str_lower →
  Unicode.clean_column_name str_lower x
  = Unicode.codes (clean_column_name (Unicode.squash_text (str_lower x))).
Proof.
  intros [Hcap _]. unfold Unicode.clean_column_name, clean_column_name.
  unfold Unicode.strip, strip.
  rewrite sub_unlowered by (apply squash_no_capital, Hcap).
  rewrite sub_non_alnum_squash, lstrip_codes, rstrip_codes.
  by rewrite sub_blank_runs_codes, replace_codes.
Qed.

(** *** The shape *)

Lemma word_codes w : word w → Unicode.word (Unicode.codes w).
Proof.
  induction 1 as [c Hc | c w Hc _ IH]; rewrite codes_cons.
  - constructor. by rewrite word_code.
  - constructor; [by rewrite word_code | done].
Qed.

Lemma canonical_codes s : canonical s → Unicode.canonical (Unicode.codes s).
Proof.
  induction 1 as [w Hw | w s Hw _ IH].
  - constructor. by apply word_codes.
  - rewrite !codes_app. change (Unicode.codes "_") with [95%N].
    apply Unicode.canonical_sep; [by apply word_codes | done].
Qed.

Lemma canon_plain need s :
  canon_from need s = true →
  Forall (λ c, Unicode.is_word c || Unicode.is_underscore c = true)
         (Unicode.codes s).
Proof.
  revert need. induction s as [|a s IH]; intros need; [constructor|].
  rewrite canon_from_cons, codes_cons. intros Hs. constructor.
  - rewrite word_code, underscore_code.
    destruct (is_word a); [done|].
    by apply andb_true_iff in Hs as [[-> _]%andb_true_iff _].
  - destruct (is_word a); [by eapply IH|].
    apply andb_true_iff in Hs as [_ Hs]. by eapply IH.
Qed.

Lemma lower_lower a : lower_char (lower_char a) = lower_char a.
Proof. by_cases_on_char a. Qed.

Lemma lower_idem s : lower (lower s) = lower s.
Proof.
  unfold lower. induction s as [|a s IH]; [done|].
  by rewrite !smap_cons, lower_lower, IH.
Qed.

(** The two models agree: where [str.lower] is [Text.lower] on a text
    of code points below 256, the name of the text is the name of the
    string. *)
Lemma clean_column_name_codes str_lower s :
  Unicode.lowers str_lower →
  str_lower (Unicode.codes s) = Unicode.codes (lower s) →
  Unicode.clean_column_name str_lower (Unicode.codes s)
  = Unicode.codes (clean_column_name s).
Proof.
  intros Hlower Hs. rewrite clean_column_name_squash by done.
  rewrite Hs, squash_codes. unfold clean_column_name.
  by rewrite lower_idem.
Qed.

Section any_text.
Variable str_lower : Unicode.text → Unicode.text.
Hypothesis Hlower : Unicode.lowers str_lower.

(** Claim C5, amended.  For every text, of whatever code points,
    [clean_column_name] returns either the empty name or a name that
    matches [^[a-z0-9]+(_[a-z0-9]+)*$]; it raises nothing.  Of
    [str.lower] this uses that its result has no ASCII capital. *)
Theorem clean_column_name_shape x :
  Unicode.clean_column_name str_lower x = []
  ∨ Unicode.canonical (Unicode.clean_column_name str_lower x).
Proof.
  rewrite clean_column_name_squash by done.
  destruct (clean_empty_or_canonical_bool
              (Unicode.squash_text (str_lower x)))
    as [-> | Hc%is_canonical_spec]; [by left | right].
  by apply canonical_codes.
Qed.

(** Claim C4.  Cleaning a column name twice gives what cleaning it
    once gives, for every text, of whatever code points.  Of
    [str.lower] this uses that its result has no ASCII capital and that
    it leaves a text of small ASCII letters, digits and underscores as
    it is. *)
Theorem clean_column_name_idempotent x :
  Unicode.clean_column_name str_lower
    (Unicode.clean_column_name str_lower x)
  = Unicode.clean_column_name str_lower x.
Proof.
  rewrite (clean_column_name_squash str_lower x) by done.
  set (p := clean_column_name (Unicode.squash_text (str_lower x))).
  rewrite clean_column_name_squash by done.
  assert (str_lower (Unicode.codes p) = Unicode.codes p) as ->.
  { apply (Unicode.lower_plain _ Hlower). subst p.
    destruct (clean_empty_or_canonical_bool
                (Unicode.squash_text (str_lower x))) as [-> | Hc].
    - constructor.
    - by apply (canon_plain true). }
  rewrite squash_codes. subst p. f_equal.
  destruct (clean_empty_or_canonical_bool
              (Unicode.squash_text (str_lower x))) as [-> | Hc]; [done|].
  by apply clean_canonical_fixed.
Qed.

End any_text.


Lemma lower_point_no_capital y c :
  c ∈ Unicode.lower_point y → Unicode.is_upper c = false.
Proof.
  unfold Unicode.lower_point, Unicode.is_upper, Unicode.in_range.
  destruct (N.leb_spec 65 y), (N.leb_spec y 90), (N.leb_spec 192 y),
    (N.leb_spec y 222), (N.eqb_spec y 215), (N.eqb_spec y 8490),
    (N.eqb_spec y 304);
    cbn [andb orb negb]; rewrite ?elem_of_cons, ?elem_of_nil;
    intros Hc; destruct_or?; subst; try done; try lia;
    repeat match goal with
           | |- context [(?a <=? ?b)%N] => destruct (N.leb_spec a b)
           end; try done; lia.
Qed.

Lemma lower_point_plain c :
  Unicode.is_word c || Unicode.is_underscore c = true →
  Unicode.lower_point c = [c].
Proof.
  unfold Unicode.lower_point, Unicode.is_word, Unicode.is_underscore,
    Unicode.is_lower, Unicode.is_digit, Unicode.is_upper, Unicode.in_range.
  destruct (N.leb_spec 97 c), (N.leb_spec c 122), (N.leb_spec 48 c),
    (N.leb_spec c 57), (N.eqb_spec c 95); cbn [andb orb]; try done;
    intros _;
    destruct (N.leb_spec 65 c), (N.leb_spec c 90), (N.leb_spec 192 c),
      (N.leb_spec c 222), (N.eqb_spec c 215), (N.eqb_spec c 8490),
      (N.eqb_spec c 304); cbn [andb orb negb]; try done; lia.
Qed.

Lemma sample_lower_lowers : Unicode.lowers Unicode.sample_lower.
Proof.
  split.
  - intros s c Hc. unfold Unicode.sample_lower in Hc.
    apply list_elem_of_In, in_flat_map in Hc as (y & _ & Hc).
    by apply list_elem_of_In, lower_point_no_capital in Hc.
  - intros s Hs. unfold Unicode.sample_lower.
    induction Hs as [|c s Hc _ IH]; [done|].
    cbn [flat_map]. by rewrite IH, lower_point_plain.
Qed.

(** The Kelvin sign, the capital I with a dot and a name in ASCII:
    [K İ##Pts] is cleaned to [k_i_pts], once and twice. *)
Lemma clean_column_name_idempotent_witness :
  Unicode.clean_column_name Unicode.sample_lower
    (Unicode.clean_column_name Unicode.sample_lower
       [8490; 32; 304; 35; 35; 80; 116; 115]%N)
  = [107; 95; 105; 95; 112; 116; 115]%N.
Proof.
  rewrite (clean_column_name_idempotent Unicode.sample_lower
             sample_lower_lowers).
  by vm_compute.
Defined.

Lemma clean_column_name_shape_witness :
  Unicode.canonical [107; 95; 105; 95; 112; 116; 115]%N.
Proof.
  destruct (clean_column_name_shape Unicode.sample_lower sample_lower_lowers
              [8490; 32; 304; 35; 35; 80; 116; 115]%N) as [Hnil | Hc].
  - vm_compute in Hnil. discriminate.
  - exact Hc.
Defined.

(** ** Dropping duplicates *)

Section drop_duplicates.
Context {A : Type} `{EqDecision A}.
Implicit Types (l seen : list A).

Lemma drop_duplicates_from_cons seen x l :
  drop_duplicates_from seen (x :: l) =
  if bool_decide (x ∈ seen) then drop_duplicates_from seen l
  else x :: drop_duplicates_from (x :: seen) l.
Proof. done. Qed.

Lemma elem_of_drop_duplicates_from seen l x :
  x ∈ drop_duplicates_from seen l ↔ x ∈ l ∧ x ∉ seen.
Proof.
  revert seen. induction l as [|y l IH]; intros seen.
  - cbn. rewrite elem_of_nil. tauto.
  - rewrite drop_duplicates_from_cons. case_bool_decide as Hy.
    + rewrite IH, elem_of_cons. split; [tauto|].
      intros [[-> | ?] ?]; tauto.
    + rewrite !elem_of_cons, IH, not_elem_of_cons.
      split; [|destruct (decide (x = y)); tauto].
      intros [-> | (? & ? & ?)]; tauto.
Qed.

Lemma NoDup_drop_duplicates_from seen l :
  NoDup (drop_duplicates_from seen l).
Proof.
  revert seen. induction l as [|y l IH]; intros seen; [constructor|].
  rewrite drop_duplicates_from_cons. case_bool_decide; [done|].
  constructor; [|done].
  rewrite elem_of_drop_duplicates_from, not_elem_of_cons. tauto.
Qed.

(** The values come out in the order of their first occurrences:
    of two of them, the earlier one occurs in [l] at a place before
    which, and at which, the later one does not occur. *)
Lemma drop_duplicates_from_order seen l i j a b :
  drop_duplicates_from seen l !! i = Some a →
  drop_duplicates_from seen l !! j = Some b →
  (i < j)%nat →
  ∃ k, l !! k = Some a ∧ b ∉ take (S k) l.
Proof.
  revert seen i j. induction l as [|x l IH]; intros seen i j; [done|].
  rewrite drop_duplicates_from_cons. case_bool_decide as Hx.
  - intros Ha Hb Hij. destruct (IH _ _ _ Ha Hb Hij) as (k & Hk & Hnot).
    exists (S k). split; [done|].
    rewrite firstn_cons, not_elem_of_cons. split; [|done].
    intros ->. apply list_elem_of_lookup_2 in Hb.
    apply elem_of_drop_duplicates_from in Hb. tauto.
  - intros Ha Hb Hij. destruct j as [|j]; [lia|]. cbn in Hb.
    assert (b ≠ x) as Hbx.
    { intros ->. apply list_elem_of_lookup_2 in Hb.
      apply elem_of_drop_duplicates_from in Hb as [_ Hb].
      apply Hb. left. }
    destruct i as [|i].
    + injection Ha as <-. exists 0%nat. split; [done|].
      cbn. rewrite not_elem_of_cons, elem_of_nil. tauto.
    + cbn in Ha. destruct (IH _ _ _ Ha Hb) as (k & Hk & Hnot); [lia|].
      exists (S k). split; [done|].
      rewrite firstn_cons, not_elem_of_cons. tauto.
Qed.

End drop_duplicates.

Lemma drop_duplicates_from_fmap {A B} `{EqDecision A} `{EqDecision B}
    (f : A → B) `{!Inj (=) (=) f} (seen l : list A) :
  drop_duplicates_from (f <$> seen) (f <$> l)
  = f <$> drop_duplicates_from seen l.
Proof.
  revert seen. induction l as [|x l IH]; intros seen; [done|].
  rewrite fmap_cons, !drop_duplicates_from_cons.
  rewrite (bool_decide_ext (f x ∈ f <$> seen) (x ∈ seen)).
  2:{ rewrite list_elem_of_fmap. split; [|eauto].
      intros (y & ->%(inj f) & ?). done. }
  case_bool_decide; [apply IH|].
  rewrite fmap_cons. f_equal. apply (IH (x :: seen)).
Qed.

Lemma drop_duplicates_singletons {A} `{EqDecision A} (l : list A) :
  drop_duplicates_from [] ((λ v, [v]) <$> l)
  = (λ v, [v]) <$> drop_duplicates_from [] l.
Proof.
  apply (drop_duplicates_from_fmap (λ v, [v]) []).
Qed.

(** ** Text *)

Lemma length_app (a b : string) :
  String.length (a +:+ b) = (String.length a + String.length b)%nat.
Proof. induction a as [|c a IH]; [done|]. cbn. by rewrite <- IH. Qed.

Lemma app_suffix_neq (a b : string) : b ≠ "" → a +:+ b ≠ a.
Proof.
  intros Hb Heq. apply (f_equal String.length) in Heq.
  rewrite length_app in Heq. destruct b; [done|]. cbn in Heq. lia.
Qed.

(** ** Frames *)

Section frames.
Context {V : Type} `{Scalar V}.
Implicit Types (df : DataFrame V) (r : list V).

Lemma pick_length (label : string) (cols : list string) r :
  length r = length cols →
  length (pick label cols r) = length (filter (λ c, c = label) cols).
Proof.
  revert r. induction cols as [|c cols IH]; intros [|v r] Hlen; try done.
  injection Hlen as Hlen. cbn [pick]. rewrite filter_cons.
  case_bool_decide; case_decide; try done; cbn; by rewrite IH.
Qed.

Lemma filter_label_singleton (label : string) (cols : list string) :
  length (filter (λ c, c = label) cols) = 1%nat →
  filter (λ c, c = label) cols = [label].
Proof.
  intros Hlen.
  destruct (filter (λ c, c = label) cols) as [|c [|??]] eqn:E; try done.
  assert (c ∈ filter (λ c, c = label) cols) as Hc by (rewrite E; left).
  apply list_elem_of_filter in Hc as [-> _]. done.
Qed.

Lemma names_one_column_elem df label :
  names_one_column df label → label ∈ columns df.
Proof.
  intros Hone%filter_label_singleton.
  assert (label ∈ filter (λ c, c = label) (columns df)) as Hin
    by (rewrite Hone; left).
  by apply list_elem_of_filter in Hin as [_ ?].
Qed.

(** Where the label names one column, a row of a rectangular frame
    has exactly one cell under it. *)
Lemma pick_one df label r :
  names_one_column df label → length r = length (columns df) →
  ∃ v, pick label (columns df) r = [v] ∧ cell (columns df) r label = Some v.
Proof.
  intros Hone Hlen. unfold cell.
  pose proof (pick_length label _ _ Hlen) as Hp. rewrite Hone in Hp.
  destruct (pick label (columns df) r) as [|v [|??]]; try done.
  by exists v.
Qed.

Lemma getitem_list_ok df labels :
  Forall (λ l, l ∈ columns df) labels →
  getitem_list df labels =
  Ok {| columns := flat_map (λ l, filter (λ c, c = l) (columns df)) labels;
        rows := map (λ r, flat_map (λ l, pick l (columns df) r) labels)
                    (rows df) |}.
Proof.
  intros Hall. unfold getitem_list.
  destruct (filter _ labels) as [|l missing] eqn:E; [done|].
  assert (l ∈ filter (λ l, l ∉ columns df) labels) as Hl
    by (rewrite E; left).
  apply list_elem_of_filter in Hl as [Hl Hin].
  rewrite Forall_forall in Hall. by apply Hall in Hin.
Qed.

Lemma rows_of_one_column df label :
  rectangular df → names_one_column df label →
  map (λ r, flat_map (λ l, pick l (columns df) r) [label]) (rows df)
  = (λ v, [v]) <$> column df label.
Proof.
  unfold rectangular, column. intros Hrect Hone.
  induction Hrect as [|r rs Hr _ IH]; [done|].
  destruct (pick_one df label r Hone Hr) as (v & Hp & Hc).
  cbn. rewrite Hp, Hc, app_nil_r. cbn. f_equal. apply IH.
Qed.

Lemma getitem_one_column df label :
  rectangular df → names_one_column df label →
  getitem df label =
  Ok {| columns := [label]; rows := (λ v, [v]) <$> column df label |}.
Proof.
  intros Hrect Hone. unfold getitem.
  rewrite bool_decide_eq_true_2 by by apply names_one_column_elem.
  rewrite getitem_list_ok.
  2:{ repeat constructor. by apply names_one_column_elem. }
  rewrite rows_of_one_column by done.
  cbn [flat_map]. rewrite app_nil_r.
  by rewrite (filter_label_singleton _ _ Hone).
Qed.

Lemma column_length df label :
  rectangular df → names_one_column df label →
  length (column df label) = length (rows df).
Proof.
  unfold rectangular, column. intros Hrect Hone.
  induction Hrect as [|r rs Hr _ IH]; [done|].
  destruct (pick_one df label r Hone Hr) as (v & _ & Hc).
  cbn. rewrite Hc. cbn. by rewrite IH.
Qed.
End frames.

(** ** Running computations *)

Section run.
Context {V : Type}.

Lemma run_bind {A B} (m : M V A) (k : A → M V B) w :
  (m ≫= k) w =
  match m w with
  | (Ok a, w') => k a w'
  | (Err e, w') => (Err e, w')
  end.
Proof. done. Qed.

Lemma run_lift_ok {A B} (a : A) (k : A → M V B) w :
  (lift (Ok a) ≫= k) w = k a w.
Proof. done. Qed.

Lemma run_emit {B} (e : event V) (k : unit → M V B) w :
  (emit e ≫= k) w = k tt {| log := log w ++ [e]; now := now w |}.
Proof. done. Qed.

(** A loop whose body only appends events, and always returns. *)
Lemma for_each_appends {A} (xs : list A) (body : A → M V unit)
    (evs : A → list (event V)) w :
  (∀ x w, x ∈ xs →
     body x w = (Ok tt, {| log := log w ++ evs x; now := now w |})) →
  for_each xs body w
  = (Ok tt, {| log := log w ++ concat (evs <$> xs); now := now w |}).
Proof.
  revert w. induction xs as [|x xs IH]; intros w Hbody.
  - cbn. rewrite app_nil_r. by destruct w.
  - cbn [for_each]. unfold bind at 1. rewrite Hbody by left.
    rewrite IH by (intros; apply Hbody; by right).
    cbn. by rewrite <- app_assoc.
Qed.
End run.

(** ** The dimension files *)

Section dimensions.
Context {V : Type} `{Scalar V}.
Implicit Types (df : DataFrame V) (w : world V).

Lemma write_dimension_run df base dimension w :
  rectangular df → names_one_column df dimension →
  write_dimension df base dimension w
  = (Ok tt, {| log := log w ++ dimension_events df base dimension;
               now := now w |}).
Proof.
  intros Hrect Hone. unfold write_dimension, write_text.
  rewrite run_emit, getitem_one_column, run_lift_ok by done.
  unfold drop_duplicates, insert_front, len. cbn [columns rows].
  rewrite bool_decide_eq_false_2.
  2:{ rewrite list_elem_of_singleton. by apply app_suffix_neq. }
  rewrite !drop_duplicates_singletons.
  fold (distinct_values df dimension).
  unfold range. rewrite !length_fmap, length_seqZ.
  replace (Z.of_nat (length (distinct_values df dimension)) + 1 - 1)%Z
    with (Z.of_nat (length (distinct_values df dimension))) by lia.
  rewrite Nat2Z.id, bool_decide_eq_true_2 by done.
  cbn [negb]. rewrite run_lift_ok. unfold to_csv, emit. cbn [log now].
  rewrite <- app_assoc. cbn [app]. unfold dimension_events, dimension_table.
  do 6 f_equal. rewrite zip_with_fmap_l, zip_with_fmap_r. done.
Qed.

Lemma write_dimensions_run df dimensions ingest_folder_path w :
  rectangular df → Forall (names_one_column df) dimensions →
  write_dimensions_to_ingest_folder df dimensions ingest_folder_path w
  = (Ok tt,
     {| log := log w
               ++ CreateFolder (path_join ingest_folder_path ["dimensions"])
               :: concat (dimension_events df
                            (path_join ingest_folder_path ["dimensions"])
                          <$> dimensions);
        now := now w |}).
Proof.
  intros Hrect Hall. unfold write_dimensions_to_ingest_folder.
  unfold create_folder_if_not. rewrite run_emit.
  rewrite (for_each_appends _ _
             (dimension_events df
                (path_join ingest_folder_path ["dimensions"]))).
  - cbn [log now]. by rewrite <- app_assoc.
  - intros d w' Hd. apply write_dimension_run; [done|].
    rewrite Forall_forall in Hall. by apply Hall.
Qed.
End dimensions.

(** ** Paths *)

Lemma chars_app (a b : string) : chars (a +:+ b) = chars a ++ chars b.
Proof. induction a as [|c a IH]; [done|]. cbn. by rewrite <- IH. Qed.

Lemma chars_inj (a b : string) : chars a = chars b → a = b.
Proof.
  intros Heq. rewrite <- (string_of_list_ascii_of_string a).
  rewrite Heq. apply string_of_list_ascii_of_string.
Qed.

Lemma app_inv_tail_str (a b s : string) : a +:+ s = b +:+ s → a = b.
Proof.
  intros Heq%(f_equal chars). rewrite !chars_app in Heq.
  by apply app_inv_tail, chars_inj in Heq.
Qed.

Lemma app_assoc_str (a b c : string) : (a +:+ b) +:+ c = a +:+ b +:+ c.
Proof.
  induction a as [|x a IH]; [done|].
  change (String x ((a +:+ b) +:+ c) = String x (a +:+ b +:+ c)).
  by rewrite IH.
Qed.

(** A grammar file and a data file never have the same name. *)
Lemma grammar_data_names_differ (a b : string) :
  a +:+ "-dimension.grammar.csv" ≠ b +:+ "-dimension.data.csv".
Proof.
  intros Heq%(f_equal chars)%(f_equal (@rev ascii)).
  rewrite !chars_app, !rev_app_distr in Heq. cbn in Heq. congruence.
Qed.

Lemma startswith_slash_app (d s : string) :
  startswith "/" d = false → startswith "/" s = false →
  startswith "/" (d +:+ s) = false.
Proof. by destruct d. Qed.

Lemma path_join_relative (base name : string) :
  startswith "/" name = false →
  path_join base [name] = join_prefix base +:+ name.
Proof.
  intros Hrel. unfold path_join, join_prefix. cbn [fold_left].
  unfold path_join2. rewrite Hrel.
  destruct (is_empty base || endswith base "/"); [done|].
  by rewrite app_assoc_str.
Qed.

Lemma data_path_inj (base a b : string) :
  startswith "/" a = false → startswith "/" b = false →
  dimension_data_path base a = dimension_data_path base b → a = b.
Proof.
  intros Ha Hb. unfold dimension_data_path.
  rewrite !path_join_relative by (by apply startswith_slash_app).
  intros Heq%(inj (String.app _)). by apply app_inv_tail_str in Heq.
Qed.

Lemma grammar_data_paths_differ (base a b : string) :
  startswith "/" a = false → startswith "/" b = false →
  dimension_grammar_path base a ≠ dimension_data_path base b.
Proof.
  intros Ha Hb. unfold dimension_grammar_path, dimension_data_path.
  rewrite !path_join_relative by (by apply startswith_slash_app).
  intros Heq%(inj (String.app _)). by apply grammar_data_names_differ in Heq.
Qed.

(** ** The files after a sequence of events *)

Section files.
Context {V : Type}.
Implicit Types (evs : list (event V)) (c : content V).

Lemma files_of_snoc evs e :
  files_of (evs ++ [e]) = apply_event (files_of evs) e.
Proof. unfold files_of. by rewrite fold_left_app. Qed.

(** A file holds what was written to it, when every write to it in
    the last stretch of events wrote the same. *)
Lemma files_of_written before evs path c :
  WriteFile path c ∈ evs →
  (∀ c', WriteFile path c' ∈ evs → c' = c) →
  files_of (before ++ evs) !! path = Some c.
Proof.
  induction evs as [|e evs IH] using rev_ind; [by intros ?%elem_of_nil|].
  intros Hin Hsame. rewrite app_assoc, files_of_snoc.
  destruct e as [folder | path' c'].
  - cbn. apply IH.
    + apply elem_of_app in Hin as [?|[=]%list_elem_of_singleton]. done.
    + intros c' Hc'. apply Hsame, elem_of_app. by left.
  - cbn. destruct (decide (path' = path)) as [-> | Hne].
    + rewrite lookup_insert_eq. f_equal. apply Hsame.
      apply elem_of_app. right. left.
    + rewrite lookup_insert_ne by done. apply IH.
      * apply elem_of_app in Hin as [?|[=]%list_elem_of_singleton];
          [done | congruence].
      * intros c'' Hc''. apply Hsame, elem_of_app. by left.
Qed.
End files.

Lemma grammar_path_inj (base a b : string) :
  startswith "/" a = false → startswith "/" b = false →
  dimension_grammar_path base a = dimension_grammar_path base b → a = b.
Proof.
  intros Ha Hb. unfold dimension_grammar_path.
  rewrite !path_join_relative by (by apply startswith_slash_app).
  intros Heq%(inj (String.app _)). by apply app_inv_tail_str in Heq.
Qed.

Section dimension_files.
Context {V : Type} `{Scalar V}.
Implicit Types (df : DataFrame V) (w : world V).

Lemma elem_of_dimension_events df base dimensions e :
  e ∈ concat (dimension_events df base <$> dimensions) ↔
  ∃ d, d ∈ dimensions ∧
    (e = WriteFile (dimension_grammar_path base d)
           (Text (dimension_grammar_data d))
     ∨ e = WriteFile (dimension_data_path base d)
             (Csv (dimension_table df d))).
Proof.
  induction dimensions as [|d' ds IH].
  - cbn. rewrite elem_of_nil. split; [done|].
    by intros (d & ?%elem_of_nil & _).
  - rewrite fmap_cons, concat_cons, elem_of_app, IH.
    unfold dimension_events at 1.
    rewrite !elem_of_cons, elem_of_nil. split.
    + intros [[-> | [-> | []]] | (d & Hd & He)].
      * exists d'. split; [left | by left].
      * exists d'. split; [left | by right].
      * exists d. split; [by right | done].
    + intros (d & [-> | Hd]%elem_of_cons & He); [tauto|].
      right. eauto.
Qed.

Lemma dimension_data_file df base dimensions before d :
  d ∈ dimensions →
  Forall (λ d, startswith "/" d = false) dimensions →
  files_of (before ++ concat (dimension_events df base <$> dimensions))
    !! dimension_data_path base d
  = Some (Csv (dimension_table df d)).
Proof.
  intros Hd Hrel. rewrite Forall_forall in Hrel.
  apply files_of_written.
  - apply elem_of_dimension_events. eauto.
  - intros c' (d' & Hd' & [He | He])%elem_of_dimension_events.
    + injection He as He _.
      by apply eq_sym, grammar_data_paths_differ in He; auto.
    + injection He as He ->.
      by apply data_path_inj in He as ->; auto.
Qed.

Lemma dimension_grammar_file df base dimensions before d :
  d ∈ dimensions →
  Forall (λ d, startswith "/" d = false) dimensions →
  files_of (before ++ concat (dimension_events df base <$> dimensions))
    !! dimension_grammar_path base d
  = Some (Text (dimension_grammar_data d)).
Proof.
  intros Hd Hrel. rewrite Forall_forall in Hrel.
  apply files_of_written.
  - apply elem_of_dimension_events. eauto.
  - intros c' (d' & Hd' & [He | He])%elem_of_dimension_events.
    + injection He as He ->.
      by apply grammar_path_inj in He as ->; auto.
    + injection He as He _.
      by apply grammar_data_paths_differ in He; auto.
Qed.

(** Claim C1.  For every dimension name [d] that names one column of
    the (rectangular) table, [write_dimensions_to_ingest_folder] returns
    and writes the data file of [d]: the header [d_id, d] and one row
    per distinct value of the column, the values in the order of their
    first occurrences, each with an id, the ids being 1, 2, ..., N in
    that order.  No value comes twice, the values are those of the
    column, and of two values the earlier one occurs in the column
    before the later one does.  Where no dimension name starts with a
    slash, so that different names give different paths, the file holds
    this frame when the function is done. *)
Theorem dimension_data_distinct_values_with_ids
    df dimensions ingest_folder_path w :
  rectangular df → Forall (names_one_column df) dimensions →
  let base := path_join ingest_folder_path ["dimensions"] in
  ∃ w',
    write_dimensions_to_ingest_folder df dimensions ingest_folder_path w
    = (Ok tt, w') ∧
    ∀ d, d ∈ dimensions →
      ∃ values : list V,
        let data_file :=
          Csv {| columns := [d +:+ "_id"; d];
                 rows := zip_with (λ i v, [of_int i; v])
                           (seqZ 1 (Z.of_nat (length values))) values |} in
        WriteFile (dimension_data_path base d) data_file ∈ log w'
        ∧ (Forall (λ d, startswith "/" d = false) dimensions →
           files_of (log w') !! dimension_data_path base d = Some data_file)
        ∧ NoDup values
        ∧ (∀ v, v ∈ values ↔ v ∈ column df d)
        ∧ (∀ i j a b,
             values !! i = Some a → values !! j = Some b → (i < j)%nat →
             ∃ k, column df d !! k = Some a
                  ∧ b ∉ take (S k) (column df d)).
Proof.
  intros Hrect Hall base. eexists. split.
  { by apply write_dimensions_run. }
  intros d Hd. exists (distinct_values df d). cbn [log].
  fold base. fold (dimension_table df d).
  split; [|split; [|split; [|split]]].
  - apply elem_of_app. right. right.
    apply elem_of_dimension_events. eauto.
  - intros Hrel. rewrite (app_assoc _ [_] _ : _ ++ _ :: _ = _).
    by apply dimension_data_file.
  - apply NoDup_drop_duplicates_from.
  - intros v. unfold distinct_values.
    rewrite elem_of_drop_duplicates_from, elem_of_nil. tauto.
  - intros i j a b. apply drop_duplicates_from_order.
Qed.
End dimension_files.

Section events.
Context {V : Type} `{Scalar V}.
Implicit Types (df : DataFrame V) (w : world V) (r vs : list V).

Lemma flat_map_filter_labels df (labels : list string) :
  Forall (names_one_column df) labels →
  flat_map (λ l, filter (λ c, c = l) (columns df)) labels = labels.
Proof.
  induction 1 as [|l labels Hl _ IH]; [done|].
  cbn. by rewrite (filter_label_singleton _ _ Hl), IH.
Qed.

Lemma write_event_run df dimensions base metric w :
  Forall (names_one_column df) (dimensions ++ [metric]) →
  "date" ∉ dimensions ++ [metric] →
  write_event df dimensions base metric w
  = (Ok tt,
     {| log := log w ++ event_events df dimensions base metric (now w 0);
        now := λ k, now w (S k) |}).
Proof.
  intros Hall Hdate. unfold write_event, write_text.
  rewrite run_emit, getitem_list_ok, run_lift_ok.
  2:{ eapply Forall_impl; [done|]. apply names_one_column_elem. }
  rewrite flat_map_filter_labels by done.
  rewrite run_bind. unfold today at 1. cbn [log now].
  unfold insert_front_scalar. cbn [columns rows].
  rewrite bool_decide_eq_false_2, run_lift_ok by done.
  unfold to_csv, emit. cbn [log now].
  rewrite <- app_assoc. cbn [app].
  unfold event_events, event_table. by rewrite map_map.
Qed.

Lemma write_events_loop_run df dimensions base metrics w :
  Forall (names_one_column df) (dimensions ++ metrics) →
  "date" ∉ dimensions ++ metrics →
  for_each metrics (write_event df dimensions base) w
  = (Ok tt,
     {| log := log w ++ events_from df dimensions base (now w) metrics;
        now := λ k, now w (length metrics + k)%nat |}).
Proof.
  revert w. induction metrics as [|m ms IH]; intros w Hall Hdate.
  - cbn. rewrite app_nil_r. by destruct w.
  - cbn [for_each]. unfold bind at 1.
    apply Forall_app in Hall as [Hdims [Hm Hms]%Forall_cons].
    rewrite not_elem_of_app, not_elem_of_cons in Hdate.
    destruct Hdate as (Hd1 & Hd2 & Hd3).
    rewrite write_event_run.
    2:{ apply Forall_app. split; [done|]. by repeat constructor. }
    2:{ rewrite not_elem_of_app, not_elem_of_cons, elem_of_nil. tauto. }
    rewrite IH.
    2:{ by apply Forall_app. }
    2:{ rewrite not_elem_of_app. tauto. }
    cbn [log now events_from]. by rewrite <- app_assoc.
Qed.

Lemma events_from_lookup df dimensions base now metrics k m :
  metrics !! k = Some m →
  WriteFile (event_data_path base m)
    (Csv (event_table df dimensions m (strftime_dmy (now k))))
  ∈ events_from df dimensions base now metrics.
Proof.
  revert now k. induction metrics as [|m' ms IH]; intros now k; [done|].
  cbn [events_from]. rewrite elem_of_app. destruct k as [|k].
  - intros [= ->]. left. unfold event_events. right. left.
  - intros Hk. right. apply (IH (λ k, now (S k)) k Hk).
Qed.

(** The cells of a row under labels that each name one column. *)
Lemma picks_are_cells df (labels : list string) r :
  Forall (names_one_column df) labels →
  length r = length (columns df) →
  ∃ vs, flat_map (λ l, pick l (columns df) r) labels = vs
        ∧ Forall2 (λ l v, cell (columns df) r l = Some v) labels vs.
Proof.
  intros Hall Hlen. induction Hall as [|l labels Hl _ (vs & Hvs & Hcells)].
  - exists []. split; [done | constructor].
  - destruct (pick_one df l r Hl Hlen) as (v & Hp & Hc).
    exists (v :: vs). split; [|by constructor].
    cbn. by rewrite Hp, Hvs.
Qed.
End events.

Lemma digit_char_is_digit (k : nat) : (k < 10)%nat → is_digit (digit_char k) = true.
Proof. intros Hk. do 10 (destruct k as [|k]; [done|]). lia. Qed.

Lemma strftime_dmy_shape (d : date) :
  valid_date d → is_ddmmyy (strftime_dmy d) = true.
Proof.
  intros [Hm Hd]. unfold strftime_dmy, pad2, is_ddmmyy.
  cbv [String.app]. cbn [String.append].
  rewrite !digit_char_is_digit; [done|..].
  all: try (apply Nat.mod_upper_bound; lia).
  all: apply Nat.Div0.div_lt_upper_bound; try lia.
  pose proof (Nat.mod_upper_bound (year d) 100). lia.
Qed.

Section event_files.
Context {V : Type} `{Scalar V}.
Implicit Types (df : DataFrame V) (w : world V) (r vs : list V).

(** Claim C2, amended.  Where the dimensions and the metrics each name
    one column of the (rectangular) table and none of them is called
    [date], [write_events_to_ingest_folder] returns and writes, for the
    [k]-th metric [m], a data file with the header [date], the
    dimensions, [m], and one row per row of the table, in the order of
    the table: the date, the row's values under the dimensions in the
    given order, and its value under [m].  The date is the one the clock
    shows at its [k]-th reading, once per metric, in the form DD/MM/YY;
    it is the same in every row of that file. *)
Theorem event_data_rows
    df dimensions metrics program_name ingest_folder_path w :
  rectangular df →
  Forall (names_one_column df) (dimensions ++ metrics) →
  "date" ∉ dimensions ++ metrics →
  let base := path_join ingest_folder_path ["programs"; program_name] in
  ∃ w',
    write_events_to_ingest_folder df dimensions metrics program_name
      ingest_folder_path w = (Ok tt, w') ∧
    ∀ k m, metrics !! k = Some m →
      let date := strftime_dmy (now w k) in
      ∃ rows_out : list (list V),
        WriteFile (event_data_path base m)
          (Csv {| columns := "date" :: dimensions ++ [m];
                  rows := rows_out |}) ∈ log w'
        ∧ length rows_out = length (rows df)
        ∧ (∀ i r, rows df !! i = Some r →
             ∃ vs, rows_out !! i = Some (of_str date :: vs)
                   ∧ Forall2 (λ l v, cell (columns df) r l = Some v)
                       (dimensions ++ [m]) vs)
        ∧ (valid_date (now w k) → is_ddmmyy date = true).
Proof.
  intros Hrect Hall Hdate base.
  unfold write_events_to_ingest_folder, create_folder_if_not.
  fold base. rewrite run_emit, write_events_loop_run by done.
  eexists. split; [reflexivity|]. intros k m Hk.
  set (date := strftime_dmy (now w k)). cbn [log now].
  exists (rows (event_table df dimensions m date)).
  split; [|split; [|split]].
  - apply elem_of_app. right.
    apply (events_from_lookup df dimensions base (now w) metrics k m Hk).
  - cbn. apply length_map.
  - intros i r Hr. cbn [event_table rows].
    rewrite list_lookup_fmap, Hr. cbn.
    destruct (picks_are_cells df (dimensions ++ [m]) r) as (vs & -> & Hvs).
    + apply Forall_app in Hall as [Hdims Hms].
      apply Forall_app. split; [done|]. repeat constructor.
      rewrite Forall_forall in Hms. by eapply Hms, list_elem_of_lookup_2.
    + unfold rectangular in Hrect. rewrite Forall_forall in Hrect.
      by eapply Hrect, list_elem_of_lookup_2.
    + eauto.
  - apply strftime_dmy_shape.
Qed.
End event_files.

(** The metric [score] of the scenario, on New Year's Eve. *)
Lemma event_data_rows_witness :
  ∃ w', write_events_to_ingest_folder scores ["name"] ["score"] "p"
          "/tmp/t/ingest" (still_world new_years_eve) = (Ok tt, w')
        ∧ WriteFile "/tmp/t/ingest/programs/p/score-event.data.csv"
            (Csv {| columns := ["date"; "name"; "score"];
                    rows := [ [PyStr "31/12/24"; PyStr "Ada"; PyInt 10];
                              [PyStr "31/12/24"; PyStr "Grace"; PyInt 10];
                              [PyStr "31/12/24"; PyStr "Ada"; PyInt 7] ] |})
          ∈ log w'.
Proof.
  destruct (event_data_rows scores ["name"] ["score"] "p" "/tmp/t/ingest"
              (still_world new_years_eve))
    as (w' & Hrun & Hfiles).
  - repeat constructor.
  - repeat constructor.
  - intros Hin. repeat (apply elem_of_cons in Hin as [Hin | Hin]; [done|]).
    by apply elem_of_nil in Hin.
  - exists w'. split; [exact Hrun|].
    vm_compute in Hrun. injection Hrun as <-. cbn [log].
    right. right. left.
Defined.

(** Against claim C2 as it stands.  A table with a column called
    [date]: the grammar file is written, then the insertion of the date
    column is refused and no data file is written.  And a run over two
    metrics that passes midnight: the rows of the two data files carry
    different dates. *)
Lemma event_data_date_column_and_midnight :
  (let '(r, w') :=
     write_events_to_ingest_folder dated_scores ["date"] ["score"] "p"
       "/tmp/t/ingest" (still_world new_years_eve) in
   r = Err (ValueError "cannot insert date, already exists")
   ∧ log w' =
       [ CreateFolder "/tmp/t/ingest/programs/p";
         WriteFile "/tmp/t/ingest/programs/p/score-event.grammar.csv"
           (Text (event_grammar_data ["date"] "score")) ])
  ∧
  (let '(r, w') :=
     write_events_to_ingest_folder tallies ["name"] ["score"; "bonus"] "p"
       "/tmp/t/ingest" midnight_world in
   r = Ok tt
   ∧ ∃ g1 g2 rest1 rest2,
       log w' =
         [ CreateFolder "/tmp/t/ingest/programs/p";
           g1;
           WriteFile "/tmp/t/ingest/programs/p/score-event.data.csv"
             (Csv {| columns := ["date"; "name"; "score"];
                     rows := [PyStr "31/12/24"; PyStr "Ada"; PyInt 10]
                             :: rest1 |});
           g2;
           WriteFile "/tmp/t/ingest/programs/p/bonus-event.data.csv"
             (Csv {| columns := ["date"; "name"; "bonus"];
                     rows := [PyStr "01/01/25"; PyStr "Ada"; PyInt 1]
                             :: rest2 |}) ]).
Proof.
  split.
  - vm_compute. split; reflexivity.
  - vm_compute. split; [reflexivity|]. do 4 eexists. reflexivity.
Qed.

(** ** Sorting the columns into metrics and dimensions *)

Lemma split_columns_reflag flags md (mapping : gmap string string) ms ds :
  split_columns (reflag flags md) mapping ms ds
  = split_columns md mapping ms ds.
Proof.
  revert ms ds. induction md as [|[cols entry] md IH]; intros ms ds; [done|].
  cbn. unfold mapping_item.
  destruct (metric entry), (mapping !! updated_col_name entry);
    try done; apply IH.
Qed.

Lemma split_columns_ok md (mapping : gmap string string)
    (name : ColumnMeta → string) ms ds :
  (∀ cols entry, (cols, entry) ∈ md →
     mapping !! updated_col_name entry = Some (name entry)) →
  split_columns md mapping ms ds
  = Ok (ms ++ (name <$> filter (λ e, metric e = true) md.*2),
        ds ++ (name <$> filter (λ e, metric e = false) md.*2)).
Proof.
  revert ms ds. induction md as [|[cols entry] md IH]; intros ms ds Hname.
  - cbn. by rewrite !app_nil_r.
  - cbn [split_columns]. unfold mapping_item.
    rewrite (Hname cols entry) by left.
    rewrite fmap_cons, !filter_cons. cbn [snd].
    destruct (metric entry) eqn:Hm.
    + rewrite IH by (intros c e Hin; apply (Hname c e); by right).
      rewrite decide_True, decide_False by done.
      by rewrite fmap_cons, <- app_assoc.
    + rewrite IH by (intros c e Hin; apply (Hname c e); by right).
      rewrite decide_False, decide_True by done.
      by rewrite fmap_cons, <- app_assoc.
Qed.

Lemma format_df_columns_reflag {V} flags (df : DataFrame V) md :
  format_df_columns df (reflag flags md) = format_df_columns df md.
Proof.
  unfold format_df_columns.
  assert (map (λ '(old_column, mapping),
                 (old_column, updated_col_name mapping)) (reflag flags md)
          = map (λ '(old_column, mapping),
                   (old_column, updated_col_name mapping)) md) as ->; [|done].
  unfold reflag. rewrite map_map. apply map_ext. by intros [cols entry].
Qed.

(** The loop in closed form: it stops at the first entry whose name
    the mapping does not have, and sorts by the [metric] flag
    otherwise. *)
Lemma split_columns_find md (mapping : gmap string string) ms ds :
  let unmapped (item : string * ColumnMeta) :=
    bool_decide (mapping !! updated_col_name item.2 = None) in
  let name entry := default "" (mapping !! updated_col_name entry) in
  split_columns md mapping ms ds
  = match find unmapped md with
    | Some item => Err (KeyError (updated_col_name item.2))
    | None =>
        Ok (ms ++ (name <$> filter (λ e, metric e = true) md.*2),
            ds ++ (name <$> filter (λ e, metric e = false) md.*2))
    end.
Proof.
  intros unmapped name. revert ms ds.
  induction md as [|[cols entry] md IH]; intros ms ds.
  - cbn. by rewrite !app_nil_r.
  - cbn [split_columns find]. unfold mapping_item, unmapped at 1.
    cbn [snd].
    destruct (mapping !! updated_col_name entry) as [n|] eqn:Hn.
    + rewrite bool_decide_eq_false_2 by done.
      rewrite fmap_cons, !filter_cons. cbn [snd].
      assert (name entry = n) as Hname by (unfold name; by rewrite Hn).
      destruct (metric entry) eqn:Hm; rewrite IH;
        destruct (find unmapped md); try done.
      * rewrite decide_True, decide_False by done.
        by rewrite fmap_cons, Hname, <- app_assoc.
      * rewrite decide_False, decide_True by done.
        by rewrite fmap_cons, Hname, <- app_assoc.
    + rewrite bool_decide_eq_true_2 by done. by destruct (metric entry).
Qed.

Section routing_in_run.
Context {V : Type} `{Scalar V}.
Variable TMP_BASE_PATH : string.
Implicit Types (df : DataFrame V) (w : world V)
  (md : list (string * ColumnMeta)).

Lemma generate_ingest_files_reflag (env : Env V) token md flags
    program_name program_desc w :
  generate_ingest_files TMP_BASE_PATH env token (reflag flags md)
    program_name program_desc w
  = generate_ingest_files TMP_BASE_PATH env token md
      program_name program_desc w.
Proof.
  unfold generate_ingest_files. rewrite !run_bind.
  destruct (lift (os_listdir env _) w) as [[names|e] w1]; [|done].
  rewrite !run_bind.
  destruct (lift (first_item _) w1) as [[file|e] w2]; [|done].
  rewrite !run_bind.
  destruct (lift (read_csv env _) w2) as [[df0|e] w3]; [|done].
  rewrite format_df_columns_reflag.
  destruct (format_df_columns df0 md) as [df mapping].
  by rewrite !run_bind, split_columns_reflag.
Qed.

(** Claim C10, amended.  Once [generate_ingest_files] has found and
    read the CSV file of the token, its loop routes the entries of the
    metadata, in order, by the [metric] flag alone.  Where every entry's
    [updated_col_name] is a key of [column_mapping], the function goes
    on to the three writers with, and returns, the metrics and the
    dimensions that the [metric] flags give: the entries with the flag
    set under [metrics], every other entry, whatever its [dimension]
    flag, under [dimensions], each under the name that [column_mapping]
    has for it.  Otherwise it raises [KeyError] for the name of the
    first entry that [column_mapping] does not have, and has written
    nothing.  And the [dimension] flags are never read: the run with
    any other [dimension] flags is the same run. *)
Theorem generate_ingest_files_routes_by_metric_flag
    (env : Env V) token md program_name program_desc w names file df0 :
  listdir env (path_join TMP_BASE_PATH [token]) = Some names →
  head (filter (λ f, endswith f ".csv") names) = Some file →
  read_csv env (path_join (path_join TMP_BASE_PATH [token]) [file]) = Ok df0 →
  let df := (format_df_columns df0 md).1 in
  let column_mapping := (format_df_columns df0 md).2 in
  let unmapped (item : string * ColumnMeta) :=
    bool_decide (column_mapping !! updated_col_name item.2 = None) in
  let name entry := default "" (column_mapping !! updated_col_name entry) in
  let metrics := name <$> filter (λ e, metric e = true) md.*2 in
  let dimensions := name <$> filter (λ e, metric e = false) md.*2 in
  let ingest := path_join (path_join TMP_BASE_PATH [token]) ["ingest"] in
  (∀ flags,
     generate_ingest_files TMP_BASE_PATH env token (reflag flags md)
       program_name program_desc w
     = generate_ingest_files TMP_BASE_PATH env token md
         program_name program_desc w)
  ∧ (find unmapped md = None →
     generate_ingest_files TMP_BASE_PATH env token md
       program_name program_desc w
     = (write_dimensions_to_ingest_folder df dimensions ingest;;
        write_events_to_ingest_folder df dimensions metrics program_name
          ingest;;
        write_config_to_ingest_folder program_name program_desc ingest;;
        mret [("dimension", dimensions); ("metrics", metrics)]) w)
  ∧ (∀ item, find unmapped md = Some item →
     generate_ingest_files TMP_BASE_PATH env token md
       program_name program_desc w
     = (Err (KeyError (updated_col_name item.2)), w)).
Proof.
  intros Hls Hfile Hread df column_mapping unmapped name metrics dimensions
    ingest.
  split; [intros flags; apply generate_ingest_files_reflag|].
  assert (generate_ingest_files TMP_BASE_PATH env token md
            program_name program_desc w
          = ('(metrics, dimensions) ←
               lift (split_columns md column_mapping [] []);
             write_dimensions_to_ingest_folder df dimensions ingest;;
             write_events_to_ingest_folder df dimensions metrics program_name
               ingest;;
             write_config_to_ingest_folder program_name program_desc ingest;;
             mret [("dimension", dimensions); ("metrics", metrics)]) w)
    as ->.
  { unfold generate_ingest_files, os_listdir. rewrite Hls, run_lift_ok.
    destruct (filter _ names) as [|file' others]; [done|].
    injection Hfile as ->. cbn [first_item].
    rewrite run_lift_ok, Hread, run_lift_ok.
    subst df column_mapping. by destruct (format_df_columns df0 md). }
  rewrite (split_columns_find md column_mapping [] []). fold unmapped.
  split.
  - intros ->. by rewrite run_lift_ok.
  - intros item ->. done.
Qed.
End routing_in_run.

(** The scenario with renamed columns and with [dimension] flags that
    contradict the [metric] flags. *)
Lemma generate_ingest_files_routes_by_metric_flag_witness :
  ∃ w',
    generate_ingest_files "/tmp" scenario_env "t"
      (reflag (λ _ entry, metric entry) neither) "p" "Scores"
      (still_world new_years_eve)
    = (Ok [("dimension", ["name"]); ("metrics", ["score"])], w').
Proof.
  destruct (generate_ingest_files_routes_by_metric_flag "/tmp" scenario_env
              "t" neither "p" "Scores" (still_world new_years_eve)
              ["notes.txt"; "in.csv"] "in.csv" scores
              eq_refl eq_refl eq_refl)
    as (Hflags & Hrun & _).
  rewrite Hflags, Hrun by by vm_compute.
  eexists. by vm_compute.
Defined.

(** Against claim C10 as it stands.  The metadata has an entry for a
    column [city] that the table does not have, with the [metric] flag
    off: the entry does not come under the dimensions, the lookup of its
    name raises [KeyError] and the function returns no lists at all. *)
Lemma generate_ingest_files_entry_not_routed :
  In ("city", {| updated_col_name := "City"; metric := false;
                 dimension := true |}) city_metadata
  ∧ generate_ingest_files "/tmp" scenario_env "t" city_metadata "p" "Scores"
      (still_world new_years_eve)
    = (Err (KeyError "City"), still_world new_years_eve).
Proof. split; [right; left; reflexivity | by vm_compute]. Qed.

(** ** The manifest *)

Section manifest.
Context {V : Type}.

(** Claim C9.  [write_config_to_ingest_folder] always returns and writes
    one file, [config.json], whose document is [config_template] of
    the program name and the description, whatever was written before:
    [onlyCreateWhitelisted] is ["true"] (the text, as in the source),
    the name pattern of the dimension files is
    [${dimensionName}.${index}.dimensions.data.csv], and the list of
    programs has one program, with the given name and description and
    with empty lists of whitelisted and blacklisted dimensions. *)
Theorem config_depends_on_program_only
    (program_name program_description ingest_folder_path : string)
    (w : world V) :
  let manifest := config_template program_name program_description in
  write_config_to_ingest_folder program_name program_description
    ingest_folder_path w
  = (Ok tt,
     {| log := log w ++ [WriteFile (config_path ingest_folder_path)
                           (Json manifest)];
        now := now w |})
  ∧ files_of (log w ++ [WriteFile (config_path ingest_folder_path)
                          (Json manifest)])
      !! config_path ingest_folder_path = Some (Json manifest)
  ∧ json_path ["globals"; "onlyCreateWhitelisted"] manifest
    = Some (JStr "true")
  ∧ json_path ["dimensions"; "fileNameFormat"] manifest
    = Some (JStr "${dimensionName}.${index}.dimensions.data.csv")
  ∧ ∃ program,
      json_get "programs" manifest = Some (JList [program])
      ∧ json_get "name" program = Some (JStr program_name)
      ∧ json_get "description" program = Some (JStr program_description)
      ∧ json_path ["dimensions"; "whitelisted"] program = Some (JList [])
      ∧ json_path ["dimensions"; "blacklisted"] program = Some (JList []).
Proof.
  intros manifest. split; [done|]. split.
  { rewrite files_of_snoc. cbn. apply lookup_insert_eq. }
  split; [done|]. split; [done|].
  eexists. split; [reflexivity|]. done.
Qed.
End manifest.

(** ** The program directory *)

Section programs.
Context {V : Type} `{Scalar V}.
Variable TMP_BASE_PATH : string.

(** Claim C7, amended.  When the programs directory exists,
    [get_ingest_folder_path] returns the path of the first entry that
    [os.listdir] reports, whether or not more entries follow, and raises
    [IndexError] when there is no entry. *)
Theorem get_ingest_folder_path_first_entry (env : Env V) (token : string)
    (names : list string) :
  listdir env (program_folder_path TMP_BASE_PATH token) = Some names →
  get_ingest_folder_path TMP_BASE_PATH env token =
  match names with
  | [] => Err IndexError
  | program_name :: _ =>
      Ok (path_join (program_folder_path TMP_BASE_PATH token) [program_name])
  end.
Proof.
  intros Hls. unfold get_ingest_folder_path, os_listdir. rewrite Hls.
  by destruct names.
Qed.
End programs.

(** ** Integer literals *)

Section literals.
Local Open Scope Z_scope.

Lemma digit_value_range d : is_digit d = true → 0 ≤ digit_value d ≤ 9.
Proof.
destruct d as [[] [] [] [] [] [] [] []]; vm_compute;
  intuition congruence.
Qed.

Lemma digit_not_space d : is_digit d = true → isspace_ascii d = false.
Proof. by_cases_on_char d. Qed.

Lemma digit_not_minus d : is_digit d = true → d ≠ "-"%char.
Proof. intros Hd ->. done. Qed.

Lemma digit_not_plus d : is_digit d = true → d ≠ "+"%char.
Proof. intros Hd ->. done. Qed.

Lemma decimal_value_mono acc ds :
sall is_digit ds = true → 0 ≤ acc → acc ≤ decimal_value acc ds.
Proof.
revert acc. induction ds as [|d ds IH]; intros acc; [cbn; lia|].
intros [Hd Hds]%sall_cons Hacc. cbn [decimal_value].
pose proof (digit_value_range d Hd).
etrans; [|apply IH]; [lia | done | lia].
Qed.

Lemma pre_max_value : Z.quot INT64_MAX 10 = 922337203685477580.
Proof. reflexivity. Qed.
Lemma dig_pre_max_value : Z.rem INT64_MAX 10 = 7.
Proof. reflexivity. Qed.
Lemma pre_min_value : Z.quot INT64_MIN 10 = -922337203685477580.
Proof. reflexivity. Qed.
Lemma dig_pre_min_value : - Z.rem INT64_MIN 10 = 8.
Proof. reflexivity. Qed.
Lemma int64_max_value : INT64_MAX = 9223372036854775807.
Proof. reflexivity. Qed.
Lemma int64_min_value : INT64_MIN = -9223372036854775808.
Proof. reflexivity. Qed.

Lemma digits_pos_cons number d p :
digits_pos number (String d p) =
if is_digit d then
  if (number <? Z.quot INT64_MAX 10)
     || ((number =? Z.quot INT64_MAX 10)
         && (digit_value d <=? Z.rem INT64_MAX 10))
  then digits_pos (number * 10 + digit_value d) p
  else None
else Some (number, String d p).
Proof. done. Qed.

Lemma digits_neg_cons number d p :
digits_neg number (String d p) =
if is_digit d then
  if (Z.quot INT64_MIN 10 <? number)
     || ((number =? Z.quot INT64_MIN 10)
         && (digit_value d <=? - Z.rem INT64_MIN 10))
  then digits_neg (number * 10 - digit_value d) p
  else None
else Some (number, String d p).
Proof. done. Qed.

(** The test before a digit is taken is exactly that the number stays
  in range. *)
Lemma pos_step_in_range number v :
0 ≤ number → 0 ≤ v ≤ 9 →
(number <? Z.quot INT64_MAX 10)
|| ((number =? Z.quot INT64_MAX 10) && (v <=? Z.rem INT64_MAX 10))
= (number * 10 + v <=? INT64_MAX).
Proof.
intros Hn Hv.
rewrite pre_max_value, dig_pre_max_value, int64_max_value.
apply eq_true_iff_eq.
rewrite orb_true_iff, andb_true_iff, Z.ltb_lt, Z.eqb_eq, !Z.leb_le. lia.
Qed.

Lemma neg_step_in_range number v :
number ≤ 0 → 0 ≤ v ≤ 9 →
(Z.quot INT64_MIN 10 <? number)
|| ((number =? Z.quot INT64_MIN 10) && (v <=? - Z.rem INT64_MIN 10))
= (INT64_MIN <=? number * 10 - v).
Proof.
intros Hn Hv.
rewrite pre_min_value, dig_pre_min_value, int64_min_value.
apply eq_true_iff_eq.
rewrite orb_true_iff, andb_true_iff, Z.ltb_lt, Z.eqb_eq, !Z.leb_le. lia.
Qed.

Lemma digits_pos_literal ds rest acc :
sall is_digit ds = true → starts_with_digit rest = false →
0 ≤ acc → decimal_value acc ds ≤ INT64_MAX →
digits_pos acc (ds +:+ rest) = Some (decimal_value acc ds, rest).
Proof.
revert acc. induction ds as [|d ds IH]; intros acc Hds Hrest Hacc Hmax.
- change ("" +:+ rest) with rest. destruct rest as [|c rest]; [done|].
  rewrite digits_pos_cons. cbn in Hrest. by rewrite Hrest.
- apply sall_cons in Hds as [Hd Hds].
  change (String d ds +:+ rest) with (String d (ds +:+ rest)).
  rewrite digits_pos_cons, Hd. cbn [decimal_value] in *.
  pose proof (digit_value_range d Hd).
  rewrite pos_step_in_range by done.
  pose proof (decimal_value_mono (acc * 10 + digit_value d) ds Hds).
  rewrite (proj2 (Z.leb_le _ _)) by lia.
  apply IH; [done | done | lia | done].
Qed.

Lemma digits_neg_literal ds rest acc :
sall is_digit ds = true → starts_with_digit rest = false →
acc ≤ 0 → INT64_MIN ≤ - decimal_value (- acc) ds →
digits_neg acc (ds +:+ rest) = Some (- decimal_value (- acc) ds, rest).
Proof.
revert acc. induction ds as [|d ds IH]; intros acc Hds Hrest Hacc Hmin.
- change ("" +:+ rest) with rest. cbn [decimal_value].
  rewrite Z.opp_involutive.
  destruct rest as [|c rest]; [done|].
  rewrite digits_neg_cons. cbn in Hrest. by rewrite Hrest.
- apply sall_cons in Hds as [Hd Hds].
  change (String d ds +:+ rest) with (String d (ds +:+ rest)).
  rewrite digits_neg_cons, Hd. cbn [decimal_value] in *.
  pose proof (digit_value_range d Hd).
  rewrite neg_step_in_range by done.
  pose proof (decimal_value_mono (- acc * 10 + digit_value d) ds Hds).
  rewrite (proj2 (Z.leb_le _ _)) by lia.
  replace (- acc * 10 + digit_value d) with (- (acc * 10 - digit_value d))
    in * by lia.
  apply IH; [done | done | lia | done].
Qed.

Lemma skip_spaces_cons c p :
skip_spaces (String c p) =
if isspace_ascii c then skip_spaces p else String c p.
Proof. done. Qed.

Lemma skip_spaces_app ws p :
sall isspace_ascii ws = true → skip_spaces (ws +:+ p) = skip_spaces p.
Proof.
induction ws as [|c ws IH]; [done|]. intros [Hc Hws]%sall_cons.
change (String c ws +:+ p) with (String c (ws +:+ p)).
rewrite skip_spaces_cons, Hc. by apply IH.
Qed.

Lemma skip_spaces_all ws :
sall isspace_ascii ws = true → skip_spaces ws = "".
Proof.
induction ws as [|c ws IH]; [done|]. intros [Hc Hws]%sall_cons.
rewrite skip_spaces_cons, Hc. by apply IH.
Qed.

Lemma spaces_no_digit ws :
sall isspace_ascii ws = true → starts_with_digit ws = false.
Proof.
destruct ws as [|c ws]; [done|]. intros [Hc _]%sall_cons. cbn.
destruct (is_digit c) eqn:Hd; [|done].
by rewrite (digit_not_space _ Hd) in Hc.
Qed.

Lemma str_to_int64_unfold p_item :
str_to_int64 p_item =
let p := skip_spaces p_item in
let isneg := startswith "-" p in
parse_digits isneg
  (if isneg || startswith "+" p
   then match p with String _ p' => p' | EmptyString => p end
   else p).
Proof. done. Qed.

Lemma parse_digits_literal (isneg : bool) ds ws :
ds ≠ "" → sall is_digit ds = true → sall isspace_ascii ws = true →
let z := if isneg then - decimal_value 0 ds else decimal_value 0 ds in
INT64_MIN ≤ z ≤ INT64_MAX →
parse_digits isneg (ds +:+ ws) = Parsed z.
Proof.
intros Hne Hds Hws z Hz. destruct ds as [|d ds]; [done|].
pose proof Hds as [Hd _]%sall_cons.
change (String d ds +:+ ws) with (String d (ds +:+ ws)).
unfold parse_digits. rewrite Hd. cbn [negb].
change (String d (ds +:+ ws)) with (String d ds +:+ ws).
pose proof (decimal_value_mono 0 (String d ds) Hds).
rewrite int64_min_value, int64_max_value in Hz.
destruct isneg.
- rewrite digits_neg_literal; try done.
  + change (- 0) with 0. by rewrite skip_spaces_all.
  + by apply spaces_no_digit.
  + rewrite int64_min_value. change (- 0) with 0. subst z. lia.
- rewrite digits_pos_literal; try done.
  + by rewrite skip_spaces_all.
  + by apply spaces_no_digit.
  + rewrite int64_max_value. subst z. lia.
Qed.

Lemma literal_parses f z : int64_literal f z → str_to_int64 f = Parsed z.
Proof.
intros (ws1 & sign & ds & ws2 & -> & Hws1 & Hws2 & Hsign & Hne & Hds
        & -> & Hz).
rewrite str_to_int64_unfold, skip_spaces_app by done. cbv zeta.
destruct ds as [|d ds]; [done|].
pose proof Hds as [Hd _]%sall_cons.
assert (∀ c : ascii, c ≠ d → bool_decide (c = d) = false) as Hnot
  by (intros; by apply bool_decide_eq_false_2).
destruct Hsign as [-> | [-> | ->]].
- change ("" +:+ String d ds +:+ ws2) with (String d (ds +:+ ws2)).
  rewrite skip_spaces_cons, (digit_not_space _ Hd).
  cbn [startswith]. rewrite !andb_true_r.
  rewrite !Hnot by (intros <-; done). cbn [orb].
  by apply (parse_digits_literal false (String d ds) ws2).
- change ("+" +:+ String d ds +:+ ws2) with (String "+" (String d ds +:+ ws2)).
  rewrite skip_spaces_cons. change (isspace_ascii "+") with false. cbv iota.
  by apply (parse_digits_literal false (String d ds) ws2).
- change ("-" +:+ String d ds +:+ ws2) with (String "-" (String d ds +:+ ws2)).
  rewrite skip_spaces_cons. change (isspace_ascii "-") with false. cbv iota.
  by apply (parse_digits_literal true (String d ds) ws2).
Qed.

Lemma skip_spaces_split p :
∃ ws, p = ws +:+ skip_spaces p ∧ sall isspace_ascii ws = true.
Proof.
induction p as [|c p (ws & Hp & Hws)]; [by exists ""|].
rewrite skip_spaces_cons. destruct (isspace_ascii c) eqn:Hc.
- exists (String c ws). split.
  + change (String c p = String c (ws +:+ skip_spaces p)). by rewrite <- Hp.
  + apply sall_cons. done.
- by exists "".
Qed.

Lemma skip_spaces_empty p : skip_spaces p = "" → sall isspace_ascii p = true.
Proof.
induction p as [|c p IH]; [done|]. rewrite skip_spaces_cons.
destruct (isspace_ascii c) eqn:Hc; [|done].
intros Hp. apply sall_cons. auto.
Qed.

Lemma digits_pos_split p acc n rest :
0 ≤ acc ≤ INT64_MAX →
digits_pos acc p = Some (n, rest) →
∃ ds, p = ds +:+ rest ∧ sall is_digit ds = true
      ∧ n = decimal_value acc ds ∧ 0 ≤ n ≤ INT64_MAX
      ∧ starts_with_digit rest = false.
Proof.
revert acc. induction p as [|d p IH]; intros acc Hacc.
- intros [= <- <-]. by exists "".
- rewrite digits_pos_cons. destruct (is_digit d) eqn:Hd.
  + pose proof (digit_value_range d Hd).
    rewrite pos_step_in_range by lia.
    destruct (Z.leb_spec (acc * 10 + digit_value d) INT64_MAX); [|done].
    intros (ds & -> & Hds & -> & Hn & Hrest)%IH; [|lia].
    exists (String d ds). repeat split; try done; try lia.
    apply sall_cons. done.
  + intros [= <- <-]. exists "". cbn. by rewrite Hd.
Qed.

Lemma digits_neg_split p acc n rest :
INT64_MIN ≤ acc ≤ 0 →
digits_neg acc p = Some (n, rest) →
∃ ds, p = ds +:+ rest ∧ sall is_digit ds = true
      ∧ n = - decimal_value (- acc) ds ∧ INT64_MIN ≤ n ≤ 0
      ∧ starts_with_digit rest = false.
Proof.
revert acc. induction p as [|d p IH]; intros acc Hacc.
- intros [= <- <-]. exists "". cbn. rewrite Z.opp_involutive. done.
- rewrite digits_neg_cons. destruct (is_digit d) eqn:Hd.
  + pose proof (digit_value_range d Hd).
    rewrite neg_step_in_range by lia.
    destruct (Z.leb_spec INT64_MIN (acc * 10 - digit_value d)); [|done].
    intros (ds & -> & Hds & -> & Hn & Hrest)%IH; [|lia].
    exists (String d ds). cbn [decimal_value].
    replace (- acc * 10 + digit_value d)
      with (- (acc * 10 - digit_value d)) by lia.
    repeat split; try done; try lia.
    apply sall_cons. done.
  + intros [= <- <-]. exists "". cbn. rewrite Hd, Z.opp_involutive. done.
Qed.

Lemma parse_digits_inv (isneg : bool) p z :
parse_digits isneg p = Parsed z →
∃ ds ws, p = ds +:+ ws ∧ ds ≠ "" ∧ sall is_digit ds = true
         ∧ sall isspace_ascii ws = true
         ∧ z = (if isneg then - decimal_value 0 ds else decimal_value 0 ds)
         ∧ INT64_MIN ≤ z ≤ INT64_MAX.
Proof.
unfold parse_digits. destruct p as [|d p]; [done|].
destruct (is_digit d) eqn:Hd; [|done]. cbn [negb].
assert (∀ ds rest, String d p = ds +:+ rest →
          starts_with_digit rest = false → ds ≠ "") as Hne.
{ intros ds rest Heq Hrest ->. change ("" +:+ rest) with rest in Heq.
  subst rest. cbn in Hrest. congruence. }
pose proof int64_min_value. pose proof int64_max_value.
destruct isneg.
- destruct (digits_neg 0 (String d p)) as [[n rest]|] eqn:E; [|done].
  apply digits_neg_split in E as (ds & Heq & Hds & -> & Hn & Hrest); [|lia].
  destruct (skip_spaces rest) eqn:Hsp; [|done]. intros [= <-].
  exists ds, rest. change (- 0) with 0 in *.
  repeat split; eauto using skip_spaces_empty; lia.
- destruct (digits_pos 0 (String d p)) as [[n rest]|] eqn:E; [|done].
  apply digits_pos_split in E as (ds & Heq & Hds & -> & Hn & Hrest); [|lia].
  destruct (skip_spaces rest) eqn:Hsp; [|done]. intros [= <-].
  exists ds, rest.
  repeat split; eauto using skip_spaces_empty; lia.
Qed.

Lemma parses_literal f z : str_to_int64 f = Parsed z → int64_literal f z.
Proof.
rewrite str_to_int64_unfold. cbv zeta.
destruct (skip_spaces_split f) as (ws1 & Hf & Hws1).
destruct (skip_spaces f) as [|c p] eqn:Hp.
{ cbn. done. }
cbn [startswith]. rewrite !andb_true_r.
destruct (decide (c = "-"%char)) as [-> | Hminus].
- rewrite bool_decide_eq_true_2 by done. cbn [orb].
  intros (ds & ws2 & -> & Hne & Hds & Hws2 & -> & Hz)%parse_digits_inv.
  exists ws1, "-", ds, ws2. rewrite bool_decide_eq_true_2 by done.
  repeat split; auto; lia.
- rewrite (bool_decide_eq_false_2 ("-"%char = c)) by done. cbn [orb].
  destruct (decide (c = "+"%char)) as [-> | Hplus].
  + rewrite bool_decide_eq_true_2 by done.
    intros (ds & ws2 & -> & Hne & Hds & Hws2 & -> & Hz)%parse_digits_inv.
    exists ws1, "+", ds, ws2. rewrite bool_decide_eq_false_2 by done.
    repeat split; auto; lia.
  + rewrite (bool_decide_eq_false_2 ("+"%char = c)) by done.
    intros (ds & ws2 & Heq & Hne & Hds & Hws2 & -> & Hz)%parse_digits_inv.
    exists ws1, "", ds, ws2. rewrite bool_decide_eq_false_2 by done.
    change ("" +:+ ds +:+ ws2) with (ds +:+ ws2). rewrite <- Heq.
    repeat split; auto; lia.
Qed.

(** [str_to_int64] accepts the literals of [int64] numbers and nothing
    else. *)
Theorem str_to_int64_spec f z : str_to_int64 f = Parsed z ↔ int64_literal f z.
Proof. split; [apply parses_literal | apply literal_parses]. Qed.

End literals.

(** *** Fields that are no literals *)

Lemma sall_app p (a b : string) : sall p (a +:+ b) = sall p a && sall p b.
Proof.
  induction a as [|c a IH]; [done|].
  change (sall p (String c (a +:+ b)) = sall p (String c a) && sall p b).
  cbn [sall]. by rewrite IH, andb_assoc.
Qed.

Lemma sall_impl (p q : ascii → bool) s :
  (∀ c, p c = true → q c = true) → sall p s = true → sall q s = true.
Proof.
  intros Hpq. induction s as [|c s IH]; [done|].
  intros [Hc Hs]%sall_cons. apply sall_cons. auto.
Qed.

Lemma literal_chars f z : int64_literal f z → sall literal_char f = true.
Proof.
  intros (ws1 & sign & ds & ws2 & -> & Hws1 & Hws2 & Hsign & _ & Hds & _).
  rewrite !sall_app, !andb_true_iff. repeat split.
  - revert Hws1. apply sall_impl. unfold literal_char. by intros c ->.
  - by destruct Hsign as [-> | [-> | ->]].
  - revert Hds. apply sall_impl. unfold literal_char. intros c ->.
    by rewrite orb_true_r.
  - revert Hws2. apply sall_impl. unfold literal_char. by intros c ->.
Qed.

Lemma trailing_dot_zero_chars f :
  endswith f ".0" = true → sall literal_char f = false.
Proof.
  unfold endswith. induction f as [|c f IH]; [done|].
  cbn [endswith_go]. intros [Heq | Hf]%orb_true_iff.
  - by apply bool_decide_eq_true in Heq as ->.
  - cbn [sall]. by rewrite IH, andb_false_r.
Qed.

Lemma trailing_dot_zero_no_literal f z :
  endswith f ".0" = true → ¬ int64_literal f z.
Proof.
  intros Hf Hlit%literal_chars. by rewrite trailing_dot_zero_chars in Hlit.
Qed.

(** *** The dtype of a column *)

Lemma try_int64_spec fields :
  try_int64 fields = true ↔ ∀ f, f ∈ fields → ∃ z, int64_literal f z.
Proof.
  unfold try_int64. rewrite forallb_forall. split.
  - intros Hall f Hf%list_elem_of_In. specialize (Hall f Hf).
    destruct (str_to_int64 f) as [z| | |] eqn:E; try done.
    exists z. by apply str_to_int64_spec.
  - intros Hall f Hf%list_elem_of_In. destruct (Hall f Hf) as [z Hz].
    apply str_to_int64_spec in Hz. by rewrite Hz.
Qed.

Lemma read_csv_dtype_int64 infer_non_int fields :
  (∀ fields, infer_non_int fields ≠ int64) →
  dtype_is_int (read_csv_dtype infer_non_int fields) = true
  ↔ fields ≠ [] ∧ ∀ f, f ∈ fields → ∃ z, int64_literal f z.
Proof.
  intros Hother. rewrite <- try_int64_spec.
  unfold read_csv_dtype. destruct fields as [|f fields]; [by split; [|intros []]|].
  destruct (try_int64 (f :: fields)).
  - by split.
  - specialize (Hother (f :: fields)).
    destruct (infer_non_int (f :: fields)); by split; [|intros []].
Qed.

(** *** The classifier *)

Lemma dict_set_new {A} (k : string) (v : A) d :
  k ∉ d.*1 → dict_set k v d = d ++ [(k, v)].
Proof.
  induction d as [|[k' v'] d IH]; [done|]. cbn.
  rewrite not_elem_of_cons. intros [Hne Hk].
  rewrite bool_decide_eq_false_2 by done. by rewrite IH.
Qed.

Lemma dict_get_elem {A} (k : string) (v : A) d :
  NoDup d.*1 → (k, v) ∈ d → dict_get k d = Some v.
Proof.
  induction d as [|[k' v'] d IH]; [by intros _ ?%elem_of_nil|].
  cbn. intros [Hk' Hd]%NoDup_cons [[= -> ->] | Hin]%elem_of_cons.
  - by rewrite bool_decide_eq_true_2.
  - rewrite bool_decide_eq_false_2; [by apply IH|].
    intros ->. apply Hk'. apply list_elem_of_fmap. by exists (k, v).
Qed.

Lemma classify_columns infer_non_int table acc :
  NoDup (acc.*1 ++ table.*1) →
  fold_left classify_column
    (map (λ '(name, fields), (name, read_csv_dtype infer_non_int fields)) table)
    acc
  = acc ++ (classified infer_non_int <$> table).
Proof.
  revert acc. induction table as [|[name fields] table IH]; intros acc Hnd.
  - cbn. by rewrite app_nil_r.
  - cbn [map fold_left]. rewrite fmap_cons in Hnd. cbn [fst] in Hnd.
    assert (name ∉ acc.*1) as Hfresh.
    { apply NoDup_app in Hnd as (_ & Hdisj & _). intros Hin.
      apply (Hdisj name Hin). left. }
    assert (classify_column acc (name, read_csv_dtype infer_non_int fields)
            = acc ++ [classified infer_non_int (name, fields)]) as ->.
    { unfold classify_column, classified. cbn [fst snd].
      destruct (dtype_is_int _); by rewrite dict_set_new. }
    rewrite IH.
    + by rewrite <- app_assoc.
    + rewrite fmap_app, <- app_assoc. done.
Qed.

Section classifier.
Context {V : Type}.
Variable TMP_BASE_PATH : string.
Variable infer_non_int : list string → dtype.

(** Claim C3, amended.  [guess_metrics_and_columns] makes one entry per
    column of the file, with [updated_col_name] the name of the column
    and [dimension] the negation of [metric]; the column is a metric
    exactly when the file has a data row and every field of the column
    is the literal of an [int64] number: an optional sign and decimal
    digits, with blanks around them at most, in the range of [int64].
    So a column of [0] and of negative integers is a metric, and a
    column with a field that ends in [.0] is a dimension. *)
Theorem guess_metric_iff_int64_literals
    (env : Env V) (token filename : string)
    (table : list (string * list string)) :
  (∀ fields, infer_non_int fields ≠ int64) →
  read_fields env (path_join TMP_BASE_PATH [token; filename]) = Ok table →
  NoDup table.*1 →
  ∃ column_type_dict,
    guess_metrics_and_columns TMP_BASE_PATH infer_non_int env token filename
    = Ok column_type_dict
    ∧ column_type_dict.*1 = table.*1
    ∧ ∀ name fields, (name, fields) ∈ table →
        ∃ entry,
          dict_get name column_type_dict = Some entry
          ∧ updated_col_name entry = name
          ∧ dimension entry = negb (metric entry)
          ∧ (metric entry = true ↔
             fields ≠ [] ∧ ∀ f, f ∈ fields → ∃ z, int64_literal f z)
          ∧ ((∃ f, f ∈ fields ∧ endswith f ".0" = true) →
             metric entry = false).
Proof.
  intros Hother Hread Hnd.
  exists (classified infer_non_int <$> table).
  assert ((classified infer_non_int <$> table).*1 = table.*1) as Hkeys.
  { rewrite <- list_fmap_compose. by apply list_fmap_ext. }
  split; [|split; [done|]].
  - unfold guess_metrics_and_columns. rewrite Hread.
    by rewrite (classify_columns infer_non_int table []).
  - intros name fields Hin.
    exists (classified infer_non_int (name, fields)).2.
    split; [|split; [done|split; [done|split]]].
    + apply dict_get_elem; [by rewrite Hkeys|].
      apply list_elem_of_fmap. by exists (name, fields).
    + by apply read_csv_dtype_int64.
    + intros (f & Hf & Hdot).
      apply not_true_is_false. intros Hm.
      apply (read_csv_dtype_int64 infer_non_int fields Hother) in Hm
        as [_ Hall].
      destruct (Hall f Hf) as [z Hz].
      by apply (trailing_dot_zero_no_literal f z).
Qed.
End classifier.

(** The boundary values: zeros, negative integers, values that end in
    [.0], and text. *)
Lemma guess_metric_iff_int64_literals_witness :
  guess_metrics_and_columns "/tmp" as_object (env_of_table boundary_table)
    "t" "data.csv"
  = Ok [ ("zero", {| updated_col_name := "zero"; metric := true;
                     dimension := false |});
         ("debit", {| updated_col_name := "debit"; metric := true;
                      dimension := false |});
         ("ratio", {| updated_col_name := "ratio"; metric := false;
                      dimension := true |});
         ("name", {| updated_col_name := "name"; metric := false;
                     dimension := true |}) ].
Proof.
  destruct (guess_metric_iff_int64_literals "/tmp" as_object
              (env_of_table boundary_table) "t" "data.csv" boundary_table)
    as (column_type_dict & Hrun & _).
  - done.
  - done.
  - apply (bool_decide_unpack _). vm_compute. exact I.
  - vm_compute. reflexivity.
Defined.

(** Against claim C3 as it stands: every value of these columns parses
    as an integer in the words of the specification (the number 2^63,
    no value at all, values that end in [.0]), and every one of the
    columns is classified as a dimension. *)
Lemma guess_integer_columns_as_dimensions :
  Forall (λ column, forallb spec_parses_as_integer column.2 = true)
    unparsed_table
  ∧ guess_metrics_and_columns "/tmp" as_object (env_of_table unparsed_table)
      "t" "data.csv"
    = Ok [ ("big", {| updated_col_name := "big"; metric := false;
                      dimension := true |});
           ("none", {| updated_col_name := "none"; metric := false;
                       dimension := true |});
           ("ratio", {| updated_col_name := "ratio"; metric := false;
                        dimension := true |}) ].
Proof. split; [by repeat constructor | by vm_compute]. Qed.

(** ** The dimension files of the scenario *)

(** The dimension [name] of the scenario. *)
Lemma dimension_data_distinct_values_with_ids_witness :
  ∃ w',
    write_dimensions_to_ingest_folder scores ["name"] "/tmp/t/ingest"
      (still_world new_years_eve) = (Ok tt, w')
    ∧ files_of (log w') !! "/tmp/t/ingest/dimensions/name-dimension.data.csv"
      = Some (Csv {| columns := ["name_id"; "name"];
                     rows := [ [PyInt 1; PyStr "Ada"];
                               [PyInt 2; PyStr "Grace"] ] |}).
Proof.
  destruct (dimension_data_distinct_values_with_ids scores ["name"]
              "/tmp/t/ingest" (still_world new_years_eve))
    as (w' & Hrun & Hfiles).
  - repeat constructor.
  - repeat constructor.
  - exists w'. split; [exact Hrun|].
    destruct (Hfiles "name") as (values & _ & Hfile & _); [left|].
    vm_compute in Hrun. injection Hrun as <-.
    vm_compute. reflexivity.
Defined.

Section grammar.
Context {V : Type} `{Scalar V}.
Implicit Types (df : DataFrame V) (w : world V).

(** Claim C6, amended.  For every dimension name [d] that names one
    column of the (rectangular) table,
    [write_dimensions_to_ingest_folder] returns and writes the grammar
    file of [d], a text of three lines: [PK,Index], [string,string] and
    [d_id,d], without a newline at the end.  Where no dimension name
    starts with a slash the file holds this text when the function is
    done. *)
Theorem dimension_grammar_three_lines
    df dimensions ingest_folder_path w :
  rectangular df → Forall (names_one_column df) dimensions →
  let base := path_join ingest_folder_path ["dimensions"] in
  ∃ w',
    write_dimensions_to_ingest_folder df dimensions ingest_folder_path w
    = (Ok tt, w') ∧
    ∀ d, d ∈ dimensions →
      let grammar_file :=
        Text (join nl ["PK,Index"; "string,string"; d +:+ "_id," +:+ d]) in
      WriteFile (dimension_grammar_path base d) grammar_file ∈ log w'
      ∧ (Forall (λ d, startswith "/" d = false) dimensions →
         files_of (log w') !! dimension_grammar_path base d
         = Some grammar_file).
Proof.
  intros Hrect Hall base. eexists. split.
  { by apply write_dimensions_run. }
  intros d Hd. cbn [log]. fold base.
  change (Text (join nl ["PK,Index"; "string,string"; d +:+ "_id," +:+ d]))
    with (@Text V (dimension_grammar_data d)).
  split.
  - apply elem_of_app. right. right.
    apply elem_of_dimension_events. eauto.
  - intros Hrel. rewrite (app_assoc _ [_] _ : _ ++ _ :: _ = _).
    by apply dimension_grammar_file.
Qed.
End grammar.

(** The grammar file of the dimension [name] of the scenario. *)
Lemma dimension_grammar_three_lines_witness :
  ∃ w',
    write_dimensions_to_ingest_folder scores ["name"] "/tmp/t/ingest"
      (still_world new_years_eve) = (Ok tt, w')
    ∧ files_of (log w')
        !! "/tmp/t/ingest/dimensions/name-dimension.grammar.csv"
      = Some (Text (join nl ["PK,Index"; "string,string"; "name_id,name"])).
Proof.
  destruct (dimension_grammar_three_lines scores ["name"]
              "/tmp/t/ingest" (still_world new_years_eve))
    as (w' & Hrun & Hfiles).
  - repeat constructor.
  - repeat constructor.
  - exists w'. split; [exact Hrun|].
    destruct (Hfiles "name") as [_ Hfile]; [left|].
    apply Hfile. by repeat constructor.
Defined.

(** Against claim C6 as it stands: the grammar file of the dimension
    [name] has three lines, not two. *)
Lemma dimension_grammar_has_a_third_line :
  let '(r, w') :=
    write_dimensions_to_ingest_folder scores ["name"] "/tmp/t/ingest"
      (still_world new_years_eve) in
  r = Ok tt
  ∧ ∃ text,
      files_of (log w')
        !! "/tmp/t/ingest/dimensions/name-dimension.grammar.csv"
      = Some (Text text)
      ∧ lines text = ["PK,Index"; "string,string"; "name_id,name"]
      ∧ length (lines text) ≠ 2%nat.
Proof.
  vm_compute. split; [reflexivity|]. eexists. split; [reflexivity|].
  split; [reflexivity | discriminate].
Qed.

(** ** The empty name *)

(** Against claim C5 as it stands: the name [###] is cleaned to the
    empty name, which does not match the pattern, and nothing is raised:
    the table gets a column with the empty name. *)
Lemma clean_column_name_empty_without_error :
  clean_column_name "###" = ""
  ∧ is_canonical (clean_column_name "###") = false
  ∧ columns
      (format_df_columns
         {| columns := ["###"]; rows := [[PyInt 1]] |}
         [("###", {| updated_col_name := "###"; metric := true;
                     dimension := false |})]).1
    = [""].
Proof. by vm_compute. Qed.

(** ** The program directories of the examples *)

(** One program directory. *)
Lemma get_ingest_folder_path_first_entry_witness :
  get_ingest_folder_path "/tmp" (env_of_programs (Some ["sales"])) "t"
  = Ok "/tmp/t/ingest/programs/sales".
Proof.
  rewrite (get_ingest_folder_path_first_entry "/tmp"
             (env_of_programs (Some ["sales"])) "t" ["sales"]).
  - reflexivity.
  - reflexivity.
Defined.

(** Against claim C7 as it stands: with two program directories the
    first one is returned and nothing is raised, and with none the error
    is Python's [IndexError]. *)
Lemma get_ingest_folder_path_two_programs_and_none :
  get_ingest_folder_path "/tmp" (env_of_programs (Some ["sales"; "stock"])) "t"
  = Ok "/tmp/t/ingest/programs/sales"
  ∧ get_ingest_folder_path "/tmp" (env_of_programs (Some [])) "t"
    = Err IndexError.
Proof. by vm_compute. Qed.

(** ** Previews *)

(** Claim C8, at the input where the code departs from it: the name of
    an event file is asked for before any program directory exists.  The
    file does not exist, yet [fetch_file_content] raises
    [FileNotFoundError] (and [IndexError] when the programs directory is
    empty) where the claim has it return nothing; for the name of a
    dimension file the same request returns nothing. *)
Theorem fetch_event_file_without_programs_raises :
  is_event_file "score-event.data.csv" = true
  ∧ (∀ path, path_exists (env_of_programs None) path = false)
  ∧ fetch_file_content "/tmp" (env_of_programs None) "t"
      "score-event.data.csv"
    = Err (FileNotFoundError "/tmp/t/ingest/programs")
  ∧ fetch_file_content "/tmp" (env_of_programs (Some [])) "t"
      "score-event.data.csv"
    = Err IndexError
  ∧ fetch_file_content "/tmp" (env_of_programs None) "t"
      "name-dimension.data.csv"
    = Ok None.
Proof. by vm_compute. Qed.

(** What the previews return elsewhere: nothing for a name that is
    not recognised and for a dimension file that does not exist, and
    the first five rows of a file that exists and parses. *)

Section previews.
Context {V : Type} `{Scalar V}.
Variable TMP_BASE_PATH : string.

Lemma fetch_unrecognised (env : Env V) token filename :
  is_event_file filename = false → is_dimension_file filename = false →
  fetch_file_content TMP_BASE_PATH env token filename = Ok None.
Proof. unfold fetch_file_content. by intros -> ->. Qed.

Lemma fetch_missing_dimension_file (env : Env V) token filename :
  is_event_file filename = false → is_dimension_file filename = true →
  path_exists env
    (path_join TMP_BASE_PATH [token; "ingest"; "dimensions"; filename])
  = false →
  fetch_file_content TMP_BASE_PATH env token filename = Ok None.
Proof.
  unfold fetch_file_content, fetch_at. by intros -> -> ->.
Qed.

Lemma fetch_at_existing (env : Env V) file_path df :
  path_exists env file_path = true →
  read_csv env file_path = Ok df →
  NoDup (columns df) →
  fetch_at env file_path
  = Ok (Some (map (λ r, zip (columns df) r) (take 5 (rows df)))).
Proof.
  unfold fetch_at, to_records, head5. intros -> -> Hnd. cbn.
  by rewrite bool_decide_eq_true_2.
Qed.
End previews.

(** ** The scenario of the specification, end to end *)

Example scenario_classified :
  guess_metrics_and_columns "/tmp" as_object scenario_env "t" "in.csv"
  = Ok [ ("name", {| updated_col_name := "name"; metric := false;
                     dimension := true |});
         ("score", {| updated_col_name := "score"; metric := true;
                      dimension := false |}) ].
Proof. by vm_compute. Qed.

Example scenario_generated :
  let metadata :=
    [ ("name", {| updated_col_name := "name"; metric := false;
                  dimension := true |});
      ("score", {| updated_col_name := "score"; metric := true;
                   dimension := false |}) ] in
  let '(r, w') :=
    generate_ingest_files "/tmp" scenario_env "t" metadata "p" "Scores"
      (still_world new_years_eve) in
  r = Ok [("dimension", ["name"]); ("metrics", ["score"])]
  ∧ files_of (log w') !! "/tmp/t/ingest/dimensions/name-dimension.data.csv"
    = Some (Csv {| columns := ["name_id"; "name"];
                   rows := [ [PyInt 1; PyStr "Ada"];
                             [PyInt 2; PyStr "Grace"] ] |})
  ∧ files_of (log w') !! "/tmp/t/ingest/programs/p/score-event.data.csv"
    = Some (Csv {| columns := ["date"; "name"; "score"];
                   rows := [ [PyStr "31/12/24"; PyStr "Ada"; PyInt 10];
                             [PyStr "31/12/24"; PyStr "Grace"; PyInt 10];
                             [PyStr "31/12/24"; PyStr "Ada"; PyInt 7] ] |})
  ∧ files_of (log w') !! "/tmp/t/ingest/config.json"
    = Some (Json (config_template "p" "Scores")).
Proof. by vm_compute. Qed.

(** * Further properties of the code *)

(** ** The name_words of a column name *)

Lemma alnum_lower c : is_alnum (lower_char c) = is_alnum c.
Proof. destruct c as [[] [] [] [] [] [] [] []]; by vm_compute. Qed.

Lemma alnum_lower_word c : is_alnum c = true → is_word (lower_char c) = true.
Proof. by_cases_on_char c. Qed.

Lemma blanked_cons c s :
  blanked (String c s)
  = String (if is_alnum c then lower_char c else " "%char) (blanked s).
Proof.
  unfold blanked, sub_non_alnum, lower. rewrite !smap_cons.
  by rewrite alnum_lower.
Qed.

Lemma tail_name_word c t :
  is_word c = true → tail_name (String c t) = String c (tail_name t).
Proof.
  intros Hc. unfold tail_name.
  rewrite rstrip_cons, (word_not_pyspace _ Hc), andb_false_l.
  rewrite sub_blank_runs_cons, (word_not_blank _ Hc), andb_false_l.
  rewrite replace_char_cons, bool_decide_eq_false_2; [done|].
  apply not_blank_neq. by apply word_not_blank.
Qed.

Lemma words_nil s : name_words s = [] ↔ sall (λ c, negb (is_alnum c)) s = true.
Proof.
  induction s as [|c s IH]; [done|]. cbn [name_words sall].
  destruct (is_alnum c) eqn:Hc; cbn [negb andb]; [|done].
  split; [|done].
  destruct (starts_with_alnum s); [by destruct (name_words s)|done].
Qed.

Lemma rstrip_blanked_empty s :
  rstrip (blanked s) = "" ↔ sall (λ c, negb (is_alnum c)) s = true.
Proof.
  induction s as [|c s IH]; [done|].
  rewrite blanked_cons, rstrip_cons. cbn [sall].
  destruct (is_alnum c) eqn:Hc; cbn [negb andb].
  - rewrite (word_not_pyspace _ (alnum_lower_word _ Hc)). done.
  - change (is_pyspace " ") with true. cbn [andb]. rewrite <- IH.
    by destruct (rstrip (blanked s)).
Qed.

Lemma rstrip_head t c r : rstrip t = String c r → ∃ s, t = String c s.
Proof.
  destruct t as [|c' s]; [done|]. rewrite rstrip_cons.
  destruct (is_pyspace c' && is_empty (rstrip s)); [done|].
  intros [= -> _]. by exists s.
Qed.

Lemma starts_with_blank_rstrip t :
  rstrip t ≠ "" → starts_with_blank (rstrip t) = starts_with_blank t.
Proof.
  intros Hne. destruct (rstrip t) as [|c r] eqn:E; [done|].
  by destruct (rstrip_head t c r E) as [s ->].
Qed.

Lemma starts_with_blank_blanked s :
  s ≠ "" → starts_with_blank (blanked s) = negb (starts_with_alnum s).
Proof.
  destruct s as [|c s]; [done|]. intros _. rewrite blanked_cons. cbn.
  destruct (is_alnum c) eqn:Hc; [|done].
  by apply word_not_blank, alnum_lower_word.
Qed.

Lemma join_cons_word c w ws :
  join "_" (String c w :: ws) = String c (join "_" (w :: ws)).
Proof. by destruct ws. Qed.

(** The name that follows a word character, from the name_words that
    follow. *)
Lemma tail_name_words s :
  tail_name (blanked s)
  = match name_words s with
    | [] => ""
    | w :: ws =>
        if starts_with_alnum s then join "_" (w :: ws)
        else "_" +:+ join "_" (w :: ws)
    end.
Proof.
  induction s as [|c s IH]; [done|].
  rewrite blanked_cons. cbn [name_words starts_with_alnum].
  destruct (is_alnum c) eqn:Hc.
  - rewrite tail_name_word, IH by (by apply alnum_lower_word).
    destruct (starts_with_alnum s) eqn:Hs.
    + destruct (name_words s) as [|w ws]; [done|]. by rewrite join_cons_word.
    + by destruct (name_words s) as [|w ws].
  - destruct (name_words s) as [|w ws] eqn:Hw.
    + apply words_nil, rstrip_blanked_empty in Hw.
      unfold tail_name. by rewrite rstrip_cons, Hw.
    + assert (rstrip (blanked s) ≠ "") as Hne.
      { intros Hr%rstrip_blanked_empty%words_nil. congruence. }
      assert (s ≠ "") as Hs by (by intros ->).
      unfold tail_name in *. rewrite rstrip_cons.
      destruct (rstrip (blanked s)) as [|c' r] eqn:Hr; [done|].
      rewrite andb_false_r, sub_blank_runs_cons.
      change (is_blank " ") with true. rewrite andb_true_l.
      rewrite <- Hr, starts_with_blank_rstrip, starts_with_blank_blanked
        by (done || congruence).
      rewrite Hr in *. destruct (starts_with_alnum s); cbn [negb].
      * rewrite replace_char_cons, bool_decide_eq_true_2 by done.
        by rewrite IH.
      * exact IH.
Qed.

(** The first character decides: a letter or digit opens the name,
    anything else is skipped. *)
Lemma clean_column_name_cons c x :
  clean_column_name (String c x)
  = if is_alnum c then String (lower_char c) (tail_name (blanked x))
    else clean_column_name x.
Proof.
  change (clean_column_name (String c x))
    with (replace_char " " "_"
            (sub_blank_runs (strip (blanked (String c x))))).
  change (clean_column_name x)
    with (replace_char " " "_" (sub_blank_runs (strip (blanked x)))).
  unfold strip. rewrite blanked_cons. cbn [lstrip].
  destruct (is_alnum c) eqn:Hc; [|done].
  pose proof (alnum_lower_word _ Hc) as Hw.
  rewrite (word_not_pyspace _ Hw).
  change (replace_char " " "_" (sub_blank_runs (rstrip ?t)))
    with (tail_name t).
  by rewrite tail_name_word.
Qed.

(** Property X1.  On a text of code points below 256,
    [clean_column_name] returns the words of the name joined by
    underscores, a word being a maximal run of ASCII letters and digits,
    taken in lower case. *)
Theorem clean_column_name_words x :
  clean_column_name x = join "_" (name_words x).
Proof.
  induction x as [|c x IH]; [done|].
  rewrite clean_column_name_cons. cbn [name_words].
  destruct (is_alnum c); [|exact IH].
  rewrite tail_name_words.
  destruct (starts_with_alnum x).
  - destruct (name_words x) as [|w ws]; [done|]. by rewrite join_cons_word.
  - by destruct (name_words x) as [|w ws].
Qed.

Lemma clean_empty_iff_no_alnum x :
  clean_column_name x = "" ↔ sall (λ c, negb (is_alnum c)) x = true.
Proof.
  induction x as [|c x IH]; [done|].
  rewrite clean_column_name_cons. cbn [sall].
  destruct (is_alnum c); cbn [negb andb]; [done | exact IH].
Qed.

Section empty_names.
Variable str_lower : Unicode.text → Unicode.text.
Hypothesis Hlower : Unicode.lowers str_lower.

(** Property X2.  For every text, of whatever code points,
    [clean_column_name] returns the empty name exactly when the lowered
    text, [column_name.lower()], has no ASCII letter and no digit.  Of
    [str.lower] this uses that its result has no ASCII capital. *)
Theorem clean_column_name_empty_iff x :
  Unicode.clean_column_name str_lower x = []
  ↔ Forall (λ c, Unicode.is_alnum c = false) (str_lower x).
Proof.
  rewrite clean_column_name_squash by done.
  rewrite codes_nil, clean_empty_iff_no_alnum.
  induction (str_lower x) as [|c v IH]; [done|].
  cbn [Unicode.squash_text]. rewrite sall_cons, Forall_cons, IH.
  rewrite alnum_squash. by rewrite negb_true_iff.
Qed.
End empty_names.

(** A name without letters and digits, [#€ ], and the Kelvin sign,
    whose lowering is the letter [k]. *)
Lemma clean_column_name_empty_iff_witness :
  Unicode.clean_column_name Unicode.sample_lower [35; 8364; 32]%N = []
  ∧ Unicode.clean_column_name Unicode.sample_lower [8490]%N ≠ [].
Proof.
  split.
  - apply (clean_column_name_empty_iff Unicode.sample_lower
             sample_lower_lowers).
    by repeat constructor.
  - intros Hnil.
    apply (clean_column_name_empty_iff Unicode.sample_lower
             sample_lower_lowers) in Hnil.
    by apply Forall_inv in Hnil.
Defined.

(** ** Renaming and cleaning the columns *)

Lemma lookup_name_map (f : string → string) (cols : list string) (k : string) :
  (list_to_map (map (λ c, (c, f c)) cols) : gmap string string) !! k
  = if bool_decide (k ∈ cols) then Some (f k) else None.
Proof.
  induction cols as [|c cols IH].
  - cbn. by rewrite lookup_empty.
  - cbn [map]. rewrite list_to_map_cons.
    destruct (decide (c = k)) as [-> | Hne].
    + rewrite lookup_insert_eq, bool_decide_eq_true_2; [done | left].
    + rewrite lookup_insert_ne, IH by done.
      apply (f_equal (λ b : bool, if b then Some (f k) else None)).
      apply bool_decide_ext. rewrite elem_of_cons.
      split; [by right | by intros [-> | ?]].
Qed.

Lemma dict_get_fmap {A B} (g : A → B) (k : string) (d : list (string * A)) :
  dict_get k (map (λ '(key, v), (key, g v)) d) = g <$> dict_get k d.
Proof.
  induction d as [|[k' v] d IH]; [done|]. cbn.
  by case_bool_decide.
Qed.

Section format.
Context {V : Type} `{Scalar V}.
Implicit Types (df : DataFrame V) (md : list (string * ColumnMeta)).

Lemma format_df_columns_unfold df md :
  format_df_columns df md
  = ({| columns := (λ c, clean_column_name (user_name md c)) <$> columns df;
        rows := rows df |},
     list_to_map (map (λ c, (c, clean_column_name c))
                      (user_name md <$> columns df))).
Proof.
  unfold format_df_columns, rename. cbn [columns rows].
  assert (map (λ c, default c
                 (dict_get c (map (λ '(old_column, mapping),
                                     (old_column, updated_col_name mapping)) md)))
              (columns df)
          = user_name md <$> columns df) as ->.
  { apply map_ext. intros c. unfold user_name. by rewrite dict_get_fmap. }
  by rewrite <- list_fmap_compose.
Qed.

(** Property X3.  [format_df_columns] keeps the rows and the number of
    columns; every header of the table it returns is empty or canonical
    ([^[a-z0-9]+(_[a-z0-9]+)*$]); the header of the [i]-th column is the
    cleaned name that the user gave to that column (the old header where
    the metadata has no entry for it), and the mapping it returns sends
    that name of the user to that header. *)
Theorem format_df_columns_headers df md :
  let '(df', column_mapping) := format_df_columns df md in
  rows df' = rows df
  ∧ length (columns df') = length (columns df)
  ∧ Forall (λ name, name = "" ∨ canonical name) (columns df')
  ∧ ∀ i c, columns df !! i = Some c →
      columns df' !! i = Some (clean_column_name (user_name md c))
      ∧ column_mapping !! user_name md c
        = Some (clean_column_name (user_name md c)).
Proof.
  rewrite format_df_columns_unfold. cbn [columns rows].
  split; [done|]. split; [by rewrite length_fmap|]. split.
  - apply Forall_fmap, Forall_forall. intros c _. cbn.
    destruct (clean_empty_or_canonical_bool (user_name md c))
      as [? | ?%is_canonical_spec]; auto.
  - intros i c Hc. split.
    + by rewrite list_lookup_fmap, Hc.
    + rewrite lookup_name_map, bool_decide_eq_true_2; [done|].
      apply list_elem_of_fmap. exists c. split; [done|].
      by eapply list_elem_of_lookup_2.
Qed.
End format.

(** ** Routing the columns of the table itself *)

Section routing.
Context {V : Type} `{Scalar V}.
Implicit Types (df : DataFrame V) (md : list (string * ColumnMeta)).

Lemma user_name_entry md cols entry :
  NoDup md.*1 → (cols, entry) ∈ md →
  user_name md cols = updated_col_name entry.
Proof.
  intros Hnd Hin. unfold user_name.
  by rewrite (dict_get_elem cols entry md).
Qed.

Lemma split_columns_table_ok df md :
  NoDup md.*1 →
  (∀ cols entry, (cols, entry) ∈ md → cols ∈ columns df) →
  split_columns md (format_df_columns df md).2 [] []
  = Ok (clean_name <$> filter (λ e, metric e = true) md.*2,
        clean_name <$> filter (λ e, metric e = false) md.*2).
Proof.
  intros Hnd Hcols. rewrite format_df_columns_unfold. cbn [snd].
  apply (split_columns_ok md _ clean_name).
  intros cols entry Hin. rewrite lookup_name_map.
  rewrite bool_decide_eq_true_2; [done|].
  apply list_elem_of_fmap. exists cols. split; [|by eapply Hcols].
  symmetry. by apply user_name_entry.
Qed.

Lemma routed_names_in_table df md :
  NoDup md.*1 →
  (∀ cols entry, (cols, entry) ∈ md → cols ∈ columns df) →
  Forall (λ name, name ∈ columns (format_df_columns df md).1)
    ((clean_name <$> filter (λ e, metric e = true) md.*2)
     ++ (clean_name <$> filter (λ e, metric e = false) md.*2)).
Proof.
  intros Hnd Hcols. rewrite format_df_columns_unfold. cbn [fst columns].
  rewrite <- fmap_app. apply Forall_fmap, Forall_forall.
  intros entry Hin. cbn.
  assert (entry ∈ md.*2) as (pair & -> & Hpair)%list_elem_of_fmap.
  { apply elem_of_app in Hin as [Hin | Hin];
      by apply list_elem_of_filter in Hin as [_ ?]. }
  destruct pair as [cols e]. cbn [snd].
  apply list_elem_of_fmap. exists cols.
  split; [|by eapply Hcols].
  unfold clean_name. by rewrite (user_name_entry md cols e).
Qed.

Lemma filter_metric_Permutation (es : list ColumnMeta) :
  filter (λ e, metric e = true) es ++ filter (λ e, metric e = false) es
  ≡ₚ es.
Proof.
  induction es as [|e es IH]; [done|].
  rewrite !filter_cons. destruct (metric e) eqn:Hm.
  - rewrite decide_True, decide_False by done. cbn. by rewrite IH.
  - rewrite decide_False, decide_True by done.
    by rewrite <- Permutation_middle, IH.
Qed.

(** Property X5.  Metadata whose keys are distinct columns of the table
    is routed by the loop of [generate_ingest_files] without a
    [KeyError]: the metrics are the entries whose [metric] flag is set
    and the dimensions the others, each list in the order of the
    metadata and under the cleaned names; every entry lands in exactly
    one of the two lists, and every routed name is a header of the
    cleaned table. *)
Theorem split_columns_of_table df md :
  NoDup md.*1 →
  (∀ cols entry, (cols, entry) ∈ md → cols ∈ columns df) →
  let '(df', column_mapping) := format_df_columns df md in
  ∃ metrics dimensions,
    split_columns md column_mapping [] [] = Ok (metrics, dimensions)
    ∧ metrics = clean_name <$> filter (λ e, metric e = true) md.*2
    ∧ dimensions = clean_name <$> filter (λ e, metric e = false) md.*2
    ∧ metrics ++ dimensions ≡ₚ clean_name <$> md.*2
    ∧ Forall (λ name, name ∈ columns df') (metrics ++ dimensions).
Proof.
  intros Hnd Hcols.
  pose proof (split_columns_table_ok df md Hnd Hcols) as Hrun.
  pose proof (routed_names_in_table df md Hnd Hcols) as Hin.
  destruct (format_df_columns df md) as [df' mapping]. cbn [fst snd] in *.
  eexists _, _. split; [exact Hrun|]. split; [done|]. split; [done|].
  split; [|exact Hin].
  rewrite <- fmap_app. apply fmap_Permutation, filter_metric_Permutation.
Qed.
End routing.

Lemma split_columns_of_table_witness :
  split_columns score_metadata (format_df_columns scores score_metadata).2 [] []
  = Ok (["score_pts"], ["player_name"]).
Proof.
  pose proof (split_columns_of_table scores score_metadata) as Hroute.
  destruct (format_df_columns scores score_metadata) as [df' mapping] eqn:E.
  destruct Hroute as (metrics & dimensions & Hrun & -> & -> & _).
  - apply (bool_decide_unpack _). vm_compute. exact I.
  - intros cols entry Hin.
    repeat (apply elem_of_cons in Hin as [[= -> _] | Hin];
            [vm_compute; repeat constructor|]).
    by apply elem_of_nil in Hin.
  - cbn [snd]. rewrite Hrun. vm_compute. reflexivity.
Defined.

(** ** File names and where they end *)


Lemma word_not_slash c : is_word c = true → c ≠ "/"%char.
Proof. intros Hc ->. done. Qed.

Lemma clean_name_relative x : startswith "/" (clean_column_name x) = false.
Proof.
  destruct (clean_empty_or_canonical_bool x) as [-> | Hc]; [done|].
  unfold is_canonical in Hc.
  destruct (clean_column_name x) as [|c s]; [done|].
  rewrite canon_from_cons in Hc. cbn [startswith].
  destruct (is_word c) eqn:Hw.
  - rewrite bool_decide_eq_false_2; [done|].
    intros Heq. by apply (word_not_slash c).
  - cbn [negb] in Hc. by rewrite andb_false_r in Hc.
Qed.


Lemma filter_label_absent (label : string) (cols : list string) :
  label ∉ cols → filter (λ c, c = label) cols = [].
Proof.
  induction cols as [|c cols IH]; [done|].
  rewrite not_elem_of_cons, filter_cons. intros [Hne Hcols].
  rewrite decide_False by done. by apply IH.
Qed.

Lemma NoDup_names_one_column {V} (df : DataFrame V) (label : string) :
  NoDup (columns df) → label ∈ columns df → names_one_column df label.
Proof.
  unfold names_one_column. induction 1 as [|c cols Hc Hnd IH].
  - by intros ?%elem_of_nil.
  - rewrite filter_cons. intros [-> | Hin]%elem_of_cons.
    + rewrite decide_True by done. by rewrite filter_label_absent.
    + rewrite decide_False; [by apply IH|]. by intros ->.
Qed.

Lemma mismatch_app (l1 l2 x y : list ascii) :
  mismatch l1 l2 = true → l1 ++ x ≠ l2 ++ y.
Proof.
  revert l2. induction l1 as [|a l1 IH]; intros [|b l2]; try done.
  cbn. intros [Hab | Hrest]%orb_true_iff [= -> Heq].
  - by rewrite bool_decide_eq_true_2 in Hab.
  - by apply (IH l2).
Qed.

Lemma endings_clash_neq (s1 s2 a b : string) :
  endings_clash s1 s2 = true → a +:+ s1 ≠ b +:+ s2.
Proof.
  intros Hclash Heq%(f_equal chars)%(f_equal (@rev ascii)).
  rewrite !chars_app, !rev_app_distr in Heq.
  by apply mismatch_app in Heq.
Qed.




(** ** A whole run of [generate_ingest_files] *)

Section generate.
Context {V : Type} `{Scalar V}.
Variable TMP_BASE_PATH : string.
Implicit Types (df : DataFrame V) (w : world V)
  (md : list (string * ColumnMeta)).

Lemma rectangular_format df md :
  rectangular df → rectangular (format_df_columns df md).1.
Proof.
  rewrite format_df_columns_unfold. unfold rectangular. cbn.
  by rewrite length_fmap.
Qed.

Lemma write_config_run program_name program_desc ingest_folder_path w :
  write_config_to_ingest_folder program_name program_desc ingest_folder_path w
  = (Ok tt,
     {| log := log w ++ [WriteFile (config_path ingest_folder_path)
                           (Json (config_template program_name program_desc))];
        now := now w |}).
Proof. done. Qed.

Lemma write_events_run df dimensions metrics program_name ingest_folder_path w :
  Forall (names_one_column df) (dimensions ++ metrics) →
  "date" ∉ dimensions ++ metrics →
  write_events_to_ingest_folder df dimensions metrics program_name
    ingest_folder_path w
  = (Ok tt,
     {| log := log w
               ++ CreateFolder
                    (path_join ingest_folder_path ["programs"; program_name])
               :: events_from df dimensions
                    (path_join ingest_folder_path ["programs"; program_name])
                    (now w) metrics;
        now := λ k, now w (length metrics + k)%nat |}).
Proof.
  intros Hall Hdate.
  unfold write_events_to_ingest_folder, create_folder_if_not.
  rewrite run_emit, write_events_loop_run by done.
  cbn [log now]. by rewrite <- app_assoc.
Qed.
End generate.

Section generate_run.
Context {V : Type} `{Scalar V}.
Variable TMP_BASE_PATH : string.
Implicit Types (df : DataFrame V) (w : world V)
  (md : list (string * ColumnMeta)).

Lemma generate_ingest_files_run env token md program_name program_desc w df0 :
  good_upload TMP_BASE_PATH env token md df0 →
  let df := (format_df_columns df0 md).1 in
  let metrics := clean_name <$> filter (λ e, metric e = true) md.*2 in
  let dimensions := clean_name <$> filter (λ e, metric e = false) md.*2 in
  generate_ingest_files TMP_BASE_PATH env token md program_name program_desc w
  = (Ok [("dimension", dimensions); ("metrics", metrics)],
     {| log := log w
               ++ generate_events df dimensions metrics
                    (path_join (path_join TMP_BASE_PATH [token]) ["ingest"])
                    program_name program_desc (now w);
        now := λ k, now w (length metrics + k)%nat |}).
Proof.
  intros [(names & file & Hls & Hfile & Hread) Hrect Hkeys Hcols Hnd Hdate].
  intros df metrics dimensions.
  pose proof (split_columns_table_ok df0 md Hkeys Hcols) as Hsplit.
  pose proof (routed_names_in_table df0 md Hkeys Hcols) as Hin.
  unfold generate_ingest_files, os_listdir. rewrite Hls, run_lift_ok.
  destruct (filter _ names) as [|file' others] eqn:Hfilter; [done|].
  injection Hfile as ->. cbn [first_item]. rewrite run_lift_ok, Hread.
  rewrite run_lift_ok.
  subst df. destruct (format_df_columns df0 md) as [df mapping] eqn:Hfmt.
  cbn [fst snd] in *.
  rewrite Hsplit, run_lift_ok.
  assert (Forall (names_one_column df) (dimensions ++ metrics)) as Hone.
  { apply Forall_app in Hin as [Hms Hds]. apply Forall_app. split.
    - eapply Forall_impl; [exact Hds|]. intros n. by apply NoDup_names_one_column.
    - eapply Forall_impl; [exact Hms|]. intros n. by apply NoDup_names_one_column. }
  assert ("date" ∉ dimensions ++ metrics) as Hnodate.
  { intros Hd. apply Hdate. rewrite Forall_forall in Hin. apply Hin.
    apply elem_of_app. apply elem_of_app in Hd. tauto. }
  assert (rectangular df) as Hrect'.
  { pose proof (rectangular_format df0 md Hrect) as Hr. by rewrite Hfmt in Hr. }
  rewrite run_bind, write_dimensions_run.
  2: done.
  2:{ by apply Forall_app in Hone as [? _]. }
  rewrite run_bind, write_events_run by done.
  rewrite run_bind, write_config_run. cbn [log now].
  unfold generate_events. unfold mret, M_ret, ret. f_equal. f_equal.
  rewrite <- !app_assoc. cbn [app]. rewrite <- ?app_assoc. cbn [app].
  reflexivity.
Qed.
End generate_run.

Section generate_files.
Context {V : Type} `{Scalar V}.
Variable TMP_BASE_PATH : string.
Implicit Types (df : DataFrame V) (w : world V)
  (md : list (string * ColumnMeta)).

Lemma elem_of_events_from df dimensions base now metrics (e : event V) :
  e ∈ events_from df dimensions base now metrics ↔
  ∃ k m, metrics !! k = Some m ∧
    (e = WriteFile (event_grammar_path base m)
           (Text (event_grammar_data dimensions m))
     ∨ e = WriteFile (event_data_path base m)
             (Csv (event_table df dimensions m (strftime_dmy (now k))))).
Proof.
  revert now. induction metrics as [|m ms IH]; intros now.
  - cbn. rewrite elem_of_nil. split; [done|]. by intros (k & m & ? & _).
  - cbn [events_from]. rewrite elem_of_app, IH. unfold event_events.
    rewrite !elem_of_cons, elem_of_nil. split.
    + intros [[-> | [-> | []]] | (k & m' & Hk & He)].
      * exists 0%nat, m. auto.
      * exists 0%nat, m. auto.
      * exists (S k), m'. auto.
    + intros ([|k] & m' & Hk & He).
      * injection Hk as <-. tauto.
      * right. exists k, m'. auto.
Qed.

Lemma elem_of_generate_events df dimensions metrics ingest
    program_name program_desc now (e : event V) :
  e ∈ generate_events df dimensions metrics ingest program_name program_desc now
  ↔ e = CreateFolder (path_join ingest ["dimensions"])
    ∨ e ∈ concat (dimension_events df (path_join ingest ["dimensions"])
                  <$> dimensions)
    ∨ e = CreateFolder (path_join ingest ["programs"; program_name])
    ∨ e ∈ events_from df dimensions
            (path_join ingest ["programs"; program_name]) now metrics
    ∨ e = WriteFile (config_path ingest)
            (Json (config_template program_name program_desc)).
Proof.
  unfold generate_events.
  rewrite elem_of_cons, elem_of_app, elem_of_cons, elem_of_app.
  rewrite list_elem_of_singleton. tauto.
Qed.



End generate_files.

Section generate_theorem.
Context {V : Type} `{Scalar V}.
Variable TMP_BASE_PATH : string.
Implicit Types (df : DataFrame V) (w : world V)
  (md : list (string * ColumnMeta)).



Lemma clean_names_relative (names : list string) :
  Forall (λ n, startswith "/" n = false) (clean_column_name <$> names).
Proof.
  apply Forall_fmap, Forall_forall. intros n _. apply clean_name_relative.
Qed.

End generate_theorem.

(** ** Runs that stop *)

Section stops.
Context {V : Type} `{Scalar V}.
Variable TMP_BASE_PATH : string.
Implicit Types (df : DataFrame V) (w : world V)
  (md : list (string * ColumnMeta)).

(** Property X8.  An upload folder without a file whose name ends in [.csv] makes
    the run raise [IndexError] before anything is written. *)
Theorem generate_ingest_files_no_csv
    (env : Env V) token md program_name program_desc w names :
  listdir env (path_join TMP_BASE_PATH [token]) = Some names →
  Forall (λ f, endswith f ".csv" = false) names →
  generate_ingest_files TMP_BASE_PATH env token md program_name program_desc w
  = (Err IndexError, w).
Proof.
  intros Hls Hnone. unfold generate_ingest_files, os_listdir.
  rewrite Hls, run_lift_ok.
  assert (filter (λ f, endswith f ".csv") names = []) as ->; [|reflexivity].
  clear Hls. induction Hnone as [|f fs Hf _ IH]; [done|].
  rewrite filter_cons, decide_False; [exact IH|]. rewrite Hf. by intros [].
Qed.

Lemma getitem_missing df (label : string) :
  label ∉ columns df → getitem df label = Err (KeyError label).
Proof. intros Hl. unfold getitem. by rewrite bool_decide_eq_false_2. Qed.

Lemma getitem_list_missing df (labels : list string) :
  filter (λ l, l ∉ columns df) labels ≠ [] →
  getitem_list df labels
  = Err (not_found labels (filter (λ l, l ∉ columns df) labels)).
Proof.
  intros Hne. unfold getitem_list.
  by destruct (filter (λ l, l ∉ columns df) labels).
Qed.

Lemma for_each_stops {A} (xs : list A) (x : A) (rest : list A)
    (body : A → M V unit) (evs : A → list (event V))
    (last : list (event V)) e w :
  (∀ y w, y ∈ xs →
     body y w = (Ok tt, {| log := log w ++ evs y; now := now w |})) →
  (∀ w, body x w = (Err e, {| log := log w ++ last; now := now w |})) →
  for_each (xs ++ x :: rest) body w
  = (Err e, {| log := log w ++ concat (evs <$> xs) ++ last; now := now w |}).
Proof.
  revert w. induction xs as [|y xs IH]; intros w Hok Hstop.
  - cbn [app for_each]. unfold bind at 1. by rewrite Hstop.
  - cbn [app for_each]. unfold bind at 1. rewrite Hok by left.
    rewrite IH by (intros; auto; apply Hok; by right).
    cbn. by rewrite <- !app_assoc.
Qed.

(** Property X10.  In [write_dimensions_to_ingest_folder] a dimension
    that names no column stops the loop with a [KeyError]; the files of
    the dimensions before it and its own grammar file have been written
    by then, its data file and the files of the dimensions after it
    have not. *)
Theorem write_dimensions_missing_column
    df (before : list string) (d : string) (after : list string)
    ingest_folder_path w :
  rectangular df → Forall (names_one_column df) before →
  d ∉ columns df →
  let base := path_join ingest_folder_path ["dimensions"] in
  write_dimensions_to_ingest_folder df (before ++ d :: after)
    ingest_folder_path w
  = (Err (KeyError d),
     {| log := log w
               ++ CreateFolder base
               :: concat (dimension_events df base <$> before)
               ++ [WriteFile (dimension_grammar_path base d)
                     (Text (dimension_grammar_data d))];
        now := now w |}).
Proof.
  intros Hrect Hbefore Hd base.
  unfold write_dimensions_to_ingest_folder, create_folder_if_not.
  fold base. rewrite run_emit.
  rewrite (for_each_stops before d after _ (dimension_events df base)
             [WriteFile (dimension_grammar_path base d)
                (Text (dimension_grammar_data d))] (KeyError d)).
  - cbn [log now]. by rewrite <- app_assoc.
  - intros y w' Hy. apply write_dimension_run; [done|].
    rewrite Forall_forall in Hbefore. by apply Hbefore.
  - intros w'. unfold write_dimension, write_text. rewrite run_emit.
    by rewrite getitem_missing.
Qed.

(** Property X12.  In [write_events_to_ingest_folder], when a
    dimension or the first metric names no column of the table, the
    loop over the metrics stops at the first metric with the [KeyError]
    of [df[headers]], which names every missing label (all the labels
    when none of them names a column): the folder of the program and the
    grammar file of the metric are written, no data file is, and the
    clock is not read. *)
Theorem write_events_missing_column
    df dimensions metric (after : list string) program_name
    ingest_folder_path w :
  let headers := dimensions ++ [metric] in
  let missing := filter (λ l, l ∉ columns df) headers in
  missing ≠ [] →
  let base := path_join ingest_folder_path ["programs"; program_name] in
  write_events_to_ingest_folder df dimensions (metric :: after) program_name
    ingest_folder_path w
  = (Err (not_found headers missing),
     {| log := log w
               ++ [CreateFolder base;
                   WriteFile (event_grammar_path base metric)
                     (Text (event_grammar_data dimensions metric))];
        now := now w |}).
Proof.
  intros headers missing Hmissing base. subst headers missing.
  unfold write_events_to_ingest_folder, create_folder_if_not.
  fold base. rewrite run_emit. cbn [for_each]. unfold bind at 1.
  unfold write_event, write_text. rewrite run_emit.
  rewrite (getitem_list_missing df _ Hmissing). cbn.
  by rewrite <- app_assoc.
Qed.

(** Property X13.  In [write_events_to_ingest_folder], where the
    columns are all there and one of the dimensions or the first metric
    is called [date], the date column cannot be inserted: the
    loop stops at the first metric with a [ValueError], after its
    grammar file and one reading of the clock, and writes no data
    file. *)
Theorem write_events_date_column
    df dimensions metric (after : list string) program_name
    ingest_folder_path w :
  Forall (λ l, l ∈ columns df) (dimensions ++ [metric]) →
  "date" ∈ dimensions ++ [metric] →
  let base := path_join ingest_folder_path ["programs"; program_name] in
  write_events_to_ingest_folder df dimensions (metric :: after) program_name
    ingest_folder_path w
  = (Err (ValueError "cannot insert date, already exists"),
     {| log := log w
               ++ [CreateFolder base;
                   WriteFile (event_grammar_path base metric)
                     (Text (event_grammar_data dimensions metric))];
        now := λ k, now w (S k) |}).
Proof.
  intros Hall Hdate base.
  unfold write_events_to_ingest_folder, create_folder_if_not.
  fold base. rewrite run_emit. cbn [for_each]. unfold bind at 1.
  unfold write_event, write_text. rewrite run_emit.
  rewrite getitem_list_ok, run_lift_ok by done.
  rewrite run_bind. unfold today at 1. cbn [log now].
  unfold insert_front_scalar. cbn [columns].
  rewrite bool_decide_eq_true_2.
  - cbn. by rewrite <- app_assoc.
  - apply list_elem_of_In, in_flat_map. exists "date".
    split; [by apply list_elem_of_In|].
    apply list_elem_of_In, list_elem_of_filter. split; [done|].
    rewrite Forall_forall in Hall. by apply Hall.
Qed.
End stops.

(** ** The event grammar *)







(** ** Dimension ids when the table grows *)


Section ids.
Context {V : Type} `{Scalar V}.
Implicit Types (df : DataFrame V).


End ids.

(** ** Event rows and dimension rows *)

Section references.
Context {V : Type} `{Scalar V}.
Implicit Types (df : DataFrame V).




End references.

(** ** Where the previews look *)

Lemma endswith_app (a s : string) : endswith (a +:+ s) s = true.
Proof.
  unfold endswith. induction a as [|c a IH].
  - destruct s; cbn [endswith_go]; apply orb_true_intro; left;
      by apply bool_decide_eq_true_2.
  - change (endswith_go s (String c (a +:+ s)) = true). cbn.
    by rewrite IH, orb_true_r.
Qed.

Lemma endswith_inv (s p : string) :
  endswith s p = true → ∃ pre, s = pre +:+ p.
Proof.
  unfold endswith. induction s as [|c s IH]; cbn.
  - rewrite orb_false_r. intros ->%bool_decide_eq_true. by exists "".
  - intros [->%bool_decide_eq_true | [pre ->]%IH]%orb_true_iff.
    + by exists "".
    + by exists (String c pre).
Qed.

Lemma endswith_clash (a s1 s2 : string) :
  endings_clash s1 s2 = true → endswith (a +:+ s1) s2 = false.
Proof.
  intros Hclash. apply not_true_is_false. intros [pre Heq]%endswith_inv.
  by apply (endings_clash_neq s1 s2 a pre).
Qed.

Lemma is_empty_app (a b : string) :
  is_empty (a +:+ b) = is_empty a && is_empty b.
Proof. by destruct a. Qed.

Lemma path_join2_ingest_programs (a : string) :
  path_join2 (path_join2 a "ingest") "programs"
  = path_join2 a "ingest/programs".
Proof.
  unfold path_join2.
  change (startswith "/" "ingest") with false.
  change (startswith "/" "programs") with false.
  change (startswith "/" "ingest/programs") with false. cbv iota.
  destruct (is_empty a || endswith a "/").
  - rewrite is_empty_app, andb_false_r, endswith_clash by done.
    cbn [orb]. by rewrite app_assoc_str.
  - rewrite <- (app_assoc_str a "/" "ingest").
    rewrite is_empty_app, andb_false_r, endswith_clash by done.
    cbn [orb]. by rewrite !app_assoc_str.
Qed.

Section previews_paths.
Context {V : Type} `{Scalar V}.
Variable TMP_BASE_PATH : string.

Lemma program_folder_path_ingest token :
  program_folder_path TMP_BASE_PATH token
  = path_join (path_join TMP_BASE_PATH [token; "ingest"]) ["programs"].
Proof.
  unfold program_folder_path, path_join. cbn [fold_left].
  by rewrite path_join2_ingest_programs.
Qed.

Lemma event_file_names metric :
  is_event_file (metric +:+ "-event.data.csv") = true
  ∧ is_event_file (metric +:+ "-event.grammar.csv") = true.
Proof.
  unfold is_event_file. split.
  - change "-event.data.csv" with ("-" +:+ "event.data.csv").
    by rewrite <- app_assoc_str, endswith_app.
  - change "-event.grammar.csv" with ("-" +:+ "event.grammar.csv").
    by rewrite <- app_assoc_str, endswith_app, orb_true_r.
Qed.

Lemma dimension_file_names d :
  is_event_file (d +:+ "-dimension.data.csv") = false
  ∧ is_dimension_file (d +:+ "-dimension.data.csv") = true
  ∧ is_event_file (d +:+ "-dimension.grammar.csv") = false
  ∧ is_dimension_file (d +:+ "-dimension.grammar.csv") = true.
Proof.
  unfold is_event_file, is_dimension_file.
  rewrite (endswith_clash d "-dimension.data.csv" "event.data.csv"),
    (endswith_clash d "-dimension.data.csv" "event.grammar.csv"),
    (endswith_clash d "-dimension.data.csv" "dimension.grammar.csv"),
    (endswith_clash d "-dimension.grammar.csv" "event.data.csv"),
    (endswith_clash d "-dimension.grammar.csv" "event.grammar.csv"),
    (endswith_clash d "-dimension.grammar.csv" "dimension.data.csv")
    by done.
  repeat split.
  - change "-dimension.data.csv" with ("-" +:+ "dimension.data.csv").
    by rewrite <- app_assoc_str, endswith_app.
  - change "-dimension.grammar.csv" with ("-" +:+ "dimension.grammar.csv").
    by rewrite <- app_assoc_str, endswith_app, orb_true_r.
Qed.

(** Property X16.  Where the programs folder of the token lists
    [program_name] first, [fetch_file_content] looks for the data file
    and for the grammar file of a metric at the paths at which
    [write_events_to_ingest_folder], called by [generate_ingest_files]
    for that program, writes them. *)
Theorem fetch_event_file_written_path
    (env : Env V) token program_name (others : list string) metric :
  listdir env (program_folder_path TMP_BASE_PATH token)
  = Some (program_name :: others) →
  let base := path_join (path_join (path_join TMP_BASE_PATH [token]) ["ingest"])
                ["programs"; program_name] in
  fetch_file_content TMP_BASE_PATH env token (metric +:+ "-event.data.csv")
  = fetch_at env (event_data_path base metric)
  ∧ fetch_file_content TMP_BASE_PATH env token
      (metric +:+ "-event.grammar.csv")
    = fetch_at env (event_grammar_path base metric).
Proof.
  intros Hls base. destruct (event_file_names metric) as [Hdata Hgrammar].
  unfold fetch_file_content, get_ingest_folder_path, os_listdir.
  rewrite Hdata, Hgrammar, Hls. cbn [first_item].
  by rewrite program_folder_path_ingest.
Qed.

(** Property X17.  [fetch_file_content] looks for the data file and
    for the grammar file of a dimension at the paths at which
    [write_dimensions_to_ingest_folder], called by
    [generate_ingest_files], writes them: the name of a dimension file
    is never taken for the name of an event file. *)
Theorem fetch_dimension_file_written_path (env : Env V) token d :
  let base := path_join (path_join (path_join TMP_BASE_PATH [token]) ["ingest"])
                ["dimensions"] in
  fetch_file_content TMP_BASE_PATH env token (d +:+ "-dimension.data.csv")
  = fetch_at env (dimension_data_path base d)
  ∧ fetch_file_content TMP_BASE_PATH env token
      (d +:+ "-dimension.grammar.csv")
    = fetch_at env (dimension_grammar_path base d).
Proof.
  intros base.
  destruct (dimension_file_names d) as (He1 & Hd1 & He2 & Hd2).
  unfold fetch_file_content. by rewrite He1, Hd1, He2, Hd2.
Qed.

(** Property X18.  A recognised file name that starts with a slash is
    looked up as it stands, whatever the token: [os.path.join] drops the
    folder of the token before an absolute name.  (For the name of an
    event file the programs folder has to have an entry, or the call
    raises before that.) *)
Theorem fetch_absolute_filename (env : Env V) token filename :
  startswith "/" filename = true →
  (if is_event_file filename
   then ∃ program_name others,
          listdir env (program_folder_path TMP_BASE_PATH token)
          = Some (program_name :: others)
   else is_dimension_file filename = true) →
  fetch_file_content TMP_BASE_PATH env token filename
  = fetch_at env filename.
Proof.
  intros Habs Hkind. unfold fetch_file_content.
  destruct (is_event_file filename).
  - destruct Hkind as (program_name & others & Hls).
    unfold get_ingest_folder_path, os_listdir. rewrite Hls. cbn [first_item].
    unfold path_join at 1. cbn [fold_left]. unfold path_join2 at 1.
    by rewrite Habs.
  - rewrite Hkind. unfold path_join. cbn [fold_left].
    unfold path_join2 at 1. by rewrite Habs.
Qed.
End previews_paths.

(** ** Metadata for a column that the table does not have *)

Lemma split_columns_unknown md (mapping : gmap string string) ms ds :
  (∃ cols entry, (cols, entry) ∈ md
                 ∧ mapping !! updated_col_name entry = None) →
  ∃ key, split_columns md mapping ms ds = Err (KeyError key)
         ∧ mapping !! key = None.
Proof.
  revert ms ds. induction md as [|[c e] md IH]; intros ms ds.
  - intros (? & ? & []%elem_of_nil & _).
  - intros (cols & entry & Hin & Hnone). cbn [split_columns].
    unfold mapping_item.
    destruct (mapping !! updated_col_name e) as [name|] eqn:Hname.
    + assert ((cols, entry) ∈ md) as Hmd.
      { apply elem_of_cons in Hin as [[= -> ->] | ?]; [congruence | done]. }
      destruct (metric e); apply IH; eauto.
    + exists (updated_col_name e). by destruct (metric e).
Qed.

Section unknown.
Context {V : Type} `{Scalar V}.
Variable TMP_BASE_PATH : string.

(** Property X9.  Metadata with an entry whose [updated_col_name] is
    the name of no column of the renamed table stops
    [generate_ingest_files] with a [KeyError] for a name that no column
    takes, before anything is written. *)
Theorem generate_ingest_files_unknown_column
    (env : Env V) token md program_name program_desc w
    names file df0 cols entry :
  listdir env (path_join TMP_BASE_PATH [token]) = Some names →
  head (filter (λ f, endswith f ".csv") names) = Some file →
  read_csv env (path_join (path_join TMP_BASE_PATH [token]) [file]) = Ok df0 →
  (cols, entry) ∈ md →
  updated_col_name entry ∉ user_name md <$> columns df0 →
  ∃ key,
    generate_ingest_files TMP_BASE_PATH env token md program_name
      program_desc w
    = (Err (KeyError key), w)
    ∧ key ∉ user_name md <$> columns df0.
Proof.
  intros Hls Hfile Hread Hin Hnone.
  unfold generate_ingest_files, os_listdir. rewrite Hls, run_lift_ok.
  destruct (filter _ names) as [|file' rest]; [done|].
  injection Hfile as ->. cbn [first_item]. rewrite run_lift_ok, Hread.
  rewrite run_lift_ok, format_df_columns_unfold.
  destruct (split_columns_unknown md
              (list_to_map (map (λ c, (c, clean_column_name c))
                              (user_name md <$> columns df0))) [] [])
    as (key & Hsplit & Hkey).
  { exists cols, entry. split; [done|].
    rewrite lookup_name_map. by rewrite bool_decide_eq_false_2. }
  exists key. rewrite Hsplit. split; [done|].
  rewrite lookup_name_map in Hkey. by case_bool_decide.
Qed.
End unknown.

(** ** Taking the guess as it is *)

Section guess_route.
Context {V : Type} `{Scalar V}.
Variable TMP_BASE_PATH : string.
Variable infer_non_int : list string → dtype.

Lemma classified_metrics table :
  clean_name <$> filter (λ e, metric e = true)
                   (classified infer_non_int <$> table).*2
  = clean_column_name <$> int_columns infer_non_int table.
Proof.
  unfold int_columns. induction table as [|[name fields] table IH]; [done|].
  rewrite !fmap_cons, !filter_cons. cbn [snd classified metric].
  destruct (dtype_is_int _).
  - rewrite !decide_True by done. rewrite !fmap_cons. by rewrite IH.
  - rewrite !decide_False by done. exact IH.
Qed.

Lemma classified_dimensions table :
  clean_name <$> filter (λ e, metric e = false)
                   (classified infer_non_int <$> table).*2
  = clean_column_name <$> other_columns infer_non_int table.
Proof.
  unfold other_columns. induction table as [|[name fields] table IH]; [done|].
  rewrite !fmap_cons, !filter_cons. cbn [snd classified metric].
  destruct (dtype_is_int _).
  - rewrite !decide_False by done. exact IH.
  - rewrite !decide_True by done. rewrite !fmap_cons. by rewrite IH.
Qed.

Lemma user_name_classified table c :
  user_name (classified infer_non_int <$> table) c = c.
Proof.
  unfold user_name. induction table as [|[name fields] table IH]; [done|].
  rewrite fmap_cons. cbn. case_bool_decide; [by subst | exact IH].
Qed.

(** Property X4.  The metadata that [guess_metrics_and_columns]
    returns, given as it is to [format_df_columns] and to the loop of
    [generate_ingest_files], routes every column of the file: the
    headers are the cleaned headers of the file, the
    [int64] columns are the metrics and the others the dimensions, in
    the order of the file, under their cleaned names. *)
Theorem guessed_metadata_routes
    (env : Env V) token filename (table : list (string * list string))
    (df : DataFrame V) :
  read_fields env (path_join TMP_BASE_PATH [token; filename]) = Ok table →
  NoDup table.*1 →
  columns df = table.*1 →
  ∃ md,
    guess_metrics_and_columns TMP_BASE_PATH infer_non_int env token filename
    = Ok md
    ∧ let '(df', column_mapping) := format_df_columns df md in
      columns df' = clean_column_name <$> columns df
      ∧ split_columns md column_mapping [] []
        = Ok (clean_column_name <$> int_columns infer_non_int table,
              clean_column_name <$> other_columns infer_non_int table).
Proof.
  intros Hread Hnd Hcols.
  exists (classified infer_non_int <$> table). split.
  { unfold guess_metrics_and_columns. rewrite Hread.
    by rewrite (classify_columns infer_non_int table []). }
  rewrite format_df_columns_unfold. cbn [columns]. split.
  { apply list_fmap_ext. intros i c _. by rewrite user_name_classified. }
  rewrite (split_columns_ok _ _ clean_name).
  - cbn [app]. by rewrite classified_metrics, classified_dimensions.
  - intros cols entry ((name & fields) & [= -> ->] & Hin)%list_elem_of_fmap.
    cbn [classified updated_col_name fst].
    rewrite lookup_name_map, bool_decide_eq_true_2; [done|].
    apply list_elem_of_fmap. exists name.
    split; [by rewrite user_name_classified|].
    rewrite Hcols. apply list_elem_of_fmap. by exists (name, fields).
Qed.
End guess_route.

(** ** Where a run writes *)

Lemma components_nonempty (s : string) : components s ≠ [].
Proof.
  destruct s as [|c s]; [done|]. cbn [components].
  case_bool_decide; [done|]. by destruct (components s).
Qed.

Lemma components_app_slash (a b : string) :
  components (a +:+ "/" +:+ b) = components a ++ components b.
Proof.
  induction a as [|c a IH]; [done|].
  change (components (String c (a +:+ "/" +:+ b))
          = components (String c a) ++ components b).
  cbn [components]. rewrite IH. case_bool_decide; [done|].
  pose proof (components_nonempty a) as Hne.
  by destruct (components a).
Qed.

Lemma components_plain (s : string) :
  sall not_slash s = true → components s = [s].
Proof.
  induction s as [|c s IH]; [done|].
  intros [Hc Hs]%sall_cons. cbn [components]. rewrite (IH Hs).
  unfold not_slash in Hc. by destruct (bool_decide (c = "/"%char)).
Qed.

Lemma canon_not_slash need s :
  canon_from need s = true → sall not_slash s = true.
Proof.
  revert need. induction s as [|c s IH]; intros need; [done|].
  rewrite canon_from_cons. intros Hs. apply sall_cons.
  destruct (is_word c) eqn:Hc.
  - split; [|by eapply IH]. unfold not_slash.
    rewrite bool_decide_eq_false_2; [done|]. by apply word_not_slash.
  - apply andb_true_iff in Hs as [[Hu _]%andb_true_iff Hs].
    split; [|by eapply IH].
    apply bool_decide_eq_true in Hu as ->. done.
Qed.

Lemma clean_name_not_slash x : sall not_slash (clean_column_name x) = true.
Proof.
  destruct (clean_empty_or_canonical_bool x) as [-> | Hc]; [done|].
  by apply (canon_not_slash true).
Qed.

(** A file name made of a name without slashes and one of the four
    endings: it is one component, and not [..]. *)
Lemma file_name_safe (name ending : string) :
  sall not_slash name = true → sall not_slash ending = true →
  (2 < String.length ending)%nat →
  startswith "/" (name +:+ ending) = false
  ∧ ".." ∉ components (name +:+ ending).
Proof.
  intros Hname Hending Hlen.
  assert (sall not_slash (name +:+ ending) = true) as Hall
    by by rewrite sall_app, Hname, Hending.
  split.
  - destruct (name +:+ ending) as [|c s]; [done|].
    apply sall_cons in Hall as [Hc _]. cbn [startswith].
    unfold not_slash in Hc. rewrite andb_true_r.
    apply negb_true_iff in Hc. apply bool_decide_eq_false in Hc.
    apply bool_decide_eq_false_2. congruence.
  - rewrite components_plain by done. intros Heq%list_elem_of_singleton.
    apply (f_equal String.length) in Heq. rewrite length_app in Heq.
    cbn in Heq. lia.
Qed.

Lemma endswith_tail (a b : string) :
  b ≠ "" → endswith (a +:+ b) "/" = true → endswith b "/" = true.
Proof.
  intros Hb. unfold endswith. induction a as [|c a IH]; [done|].
  change (endswith_go "/" (String c (a +:+ b)) = true
          → endswith_go "/" b = true).
  cbn [endswith_go]. intros [Heq%bool_decide_eq_true | Hrest]%orb_true_iff.
  - injection Heq as _ Heq. by destruct a, b.
  - by apply IH.
Qed.

(** A folder and a remainder that end in a slash: the remainder is
    empty or ends in the slash itself. *)
Lemma trailing_slash (folder rest : string) :
  endswith (folder +:+ "/" +:+ rest) "/" = true →
  rest = "" ∨ ∃ r, rest = r +:+ "/".
Proof.
  intros Hend. destruct rest as [|c rest]; [by left|]. right.
  apply (endswith_tail folder) in Hend; [|done].
  apply (endswith_tail "/" (String c rest)) in Hend; [|done].
  by apply endswith_inv.
Qed.

Lemma below_join folder base name :
  below folder base → startswith "/" name = false →
  ".." ∉ components name →
  below folder (path_join base [name]).
Proof.
  intros (rest & -> & Hrest) Hrel Hname.
  rewrite path_join_relative by done. unfold join_prefix.
  rewrite is_empty_app, andb_false_r, orb_false_l.
  destruct (endswith (folder +:+ "/" +:+ rest) "/") eqn:Hend.
  - apply trailing_slash in Hend as [-> | [r ->]].
    + exists name. split; [|done]. by rewrite app_assoc_str.
    + exists (r +:+ "/" +:+ name). split.
      * by rewrite !app_assoc_str.
      * rewrite components_app_slash. intros [Hr | Hn]%elem_of_app; [|done].
        apply Hrest. change (r +:+ "/") with (r +:+ "/" +:+ "").
        rewrite components_app_slash. apply elem_of_app. by left.
  - exists (rest +:+ "/" +:+ name). split.
    + by rewrite !app_assoc_str.
    + rewrite components_app_slash. by intros [? | ?]%elem_of_app.
Qed.

Lemma below_ingest folder name :
  startswith "/" name = false → ".." ∉ components name →
  below (path_join folder ["ingest"])
        (path_join (path_join folder ["ingest"]) [name]).
Proof.
  intros Hrel Hname. rewrite (path_join_relative _ name) by done.
  exists name. split; [|done]. rewrite <- app_assoc_str. f_equal.
  unfold join_prefix.
  rewrite (path_join_relative folder "ingest") by done.
  by rewrite is_empty_app, andb_false_r, endswith_clash.
Qed.

Section stays.
Context {V : Type} `{Scalar V}.
Variable TMP_BASE_PATH : string.
Implicit Types (df : DataFrame V) (w : world V)
  (md : list (string * ColumnMeta)).

Lemma generate_events_below df folder (dimensions metrics : list string)
    program_name program_desc now (e : event V) :
  Forall (λ n, sall not_slash n = true) (dimensions ++ metrics) →
  startswith "/" program_name = false →
  ".." ∉ components program_name →
  e ∈ generate_events df dimensions metrics (path_join folder ["ingest"])
        program_name program_desc now →
  below (path_join folder ["ingest"]) (event_path e).
Proof.
  intros [Hds Hms]%Forall_app Hprogram Hsafe.
  rewrite Forall_forall in Hds. rewrite Forall_forall in Hms.
  set (ingest := path_join folder ["ingest"]).
  assert (below ingest (path_join ingest ["dimensions"])) as Hdims.
  { apply below_ingest; [done|]. by apply (bool_decide_unpack _). }
  assert (below ingest (path_join ingest ["programs"; program_name])) as Hprog.
  { apply (below_join ingest (path_join ingest ["programs"]) program_name);
      [|done..].
    apply below_ingest; [done|]. by apply (bool_decide_unpack _). }
  intros [-> | [Hin | [-> | [Hin | ->]]]]%elem_of_generate_events;
    cbn [event_path]; try done.
  - apply elem_of_dimension_events in Hin as (d & Hd & [-> | ->]);
      cbn [event_path];
      apply below_join; try done;
      apply file_name_safe; auto; cbn; lia.
  - apply elem_of_events_from in Hin as (k & m & Hm & [-> | ->]);
      apply list_elem_of_lookup_2 in Hm;
      cbn [event_path];
      apply below_join; try done;
      apply file_name_safe; auto; cbn; lia.
  - apply below_ingest; [done|]. by apply (bool_decide_unpack _).
Qed.

(** Property X7.  A run of [generate_ingest_files] on a good upload
    with a program name that does not start with a slash and has no
    component [..] creates and writes nothing but paths that are the
    [ingest] folder of the token, a slash, and a remainder without a
    component [..]: no path leads out of the folder (symbolic links
    aside). *)
Theorem generate_ingest_files_stays_in_folder
    env token md program_name program_desc w df0 :
  good_upload TMP_BASE_PATH env token md df0 →
  startswith "/" program_name = false →
  ".." ∉ components program_name →
  ∃ r w' new,
    generate_ingest_files TMP_BASE_PATH env token md program_name
      program_desc w
    = (Ok r, w')
    ∧ log w' = log w ++ new
    ∧ ∀ e, e ∈ new →
        below (path_join (path_join TMP_BASE_PATH [token]) ["ingest"])
              (event_path e).
Proof.
  intros Hgood Hprogram Hsafe. eexists _, _, _. split.
  { by rewrite (generate_ingest_files_run TMP_BASE_PATH env token md
                  program_name program_desc w df0 Hgood). }
  split; [done|]. intros e. apply generate_events_below; [|done..].
  rewrite <- fmap_app. apply Forall_fmap, Forall_forall.
  intros entry _. apply clean_name_not_slash.
Qed.
End stays.

(** ** The properties at work on the uploads of the examples *)

Lemma scenario_good_upload :
  good_upload "/tmp" scenario_env "t" score_metadata scores.
Proof.
  split.
  - exists ["notes.txt"; "in.csv"], "in.csv". by vm_compute.
  - repeat constructor.
  - apply (bool_decide_unpack _). vm_compute. exact I.
  - intros cols entry Hin.
    repeat (apply elem_of_cons in Hin as [[= -> _] | Hin];
            [vm_compute; repeat constructor|]).
    by apply elem_of_nil in Hin.
  - apply (bool_decide_unpack _). vm_compute. exact I.
  - apply (bool_decide_unpack _). vm_compute. exact I.
Qed.


Lemma generate_ingest_files_no_csv_witness :
  generate_ingest_files "/tmp" (env_of_programs (Some ["notes.txt"])) "t"
    score_metadata "p" "Scores" (still_world new_years_eve)
  = (Err IndexError, still_world new_years_eve).
Proof.
  apply (generate_ingest_files_no_csv "/tmp"
           (env_of_programs (Some ["notes.txt"])) "t" score_metadata "p"
           "Scores" (still_world new_years_eve) ["notes.txt"]).
  - reflexivity.
  - repeat constructor.
Defined.

Lemma write_dimensions_missing_column_witness :
  let '(r, w') :=
    write_dimensions_to_ingest_folder scores (["name"] ++ "city" :: ["score"])
      "/tmp/t/ingest" (still_world new_years_eve) in
  r = Err (KeyError "city") ∧ length (log w') = 4%nat.
Proof.
  rewrite (write_dimensions_missing_column scores ["name"] "city" ["score"]
             "/tmp/t/ingest" (still_world new_years_eve)).
  - by vm_compute.
  - repeat constructor.
  - repeat constructor.
  - apply (bool_decide_unpack _). vm_compute. exact I.
Defined.

Lemma write_events_missing_column_witness :
  write_events_to_ingest_folder scores ["city"; "town"] ["score"] "p"
    "/tmp/t/ingest" (still_world new_years_eve)
  = (Err (KeyErrorNotInIndex ["city"; "town"]),
     {| log := [ CreateFolder "/tmp/t/ingest/programs/p";
                 WriteFile "/tmp/t/ingest/programs/p/score-event.grammar.csv"
                   (Text (event_grammar_data ["city"; "town"] "score")) ];
        now := λ _, new_years_eve |}).
Proof.
  apply (write_events_missing_column scores ["city"; "town"] "score" [] "p"
           "/tmp/t/ingest" (still_world new_years_eve)).
  by vm_compute.
Defined.

Lemma write_events_date_column_witness :
  write_events_to_ingest_folder dated_scores ["date"] ["score"] "p"
    "/tmp/t/ingest" (still_world new_years_eve)
  = (Err (ValueError "cannot insert date, already exists"),
     {| log := [ CreateFolder "/tmp/t/ingest/programs/p";
                 WriteFile "/tmp/t/ingest/programs/p/score-event.grammar.csv"
                   (Text (event_grammar_data ["date"] "score")) ];
        now := λ _, new_years_eve |}).
Proof.
  apply (write_events_date_column dated_scores ["date"] "score" [] "p"
           "/tmp/t/ingest" (still_world new_years_eve)).
  - repeat constructor.
  - left.
Defined.


Lemma fetch_event_file_written_path_witness :
  fetch_file_content "/tmp" (env_of_programs (Some ["p"])) "t"
    "score-event.data.csv"
  = fetch_at (env_of_programs (Some ["p"]))
      "/tmp/t/ingest/programs/p/score-event.data.csv".
Proof.
  exact (proj1 (fetch_event_file_written_path "/tmp"
                  (env_of_programs (Some ["p"])) "t" "p" [] "score" eq_refl)).
Defined.

Lemma fetch_absolute_filename_witness :
  fetch_file_content "/tmp" (env_of_programs None) "t"
    "/etc/hosts-dimension.data.csv"
  = fetch_at (env_of_programs None) "/etc/hosts-dimension.data.csv".
Proof.
  apply (fetch_absolute_filename "/tmp" (env_of_programs None) "t").
  - reflexivity.
  - reflexivity.
Defined.

Lemma generate_ingest_files_unknown_column_witness :
  ∃ key,
    generate_ingest_files "/tmp" scenario_env "t" city_metadata "p" "Scores"
      (still_world new_years_eve)
    = (Err (KeyError key), still_world new_years_eve)
    ∧ key ∉ user_name city_metadata <$> columns scores.
Proof.
  apply (generate_ingest_files_unknown_column "/tmp" scenario_env "t"
           city_metadata "p" "Scores" (still_world new_years_eve)
           ["notes.txt"; "in.csv"] "in.csv" scores "city"
           {| updated_col_name := "City"; metric := false;
              dimension := true |}).
  - reflexivity.
  - reflexivity.
  - reflexivity.
  - right. left.
  - apply (bool_decide_unpack _). vm_compute. exact I.
Defined.

Lemma guessed_metadata_routes_witness :
  ∃ md,
    guess_metrics_and_columns "/tmp" as_object scenario_env "t" "in.csv"
    = Ok md
    ∧ split_columns md (format_df_columns scores md).2 [] []
      = Ok (["score"], ["name"]).
Proof.
  destruct (guessed_metadata_routes "/tmp" as_object scenario_env "t" "in.csv"
              [ ("name", ["Ada"; "Grace"; "Ada"]);
                ("score", ["10"; "10"; "7"]) ] scores)
    as (md & Hguess & Hroute).
  - reflexivity.
  - apply (bool_decide_unpack _). vm_compute. exact I.
  - reflexivity.
  - exists md. split; [exact Hguess|].
    destruct (format_df_columns scores md) as [df' mapping].
    destruct Hroute as [_ Hroute]. exact Hroute.
Defined.

Lemma generate_ingest_files_stays_in_folder_witness :
  ∃ r w' new,
    generate_ingest_files "/tmp" scenario_env "t" score_metadata "p" "Scores"
      (still_world new_years_eve)
    = (Ok r, w')
    ∧ log w' = [] ++ new
    ∧ ∀ e, e ∈ new → below "/tmp/t/ingest" (event_path e).
Proof.
  apply (generate_ingest_files_stays_in_folder "/tmp" scenario_env "t"
           score_metadata "p" "Scores" (still_world new_years_eve) scores
           scenario_good_upload eq_refl).
  apply (bool_decide_unpack _). vm_compute. exact I.
Defined.
